(** * Condor: the diffraction propagation engine

    A shallow embedding of [condor/experiment.py] (class [Experiment] and the
    module function [remove_from_dict]) and of the [diameter_mean] property of
    [condor/particle/particle_atoms.py], with the properties of the engine's
    specification stated and proved over it.

    Conventions of the embedding:
    - a Python call either returns a value, raises an exception, or is still
      running when the fuel given to a [while] loop is used up ([outcome]);
    - the attributes an [Experiment] mutates and the logger are threaded as an
      explicit state ([state], monad [M]);
    - numpy scalars are an abstract type with the operations the code applies
      to them (classes [NpArith], [NpCompare] and the like); an array of the
      detector's shape is a function from element indices to scalars;
    - collaborators whose code is outside the engine (source, detector,
      particle models, form factors, the non-uniform Fourier transform, spsim)
      are section variables. *)

From Stdlib Require Import ZArith List String Ascii Bool Lia QArith.
From Stdlib Require Import Permutation DecimalString.
From Stdlib Require DecimalNat FloatAxioms SpecFloat FloatOps.
From Stdlib Require Import PrimFloat Uint63 FloatClass.
From Stdlib Require Import Reals Lra.
Import ListNotations.

Set Warnings "-register-all".
Local Close Scope Q_scope.
Local Close Scope R_scope.

Local Open Scope string_scope.
Local Open Scope list_scope.

Set Implicit Arguments.
Set Default Proof Using "Type".

(** ** Python exceptions and outcomes *)

Inductive exn : Type :=
| RuntimeError (msg : string)
| KeyError (key : string)
| IndexError (msg : string)
| UnboundLocalError (name : string)
| ImportError (name : string)
| AttributeError (msg : string).

Inductive outcome (A : Type) : Type :=
| Ret (a : A)
| Raise (e : exn)
| Unfinished.

Arguments Ret {A} a.
Arguments Raise {A} e.
Arguments Unfinished {A}.

Definition obind {A B : Type} (c : outcome A) (k : A -> outcome B) : outcome B :=
  match c with
  | Ret a => k a
  | Raise e => Raise e
  | Unfinished => Unfinished
  end.

Declare Scope outcome_scope.
Delimit Scope outcome_scope with outcome.
Notation "x <-- c ;; k" := (obind c (fun x => k))
  (at level 61, c at next level, right associativity) : outcome_scope.

(** ** Python dictionaries with string keys

    A [dict] keeps its items in insertion order and holds one item per key.
    A value is either another dictionary or anything else ([VLeaf]). *)

Inductive pyval (L : Type) : Type :=
| VLeaf (l : L)
| VDict (d : list (string * pyval L)).

Arguments VLeaf {L} l.
Arguments VDict {L} d.

Definition dict (L : Type) : Type := list (string * pyval L).

Section Dict.
Variable L : Type.

Definition has_key (k : string) (D : dict L) : bool :=
  existsb (fun kv => String.eqb k (fst kv)) D.

(** [D[k]] *)
Fixpoint py_getitem (D : dict L) (k : string) : outcome (pyval L) :=
  match D with
  | [] => Raise (KeyError k)
  | (k', v) :: D' => if String.eqb k k' then Ret v else py_getitem D' k
  end.

(** [del D[k]] *)
Definition py_delitem (D : dict L) (k : string) : outcome (dict L) :=
  if has_key k D
  then Ret (filter (fun kv => negb (String.eqb k (fst kv))) D)
  else Raise (KeyError k).

(** The item of key [k] now holds [v]; the position of the key is kept. *)
Fixpoint py_replace (D : dict L) (k : string) (v : pyval L) : dict L :=
  match D with
  | [] => []
  | (k', v') :: D' =>
      if String.eqb k k' then (k', v) :: D' else (k', v') :: py_replace D' k v
  end.

(** *** [remove_from_dict]

<<
def remove_from_dict(D, startswith="_"):
  for k,v in list(D.items()):
      if k.startswith(startswith):
          del D[k]
      if isinstance(v, dict):
         remove_from_dict(D[k], startswith)
  return D
>>
    The loop runs over a snapshot of the items while [D] itself is mutated.
    [D[k]] is evaluated after the deletion, so it raises [KeyError] when the
    key has just been deleted. When it does not raise, [D[k]] is the very
    object [v] of the snapshot (the loop only deletes keys), and the
    recursive call cleans that object in place: the item of [k] in [D]
    afterwards holds the cleaned dictionary. *)

Section Loop.
Variable startswith : string.
(** the recursive call, on the value of a snapshot item *)
Variable clean : pyval L -> outcome (pyval L).

Fixpoint remove_from_dict_loop (items : list (string * pyval L)) (D : dict L)
  : outcome (dict L) :=
  match items with
  | [] => Ret D
  | (k, v) :: items' =>
      (D1 <-- (if String.prefix startswith k then py_delitem D k else Ret D) ;;
       D2 <-- match v with
              | VDict _ =>
                  _ <-- py_getitem D1 k ;;
                  v' <-- clean v ;;
                  Ret (py_replace D1 k v')
              | VLeaf _ => Ret D1
              end ;;
       remove_from_dict_loop items' D2)%outcome
  end.
End Loop.

Fixpoint remove_from_value (startswith : string) (v : pyval L) : outcome (pyval L) :=
  match v with
  | VLeaf l => Ret (VLeaf l)
  | VDict d =>
      (d' <-- remove_from_dict_loop startswith (remove_from_value startswith) d d ;;
       Ret (VDict d'))%outcome
  end.

Definition remove_from_dict (D : dict L) (startswith : string) : outcome (dict L) :=
  remove_from_dict_loop startswith (remove_from_value startswith) D D.

(** What the specification asks of the result: the items whose key begins
    with the prefix are gone at every nesting level, the others are kept in
    order. *)
Fixpoint strip_value (startswith : string) (v : pyval L) : pyval L :=
  match v with
  | VLeaf l => VLeaf l
  | VDict d =>
      VDict ((fix strip (d : list (string * pyval L)) : list (string * pyval L) :=
                match d with
                | [] => []
                | (k, v) :: d' =>
                    if String.prefix startswith k then strip d'
                    else (k, strip_value startswith v) :: strip d'
                end) d)
  end.

Definition strip_dict (startswith : string) (D : dict L) : dict L :=
  match strip_value startswith (VDict D) with
  | VDict d => d
  | VLeaf _ => []
  end.

(** No item with a key beginning with the prefix holds a dictionary, at any
    nesting level, and no key occurs twice in one dictionary. *)
Fixpoint tidy_value (startswith : string) (v : pyval L) : bool :=
  match v with
  | VLeaf _ => true
  | VDict d =>
      (fix tidy (d : list (string * pyval L)) : bool :=
         match d with
         | [] => true
         | (k, v) :: d' =>
             negb (has_key k d')
             && (match v with
                 | VDict _ => negb (String.prefix startswith k)
                 | VLeaf _ => true
                 end)
             && tidy_value startswith v
             && tidy d'
         end) d
  end.

Definition tidy_dict (startswith : string) (D : dict L) : bool :=
  tidy_value startswith (VDict D).

End Dict.

(** ** numpy scalars

    A numpy scalar is a float64 or a complex128. The engine's code is
    embedded over an abstract scalar type with the operations the code
    applies; the classes group them by what an instance has to provide. *)

Class NpArith (num : Type) : Type := {
  flt : Q -> num;                 (* a numeric literal *)
  npi : num;                      (* numpy.pi *)
  nadd : num -> num -> num;
  nsub : num -> num -> num;
  nmul : num -> num -> num;
  ndiv : num -> num -> num;
  nneg : num -> num;
  npow : num -> Z -> num;         (* x ** n for an integer literal n *)
  nsqrt : num -> num;             (* numpy.sqrt *)
  nabs : num -> num               (* abs *)
}.

Class NpCompare (num : Type) : Type := {
  nge : num -> num -> bool;       (* >= *)
  nlt : num -> num -> bool;       (* <  *)
  nle : num -> num -> bool;       (* <= *)
  nne : num -> num -> bool        (* != *)
}.

Class NpNonFinite (num : Type) : Type := {
  nan : num;                      (* numpy.nan *)
  nisfinite : num -> bool         (* numpy.isfinite *)
}.

Class NpExp (num : Type) : Type := {
  cj : num;                       (* 1j *)
  nexp : num -> num               (* numpy.exp *)
}.

Class NpAngles (num : Type) : Type := {
  nangle : num -> num;            (* numpy.angle *)
  narcsin : num -> num;           (* numpy.arcsin *)
  narctan2 : num -> num -> num    (* numpy.arctan2 *)
}.

(** ** Logging *)

Inductive level : Type := DEBUG | INFO | WARNING | ERROR.

Definition log_record : Type := (level * string)%type.

(** ["%i" % n] and ["%02i" % n] for a non-negative [n] *)
Definition fmt_i (n : nat) : string := NilZero.string_of_uint (Nat.to_uint n).

Definition fmt_02i (n : nat) : string :=
  let s := fmt_i n in
  if Nat.ltb (String.length s) 2 then "0" ++ s else s.

(** The classes of particle models [isinstance] tells apart. *)
Inductive pclass : Type :=
| ParticleSphere
| ParticleSpheroid
| ParticleMap
| ParticleAtoms
| OtherClass.

(** Insertion-ordered dictionaries with values of any type ([D[k] = v]). *)
Fixpoint aset {V : Type} (D : list (string * V)) (k : string) (v : V) : list (string * V) :=
  match D with
  | [] => [(k, v)]
  | (k', v') :: D' =>
      if String.eqb k k' then (k', v) :: D' else (k', v') :: aset D' k v
  end.

Definition fmt_Z (n : Z) : string :=
  if Z.ltb n 0 then "-" ++ fmt_i (Z.to_nat (- n)) else fmt_i (Z.to_nat n).

(** * The engine: [condor/experiment.py] *)

Section Engine.

Context {num : Type} {arith : NpArith num} {cmp : NpCompare num}
        {nonfinite : NpNonFinite num} {cexp : NpExp num} {angles : NpAngles num}.

(** Element indices of an array of the shape of the coordinate field (a
    detector pixel in 2-D mode, a voxel in 3-D mode), and their list. *)
Variable Idx : Type.
Variable elements : list Idx.

Definition V3 : Type := (num * num * num)%type.
Definition c0 (v : V3) : num := fst (fst v).
Definition c1 (v : V3) : num := snd (fst v).
Definition c2 (v : V3) : num := snd v.
Definition v3map {B : Type} (f : num -> B) (v : V3) : B * B * B :=
  (f (c0 v), f (c1 v), f (c2 v)).

(** a complex or real array, and a coordinate field (trailing axis of
    length 3) *)
Definition Arr : Type := Idx -> num.
Definition Qmap : Type := Idx -> V3.

(** numpy applies the scalar operations element by element; a scalar
    operand is broadcast. *)
Definition bc (x : num) : Arr := fun _ => x.
Definition aadd (a b : Arr) : Arr := fun i => nadd (a i) (b i).
Definition amul (a b : Arr) : Arr := fun i => nmul (a i) (b i).
Definition asqrt (a : Arr) : Arr := fun i => nsqrt (a i).

(** ** Collaborators outside the engine *)

Variable World : Type.        (* the state the samplers draw from *)
Variable Particle : Type.     (* a particle model instance *)
Variable Rotation : Type.     (* condor.utils.rotation.Rotation *)
Variable Quat : Type.
Variable Map3d : Type.        (* a 3-D grid of refractive-index decrements *)
Variable Data : Type.         (* arrays the engine only passes on *)

Inductive leaf : Type :=
| LNone
| LNum (x : num)
| LInt (n : Z)
| LVec (v : V3)
| LQuat (q : Quat)
| LArr (a : Arr)
| LMap3d (m : Map3d)
| LData (d : Data)
| LInstance (p : Particle).

(** The dictionaries the collaborators' [get_next] return, as records of
    the items the engine reads or writes; [*_extra] holds the other items. *)
Record DSource : Type := {
  wavelength : num;
  pulse_energy : num;
  source_extra : dict leaf
}.

Record DDetector : Type := {
  nx : Z;
  ny : Z;
  cx : num;
  cy : num;
  pixel_size : num;
  distance : num;
  detector_extra : dict leaf
}.

Record DParticle : Type := {
  _class_instance : Particle;
  position : V3;
  extrinsic_quaternion : Quat;
  diameter : option num;
  flattening : option num;
  particle_extra : dict leaf;
  (* written by [_propagate] *)
  intensity : option num;
  F0 : option num;
  map3d_dn : option Map3d;
  dx : option num
}.

Definition set_intensity (D : DParticle) (x : num) : DParticle :=
  {| _class_instance := _class_instance D; position := position D;
     extrinsic_quaternion := extrinsic_quaternion D; diameter := diameter D;
     flattening := flattening D;
     particle_extra := particle_extra D;
     intensity := Some x; F0 := F0 D; map3d_dn := map3d_dn D; dx := dx D |}.

Definition set_F0 (D : DParticle) (x : num) : DParticle :=
  {| _class_instance := _class_instance D; position := position D;
     extrinsic_quaternion := extrinsic_quaternion D; diameter := diameter D;
     flattening := flattening D;
     particle_extra := particle_extra D;
     intensity := intensity D; F0 := Some x; map3d_dn := map3d_dn D; dx := dx D |}.

Definition set_map3d (D : DParticle) (m : Map3d) (x : num) : DParticle :=
  {| _class_instance := _class_instance D; position := position D;
     extrinsic_quaternion := extrinsic_quaternion D; diameter := diameter D;
     flattening := flattening D;
     particle_extra := particle_extra D;
     intensity := intensity D; F0 := F0 D; map3d_dn := Some m; dx := Some x |}.

(** condor.utils.rotation *)
Variable Rotation_quaternion : Quat -> Rotation.
Variable is_similar : Rotation -> option Rotation -> outcome bool.
Variable rotate_vector : Rotation -> V3 -> V3.

(** the source *)
Variable source_get_next : World -> DSource * World.
Variable source_get_intensity : V3 -> string -> num -> num.
Variable source_polarization : string.

(** the detector *)
Variable detector_get_next : World -> DDetector * World.
Variable detector_generate_qmap :
  num -> num -> num -> option Rotation -> option string -> Qmap.
Variable detector_generate_qmap_3d :
  num -> option Z -> option num -> option Rotation -> string -> Qmap.
Variable detector_get_q_max : num -> string -> list num.
Variable detector_solid_angle_correction : bool.
Variable detector_get_all_pixel_solid_angles : num -> num -> Arr.
Variable detector_get_resolution_element_r :
  num -> option num -> option num -> bool -> num.
Variable detector_calculate_polarization_factors : num -> num -> string -> Arr.
Variable detector_detect_photons : Arr -> World -> (Data * Data) * World.
Variable detector_binning : option Z.
Variable detector_bin_photons : Data -> Data -> Data * Data.
Variable detector_get_max_resolution : num -> num.
(** condor.utils.resample.downsample, mode "integrate", min_N_pixels=1 *)
Variable downsample : Arr -> Z -> Data -> Data * option Data.

(** the particle models *)
Variable particles : list (string * Particle).     (* self.particles *)
Variable class_of : Particle -> pclass.
Variable get_next_number_of_particles : Particle -> World -> Z * World.
Variable particle_get_next : Particle -> World -> DParticle * World.
Variable get_dn : Particle -> num -> num.
Variable get_new_dn_map : Particle -> DParticle -> num -> num -> num -> Map3d * num.

(** condor.utils: form factors and the non-uniform Fourier transform *)
Variable F_sphere_diffraction : num -> Arr -> num -> Arr.
Variable to_spheroid_semi_diameter_a : num -> num -> num.
Variable to_spheroid_semi_diameter_c : num -> num -> num.
Variable F_spheroid_diffraction :
  num -> Arr -> Arr -> num -> num -> num -> num -> Arr.
Variable nfft : Map3d -> Qmap -> Arr.
Variable map3d_values : Map3d -> list num.

(** spsim, the atomistic simulator *)
Record spsim_pattern : Type := {
  phot_image : Arr;      (* make_image(...).image *)
  F_image : Arr;         (* make_cimage(...).image *)
  hkl_image : Qmap       (* the image filled from pat.HKL_list, real part *)
}.
Variable spsim_importable : bool.
Variable spsim_version : option string.          (* spsim.__version__ *)
Variable StrictVersion_lt : string -> string -> bool.
Variable spsim_simulate_shot :
  DSource -> DParticle -> DDetector -> Z -> option Z -> option num -> spsim_pattern.

(** ** The state of an [Experiment] and of the logger *)

Record QmapCacheEntry : Type := {
  c_qmap : Qmap;
  c_nx : Z;
  c_ny : Z;
  c_cx : num;
  c_cy : num;
  c_pixel_size : num;
  c_detector_distance : num;
  c_wavelength : num;
  c_extrinsic_rotation : option Rotation;
  c_order : string
}.

(** [_qmap_cache] is [{}] ([None]) or a dictionary with the ten items. *)
Record state : Type := {
  world : World;
  _qmap_cache : option QmapCacheEntry;
  logged : list log_record
}.

Definition M (A : Type) : Type := state -> outcome A * state.

Definition mret {A : Type} (a : A) : M A := fun s => (Ret a, s).

Definition mbind {A B : Type} (c : M A) (k : A -> M B) : M B :=
  fun s =>
    match c s with
    | (Ret a, s') => k a s'
    | (Raise e, s') => (Raise e, s')
    | (Unfinished, s') => (Unfinished, s')
    end.

Definition raise {A : Type} (e : exn) : M A := fun s => (Raise e, s).

Definition unfinished {A : Type} : M A := fun s => (Unfinished, s).

Definition lift_outcome {A : Type} (o : outcome A) : M A := fun s => (o, s).

Definition with_world {A : Type} (f : World -> A * World) : M A :=
  fun s =>
    let (a, w) := f (world s) in
    (Ret a, {| world := w; _qmap_cache := _qmap_cache s; logged := logged s |}).

Definition get_cache : M (option QmapCacheEntry) :=
  fun s => (Ret (_qmap_cache s), s).

Definition set_cache (c : option QmapCacheEntry) : M unit :=
  fun s => (Ret tt, {| world := world s; _qmap_cache := c; logged := logged s |}).

Definition log (lvl : level) (msg : string) : M unit :=
  fun s => (Ret tt, {| world := world s; _qmap_cache := _qmap_cache s;
                       logged := logged s ++ [(lvl, msg)] |}).

Definition log_debug : string -> M unit := log DEBUG.
Definition log_info : string -> M unit := log INFO.
Definition log_warning : string -> M unit := log WARNING.

(** Modelled from the spec: [log_and_raise_error] of condor.utils.log is not
    among the sources. The specification calls its use a fatal error that is
    surfaced immediately: the message is logged and an exception carrying it
    is raised, so the statements the source writes after a call ([return],
    [sys.exit(0)]) are not reached. *)
Definition log_and_raise_error {A : Type} (msg : string) : M A :=
  fun s => (Raise (RuntimeError msg),
            {| world := world s; _qmap_cache := _qmap_cache s;
               logged := logged s ++ [(ERROR, msg)] |}).

(** [D[key]] for an item a record holds as an option *)
Definition item {A : Type} (key : string) (v : option A) : M A :=
  match v with
  | Some a => mret a
  | None => raise (KeyError key)
  end.

Declare Scope M_scope.
Delimit Scope M_scope with M.
Local Notation "x <- c ;; k" := (mbind c (fun x => k))
  (at level 61, c at next level, right associativity) : M_scope.
Local Notation "' pat <- c ;; k" := (mbind c (fun x => match x with pat => k end))
  (at level 61, pat pattern, c at next level, right associativity) : M_scope.
Local Notation "c ;;; k" := (mbind c (fun _ => k))
  (at level 61, right associativity) : M_scope.
Local Open Scope M_scope.

(** ** The qmap cache

<<
  def get_qmap(self, nx, ny, cx, cy, pixel_size, detector_distance, wavelength,
               extrinsic_rotation=None, order="xyz"):
      calculate = False
      if self._qmap_cache == {}:
          calculate = True
      else:
          calculate = calculate or nx != self._qmap_cache["nx"]
          ...
          calculate = calculate or order != self._qmap_cache["order"]
          if extrinsic_rotation is not None:
              calculate = calculate or not extrinsic_rotation.is_similar(self._qmap_cache["extrinsic_rotation"])
      if calculate:
          log_debug(logger,  "Calculating qmap")
          self._qmap_cache = { "qmap" : self.detector.generate_qmap(wavelength, cx=cx, cy=cy, extrinsic_rotation=extrinsic_rotation, order=order), ... }
      return self._qmap_cache["qmap"]
>>
    [x or y] evaluates [y] only when [x] is false, so [is_similar] is called
    only when no other parameter differs. The decorator [log_execution_time]
    times the call and is left out. *)

Definition Z_ne (a b : Z) : bool := negb (Z.eqb a b).
Definition str_ne (a b : string) : bool := negb (String.eqb a b).

(** the value of [calculate] when the cache holds [c], before the rotations
    are compared *)
Definition params_differ (c : QmapCacheEntry)
    (nx ny : Z) (cx cy pixel_size detector_distance wavelength : num)
    (order : string) : bool :=
  let calculate := false in
  let calculate := calculate || Z_ne nx (c_nx c) in
  let calculate := calculate || Z_ne ny (c_ny c) in
  let calculate := calculate || nne cx (c_cx c) in
  let calculate := calculate || nne cy (c_cy c) in
  let calculate := calculate || nne pixel_size (c_pixel_size c) in
  let calculate := calculate || nne detector_distance (c_detector_distance c) in
  let calculate := calculate || nne wavelength (c_wavelength c) in
  let calculate := calculate || str_ne order (c_order c) in
  calculate.

Definition get_qmap_calculate (cache : option QmapCacheEntry)
    (nx ny : Z) (cx cy pixel_size detector_distance wavelength : num)
    (extrinsic_rotation : option Rotation) (order : string) : M bool :=
  match cache with
  | None => mret true
  | Some c =>
      let calculate :=
        params_differ c nx ny cx cy pixel_size detector_distance wavelength order in
      match extrinsic_rotation with
      | Some r =>
          if calculate then mret true
          else
            similar <- lift_outcome (is_similar r (c_extrinsic_rotation c)) ;;
            mret (negb similar)
      | None => mret calculate
      end
  end.

Definition new_cache_entry
    (nx ny : Z) (cx cy pixel_size detector_distance wavelength : num)
    (extrinsic_rotation : option Rotation) (order : string) : QmapCacheEntry :=
  {| c_qmap := detector_generate_qmap wavelength cx cy extrinsic_rotation (Some order);
     c_nx := nx;
     c_ny := ny;
     c_cx := cx;
     c_cy := cy;
     c_pixel_size := pixel_size;
     c_detector_distance := detector_distance;
     c_wavelength := wavelength;
     c_extrinsic_rotation := extrinsic_rotation;   (* copy.deepcopy *)
     c_order := order |}.

Definition get_qmap
    (nx ny : Z) (cx cy pixel_size detector_distance wavelength : num)
    (extrinsic_rotation : option Rotation) (order : string) : M Qmap :=
  cache <- get_cache ;;
  calculate <- get_qmap_calculate cache nx ny cx cy pixel_size detector_distance
                 wavelength extrinsic_rotation order ;;
  (if calculate : bool then
     log_debug "Calculating qmap" ;;;
     set_cache (Some (new_cache_entry nx ny cx cy pixel_size detector_distance
                        wavelength extrinsic_rotation order))
   else mret tt) ;;;
  cache <- get_cache ;;
  match cache with
  | Some c => mret (c_qmap c)
  | None => raise (KeyError "qmap")
  end.

(**
<<
  def get_qmap_from_cache(self):
      if self._qmap_cache == {} or not "qmap" in self._qmap_cache:
          log_and_raise_error(logger, "Cache empty!")
          return None
      else:
          return self._qmap_cache["qmap"]
>>
    A cache that is not [{}] holds the item ["qmap"]. *)
Definition get_qmap_from_cache : M Qmap :=
  cache <- get_cache ;;
  match cache with
  | None => log_and_raise_error "Cache empty!"
  | Some c => mret (c_qmap c)
  end.

(** ** Sampling the particles of a shot

<<
  def _get_next_particles(self):
      D_particles = {}
      while len(D_particles) == 0:
          i = 0
          for p in self.particles.values():
              n = p.get_next_number_of_particles()
              for i_n in range(n):
                  D_particles["particle_%02i" % i] = p.get_next()
                  i += 1
          N = len(D_particles)
          if N == 0:
              log_info(logger, "Miss - no particles in the interaction volume. Shooting again...")
          else:
              log_debug(logger, "%i particles" % N)
      return D_particles
>> *)

Definition DParticles : Type := list (string * DParticle).

(** ["particle_%02i" % i] *)
Definition particle_key (i : nat) : string := "particle_" ++ fmt_02i i.

(** [for i_n in range(n)] *)
Fixpoint sample_instances (p : Particle) (n : nat) (i : nat) (D_particles : DParticles)
  : M (nat * DParticles) :=
  match n with
  | O => mret (i, D_particles)
  | S n' =>
      D <- with_world (particle_get_next p) ;;
      sample_instances p n' (S i) (aset D_particles (particle_key i) D)
  end.

(** [for p in self.particles.values()] *)
Fixpoint sample_round (ps : list (string * Particle)) (i : nat) (D_particles : DParticles)
  : M (nat * DParticles) :=
  match ps with
  | [] => mret (i, D_particles)
  | (_, p) :: ps' =>
      n <- with_world (get_next_number_of_particles p) ;;
      '(i', D_particles') <- sample_instances p (Z.to_nat n) i D_particles ;;
      sample_round ps' i' D_particles'
  end.

Definition miss_message : string :=
  "Miss - no particles in the interaction volume. Shooting again...".

(** the [while] loop; [fuel] bounds the number of rounds *)
Fixpoint sampling_loop (fuel : nat) (D_particles : DParticles) : M DParticles :=
  match D_particles with
  | _ :: _ => mret D_particles
  | [] =>
      match fuel with
      | O => unfinished
      | S fuel' =>
          '(_, D_particles') <- sample_round particles 0 D_particles ;;
          let N := List.length D_particles' in
          (if Nat.eqb N 0 then log_info miss_message
           else log_debug (fmt_i N ++ " particles")) ;;;
          sampling_loop fuel' D_particles'
      end
  end.

Definition _get_next_particles (fuel : nat) : M DParticles :=
  sampling_loop fuel [].

(** ** The messages of the errors [_propagate] raises *)

Definition dquote : string := String (Ascii.ascii_of_nat 34) EmptyString.

Definition ndim_message (ndim : Z) : string :=
  "ndim = " ++ fmt_Z ndim ++ " is an invalid input. Has to be either 2 or 3.".

Definition solid_angle_message : string :=
  "Carrying out solid angle correction for a simulation of a 3D Fourier volume does not make sense. Please set solid_angle_correction=False for your Detector and try again.".

Definition polarization_message (polarization : string) : string :=
  "polarization=" ++ dquote ++ polarization ++ dquote
  ++ " for a 3D propagation does not make sense. Set polarization="
  ++ dquote ++ "ignore" ++ dquote
  ++ " in your Source configuration and try again.".

Definition spheroid_message : string :=
  "Spheroid simulation with ndim = 3 is not supported.".

Definition spsim_message : string :=
  "Your spsim version is too old. Please install the newest spsim version and try again.".

Definition no_valid_particles_message : string := "No valid particles initialized.".

(** ** The per-shape diffraction kernels (the branches of [_propagate]) *)

(** [Omega_p] *)
Definition solid_angles (D_detector : DDetector) : Arr :=
  if detector_solid_angle_correction
  then detector_get_all_pixel_solid_angles (cx D_detector) (cy D_detector)
  else bc (ndiv (npow (pixel_size D_detector) 2) (npow (distance D_detector) 2)).

(** [numpy.sqrt((qmap**2).sum(axis=ndim))] *)
Definition qnorm (qmap : Qmap) : Arr :=
  fun i =>
    nsqrt (nadd (nadd (npow (c0 (qmap i)) 2) (npow (c1 (qmap i)) 2))
                (npow (c2 (qmap i)) 2)).

(** [F0 = numpy.sqrt(I_0)*2*numpy.pi/wavelength**2] *)
Definition primary_wave_amplitude (I_0 wavelength : num) : num :=
  ndiv (nmul (nmul (nsqrt I_0) (flt 2)) npi) (npow wavelength 2).

(** [V = 4/3.*numpy.pi*R**3] *)
Definition sphere_volume (R : num) : num :=
  nmul (nmul (ndiv (flt 4) (flt 3)) npi) (npow R 3).

Definition cached_qmap (D_detector : DDetector) (wavelength : num)
    (extrinsic_rotation : option Rotation) (order : string) : M Qmap :=
  get_qmap (nx D_detector) (ny D_detector) (cx D_detector) (cy D_detector)
    (pixel_size D_detector) (distance D_detector) wavelength extrinsic_rotation order.

(** UNIFORM SPHERE *)
Definition sphere_kernel (ndim : Z) (p : Particle) (D_particle : DParticle)
    (D_detector : DDetector) (wavelength F0 : num) (Omega_p : Arr) (qmap0 : Qmap)
  : M (Arr * Qmap) :=
  let dn := get_dn p wavelength in
  qmap <- (if Z.eqb ndim 2 then cached_qmap D_detector wavelength None "xyz"
           else mret qmap0) ;;
  let q := qnorm qmap in
  d <- item "diameter" (diameter D_particle) ;;
  let R := ndiv d (flt 2) in
  let V := sphere_volume R in
  let K := npow (nmul (nmul F0 V) dn) 2 in
  let F := amul (F_sphere_diffraction K q R) (asqrt Omega_p) in
  mret (F, qmap).

(** UNIFORM SPHEROID *)
Definition spheroid_kernel (ndim : Z) (p : Particle) (D_particle : DParticle)
    (D_detector : DDetector) (wavelength F0 : num) (Omega_p : Arr)
    (extrinsic_rotation : Rotation) : M (Arr * Qmap) :=
  if Z.eqb ndim 3
  then log_and_raise_error spheroid_message
  else
    let dn := get_dn p wavelength in
    qmap <- cached_qmap D_detector wavelength None "xyz" ;;
    let qx : Arr := fun i => c0 (qmap i) in
    let qy : Arr := fun i => c1 (qmap i) in
    d <- item "diameter" (diameter D_particle) ;;
    let R := ndiv d (flt 2) in
    let V := sphere_volume R in
    let K := npow (nmul (nmul F0 V) (nabs dn)) 2 in
    fl <- item "flattening" (flattening D_particle) ;;
    let a := to_spheroid_semi_diameter_a d fl in
    let c := to_spheroid_semi_diameter_c d fl in
    let v0 : V3 := (flt 0, flt 1, flt 0) in
    let v1 := rotate_vector extrinsic_rotation v0 in
    let theta := narcsin (c2 v1) in
    let phi := narctan2 (nneg (c0 v1)) (c1 v1) in
    let F := amul (F_spheroid_diffraction K qx qy a c theta phi) (asqrt Omega_p) in
    mret (F, qmap).

(** MAP *)

(** [qmap_scaled = dx * qmap / (2. * numpy.pi)]; the reshape to a flat list
    of 3-vectors keeps the elements. *)
Definition rescale (dx : num) (qmap : Qmap) : Qmap :=
  fun i => v3map (fun x => ndiv (nmul dx x) (nmul (flt 2) npi)) (qmap i).

(** one entry of [~((qmap_shaped>=-0.5) * (qmap_shaped<0.5))] *)
Definition invalid (x : num) : bool :=
  negb (nge x (flt (-1 # 2)) && nlt x (flt (1 # 2))).

Definition invalid_mask (qmap_shaped : Qmap) : Idx -> bool * bool * bool :=
  fun i => v3map invalid (qmap_shaped i).

(** [invalid_mask.any(axis=1)] at one sample *)
Definition row_any (m : bool * bool * bool) : bool :=
  let '(m0, m1, m2) := m in m0 || m1 || m2.

(** [numpy.any(invalid_mask)] *)
Definition any_invalid (mask : Idx -> bool * bool * bool) : bool :=
  existsb (fun i => row_any (mask i)) elements.

(** [invalid_mask.sum()] *)
Definition count_invalid (mask : Idx -> bool * bool * bool) : nat :=
  fold_left
    (fun n i => let '(m0, m1, m2) := mask i in
                (n + Nat.b2n m0 + Nat.b2n m1 + Nat.b2n m2)%nat)
    elements O.

(** [qmap_shaped[invalid_mask] = 0.] *)
Definition zero_invalid (qmap_shaped : Qmap) (mask : Idx -> bool * bool * bool) : Qmap :=
  fun i =>
    let '(m0, m1, m2) := mask i in
    ((if m0 then flt 0 else c0 (qmap_shaped i)),
     (if m1 then flt 0 else c1 (qmap_shaped i)),
     (if m2 then flt 0 else c2 (qmap_shaped i))).

(** "Check inputs": the samples handed to the transform *)
Definition check_inputs (qmap_shaped : Qmap) : M Qmap :=
  let mask := invalid_mask qmap_shaped in
  if any_invalid mask then
    log_warning (fmt_i (count_invalid mask) ++ " invalid pixel positions.") ;;;
    mret (zero_invalid qmap_shaped mask)
  else mret qmap_shaped.

(** "Check output": [fourier_pattern[invalid_mask.any(axis=1)] = numpy.nan] *)
Definition mask_output (fourier_pattern : Arr) (mask : Idx -> bool * bool * bool) : Arr :=
  if any_invalid mask
  then fun i => if row_any (mask i) then nan else fourier_pattern i
  else fourier_pattern.

Definition has_nonfinite (xs : list num) : bool :=
  existsb (fun x => negb (nisfinite x)) xs.

(** the transform of the map at the rescaled samples, invalid samples marked *)
Definition map_fourier_pattern (map3d_dn : Map3d) (dx : num) (qmap : Qmap) : M Arr :=
  let qmap_scaled := rescale dx qmap in
  let qmap_shaped := qmap_scaled in
  let mask := invalid_mask qmap_shaped in
  qmap_shaped <- check_inputs qmap_shaped ;;
  log_debug "Map3d input shape: (%i,%i,%i), number of dimensions: %i, sum %f" ;;;
  (if has_nonfinite (map nabs (map3d_values map3d_dn))
   then log_warning "There are infinite values in the dn map of the object."
   else mret tt) ;;;
  log_debug "Scattering vectors shape: (%i,%i); Number of dimensions: %i" ;;;
  (if existsb (fun i => has_nonfinite
                 [c0 (qmap_shaped i); c1 (qmap_shaped i); c2 (qmap_shaped i)]) elements
   then log_warning "There are infinite values in the scattering vectors."
   else mret tt) ;;;
  let fourier_pattern := nfft map3d_dn qmap_shaped in
  let fourier_pattern := mask_output fourier_pattern mask in
  log_debug "Generated pattern of shape %s." ;;;
  mret fourier_pattern.

Definition map_kernel (save_map3d : bool) (ndim : Z) (qn : option Z) (qmax : option num)
    (p : Particle) (D_particle : DParticle) (D_detector : DDetector)
    (wavelength F0 : num) (Omega_p : Arr) (extrinsic_rotation : Rotation)
  : M (Arr * Qmap * DParticle) :=
  let dx_required :=
    detector_get_resolution_element_r wavelength
      (Some (cx D_detector)) (Some (cy D_detector)) false in
  let dx_suggested := detector_get_resolution_element_r wavelength None None true in
  qmap <- (if Z.eqb ndim 2
           then cached_qmap D_detector wavelength (Some extrinsic_rotation) "zyx"
           else mret (detector_generate_qmap_3d wavelength qn qmax
                        (Some extrinsic_rotation) "zyx")) ;;
  let '(map3d_dn, dx) := get_new_dn_map p D_particle dx_required dx_suggested wavelength in
  log_debug "Sampling of map: dx_required = %e m, dx_suggested = %e m, dx = %e m" ;;;
  let D_particle := if save_map3d then set_map3d D_particle map3d_dn dx else D_particle in
  fourier_pattern <- map_fourier_pattern map3d_dn dx qmap ;;
  let F := amul (amul (amul (bc F0) fourier_pattern) (bc (npow dx 3))) (asqrt Omega_p) in
  mret (F, qmap, D_particle).

(** ATOMS *)
Definition spsim_version_min : string := "0.1.0".

Definition atoms_kernel (ndim : Z) (qn : option Z) (qmax : option num)
    (D_source : DSource) (D_particle : DParticle) (D_detector : DDetector)
    (extrinsic_rotation : Rotation) : M (Arr * Qmap) :=
  if negb spsim_importable then raise (ImportError "spsim")
  else if match spsim_version with
          | None => true
          | Some v => StrictVersion_lt v spsim_version_min
          end
  then log_and_raise_error spsim_message
  else
    let pat := spsim_simulate_shot D_source D_particle D_detector ndim qn qmax in
    let F : Arr :=
      fun i => nmul (nsqrt (nabs (phot_image pat i)))
                    (nexp (nmul cj (nangle (F_image pat i)))) in
    let qmap : Qmap :=
      fun i => v3map (fun x => nmul (nmul (flt 2) npi) x) (hkl_image pat i) in
    set_cache (Some {| c_qmap := qmap;
                       c_nx := nx D_detector;
                       c_ny := ny D_detector;
                       c_cx := cx D_detector;
                       c_cy := cy D_detector;
                       c_pixel_size := pixel_size D_detector;
                       c_detector_distance := distance D_detector;
                       c_wavelength := wavelength D_source;
                       c_extrinsic_rotation := Some extrinsic_rotation;
                       c_order := "zyx" |}) ;;;
    mret (F, qmap).

(** ** Phase shift and superposition *)

(** [numpy.allclose(v, numpy.zeros_like(v), atol=1E-12)]: every component
    satisfies [abs(x - 0.) <= atol + rtol * abs(0.)] with numpy's default
    [rtol=1e-05]. *)
Definition isclose_zero (x : num) : bool :=
  nle (nabs (nsub x (flt 0)))
      (nadd (flt (1 # 1000000000000)) (nmul (flt (1 # 100000)) (nabs (flt 0)))).

Definition allclose_zero (v : V3) : bool :=
  isclose_zero (c0 v) && isclose_zero (c1 v) && isclose_zero (c2 v).

(** [numpy.exp(-1.j*(v[0]*qmap0[...,0]+v[1]*qmap0[...,1]+v[2]*qmap0[...,2]))] *)
Definition phase_factor (v : V3) (qmap0 : Qmap) : Arr :=
  fun i =>
    nexp (nmul (nneg cj)
               (nadd (nadd (nmul (c0 v) (c0 (qmap0 i))) (nmul (c1 v) (c1 (qmap0 i))))
                     (nmul (c2 v) (c2 (qmap0 i))))).

(** "Calculate phase factors if needed" *)
Definition phase_shift (v : V3) (F : Arr) (qmap0 : Qmap) : Arr :=
  if negb (allclose_zero v) then amul F (phase_factor v qmap0) else F.

(** The amplitude of one particle before the phase shift: the body of the
    loop of [_propagate] up to the kernel selected by the particle's class. *)
Definition particle_amplitude (save_map3d : bool) (ndim : Z)
    (qn : option Z) (qmax : option num)
    (D_source : DSource) (D_detector : DDetector) (qmap0 : Qmap)
    (D_particle : DParticle) : M (Arr * Qmap * DParticle) :=
  let wavelength := wavelength D_source in
  let p := _class_instance D_particle in
  let pos := position D_particle in
  let I_0 := source_get_intensity pos "ph/m2" (pulse_energy D_source) in
  let D_particle := set_intensity D_particle I_0 in
  let F0 := primary_wave_amplitude I_0 wavelength in
  let D_particle := set_F0 D_particle F0 in
  let extrinsic_rotation := Rotation_quaternion (extrinsic_quaternion D_particle) in
  let Omega_p := solid_angles D_detector in
  match class_of p with
  | ParticleSphere =>
      '(F, qmap) <- sphere_kernel ndim p D_particle D_detector wavelength F0 Omega_p qmap0 ;;
      mret (F, qmap, D_particle)
  | ParticleSpheroid =>
      '(F, qmap) <- spheroid_kernel ndim p D_particle D_detector wavelength F0 Omega_p
                      extrinsic_rotation ;;
      mret (F, qmap, D_particle)
  | ParticleMap =>
      map_kernel save_map3d ndim qn qmax p D_particle D_detector wavelength F0 Omega_p
        extrinsic_rotation
  | ParticleAtoms =>
      '(F, qmap) <- atoms_kernel ndim qn qmax D_source D_particle D_detector
                      extrinsic_rotation ;;
      mret (F, qmap, D_particle)
  | OtherClass => log_and_raise_error no_valid_particles_message
  end.

(** The field one particle adds to the total. *)
Definition particle_field (save_map3d : bool) (ndim : Z)
    (qn : option Z) (qmax : option num)
    (D_source : DSource) (D_detector : DDetector) (qmap0 : Qmap)
    (D_particle : DParticle) : M (Arr * DParticle) :=
  '(F, _, D_particle') <- particle_amplitude save_map3d ndim qn qmax D_source D_detector
                            qmap0 D_particle ;;
  let v := position D_particle' in
  mret (phase_shift v F qmap0, D_particle').

(** [for particle_key, D_particle in D_particles.items(): ... F_tot = F_tot + F].
    The loop changes the dictionaries of the particles in place; the
    dictionary [qmap_singles] it fills is never read and is left out. *)
Fixpoint superimpose (save_map3d : bool) (ndim : Z)
    (qn : option Z) (qmax : option num)
    (D_source : DSource) (D_detector : DDetector) (qmap0 : Qmap)
    (items : DParticles) (F_tot : Arr) : M (Arr * DParticles) :=
  match items with
  | [] => mret (F_tot, [])
  | (particle_key, D_particle) :: items' =>
      '(F, D_particle') <- particle_field save_map3d ndim qn qmax D_source D_detector
                             qmap0 D_particle ;;
      let F_tot := aadd F_tot F in
      '(F_tot', done) <- superimpose save_map3d ndim qn qmax D_source D_detector qmap0
                           items' F_tot ;;
      mret (F_tot', (particle_key, D_particle') :: done)
  end.

(** ** The result dictionary *)

Definition opt_item {A : Type} (key : string) (f : A -> leaf) (v : option A) : dict leaf :=
  match v with
  | Some a => [(key, VLeaf (f a))]
  | None => []
  end.

Definition source_dict (D : DSource) : dict leaf :=
  [("wavelength", VLeaf (LNum (wavelength D)));
   ("pulse_energy", VLeaf (LNum (pulse_energy D)))] ++ source_extra D.

Definition detector_dict (D : DDetector) : dict leaf :=
  [("nx", VLeaf (LInt (nx D))); ("ny", VLeaf (LInt (ny D)));
   ("cx", VLeaf (LNum (cx D))); ("cy", VLeaf (LNum (cy D)));
   ("pixel_size", VLeaf (LNum (pixel_size D)));
   ("distance", VLeaf (LNum (distance D)))] ++ detector_extra D.

Definition particle_dict (D : DParticle) : dict leaf :=
  [("_class_instance", VLeaf (LInstance (_class_instance D)));
   ("extrinsic_quaternion", VLeaf (LQuat (extrinsic_quaternion D)));
   ("position", VLeaf (LVec (position D)))]
  ++ opt_item "diameter" LNum (diameter D)
  ++ opt_item "flattening" LNum (flattening D)
  ++ particle_extra D
  ++ opt_item "intensity" LNum (intensity D)
  ++ opt_item "F0" LNum (F0 D)
  ++ opt_item "map3d_dn" LMap3d (map3d_dn D)
  ++ opt_item "dx" LNum (dx D).

Definition particles_dict (Ds : DParticles) : dict leaf :=
  map (fun kv => (fst kv, VDict (particle_dict (snd kv)))) Ds.

Definition opt_data (d : option Data) : leaf :=
  match d with
  | Some x => LData x
  | None => LNone
  end.

(** ** [_propagate] *)

(** [(x**2).sum()] of a 1-D array *)
Definition sum_squares (xs : list num) : num :=
  match map (fun x => npow x 2) xs with
  | [] => flt 0
  | y :: ys => fold_left nadd ys y
  end.

(** "Qmap without rotation": [qmap0], and [qn], [qmax] as the rest of the
    call uses them *)
Definition unrotated_qmap (ndim : Z) (qn : option Z) (qmax : option num)
    (D_detector : DDetector) (wavelength : num) : M (Qmap * option Z * option num) :=
  if Z.eqb ndim 2 then
    mret (detector_generate_qmap wavelength (cx D_detector) (cy D_detector) None None,
          qn, qmax)
  else
    let qmax := Some (nsqrt (sum_squares (detector_get_q_max wavelength "edge"))) in
    let qn := Some (Z.max (nx D_detector) (ny D_detector)) in
    let qmap0 := detector_generate_qmap_3d wavelength qn qmax None "xyz" in
    if detector_solid_angle_correction
    then log_and_raise_error solid_angle_message
    else mret (qmap0, qn, qmax).

(** "Polarization correction" *)
Definition polarization_factors (ndim : Z) (D_detector : DDetector) : M Arr :=
  if Z.eqb ndim 2 then
    mret (detector_calculate_polarization_factors (cx D_detector) (cy D_detector)
            source_polarization)
  else if negb (String.eqb source_polarization "ignore")
  then log_and_raise_error (polarization_message source_polarization)
  else mret (bc (flt 1)).

(** [abs(F_tot)**2] *)
Definition intensities (F_tot : Arr) : Arr := fun i => npow (nabs (F_tot i)) 2.

(** The binned counterparts are computed in 2-D mode only; [data_2] reads
    them whenever the detector bins. *)
Definition binned_data (ndim : Z) (F_tot : Arr) (I_tot M_tot : Data)
  : M (option (Data * Data * option Data)) :=
  match detector_binning with
  | None => mret None
  | Some binning =>
      if Z.eqb ndim 2 then
        let '(IXxX_tot, _) := detector_bin_photons I_tot M_tot in
        let '(FXxX_tot, MXxX_tot) := downsample F_tot binning M_tot in
        mret (Some (FXxX_tot, IXxX_tot, MXxX_tot))
      else raise (UnboundLocalError "FXxX_tot")
  end.

Definition result_dict (D_source : DSource) (D_particles : DParticles)
    (D_detector : DDetector) (F_tot : Arr) (I_tot M_tot : Data)
    (binned : option (Data * Data * option Data)) : dict leaf :=
  let data_1 : dict leaf :=
    [("data_fourier", VLeaf (LArr F_tot));
     ("data", VLeaf (LData I_tot));
     ("mask", VLeaf (LData M_tot));
     ("full_period_resolution",
      VLeaf (LNum (nmul (flt 2) (detector_get_max_resolution (wavelength D_source)))))] in
  let entry_1 : dict leaf :=
    [("data_1", VDict data_1)]
    ++ match binned with
       | Some (FXxX_tot, IXxX_tot, MXxX_tot) =>
           [("data_2", VDict [("data_fourier", VLeaf (LData FXxX_tot));
                              ("data", VLeaf (LData IXxX_tot));
                              ("mask", VLeaf (opt_data MXxX_tot))])]
       | None => []
       end in
  [("source", VDict (source_dict D_source));
   ("particles", VDict (particles_dict D_particles));
   ("detector", VDict (detector_dict D_detector));
   ("entry_1", VDict entry_1)].

Definition _propagate (save_map3d save_qmap : bool) (ndim : Z)
    (qn : option Z) (qmax : option num) (fuel : nat) : M (dict leaf) :=
  (if negb (Z.eqb ndim 2 || Z.eqb ndim 3)
   then log_and_raise_error (ndim_message ndim)
   else mret tt) ;;;
  log_debug "Start propagation" ;;;
  (* Iterate objects *)
  D_source <- with_world source_get_next ;;
  D_particles <- _get_next_particles fuel ;;
  D_detector <- with_world detector_get_next ;;
  let wavelength := wavelength D_source in
  (* Qmap without rotation *)
  '(qmap0, qn, qmax) <- unrotated_qmap ndim qn qmax D_detector wavelength ;;
  (* Calculate patterns of all single particles individually *)
  '(F_tot, D_particles) <- superimpose save_map3d ndim qn qmax D_source D_detector qmap0
                             D_particles (bc (flt 0)) ;;
  (* Polarization correction *)
  P <- polarization_factors ndim D_detector ;;
  let F_tot := amul (asqrt P) F_tot in
  (* Photon detection *)
  '(I_tot, M_tot) <- with_world (detector_detect_photons (intensities F_tot)) ;;
  binned <- binned_data ndim F_tot I_tot M_tot ;;
  let O := result_dict D_source D_particles D_detector F_tot I_tot M_tot binned in
  lift_outcome (remove_from_dict O "_").

(** [propagate] and [propagate3d] *)
Definition propagate (save_map3d save_qmap : bool) (fuel : nat) : M (dict leaf) :=
  _propagate save_map3d save_qmap 2 None None fuel.

Definition propagate3d (qn : option Z) (qmax : option num) (fuel : nat) : M (dict leaf) :=
  _propagate false false 3 qn qmax fuel.

(** * Properties of the engine *)

(** ** The state monad *)

Lemma mbind_ret {A B : Type} (c : M A) (k : A -> M B) (s s' : state) (a : A) :
  c s = (Ret a, s') -> mbind c k s = k a s'.
Proof. intros H. unfold mbind. rewrite H. reflexivity. Qed.

Lemma mbind_raise {A B : Type} (c : M A) (k : A -> M B) (s s' : state) (e : exn) :
  c s = (Raise e, s') -> mbind c k s = (Raise e, s').
Proof. intros H. unfold mbind. rewrite H. reflexivity. Qed.

Lemma mbind_unfinished {A B : Type} (c : M A) (k : A -> M B) (s s' : state) :
  c s = (Unfinished, s') -> mbind c k s = (Unfinished, s').
Proof. intros H. unfold mbind. rewrite H. reflexivity. Qed.

Lemma state_eta (s : state) :
  {| world := world s; _qmap_cache := _qmap_cache s; logged := logged s |} = s.
Proof. destruct s; reflexivity. Qed.

(** ** The qmap cache *)

(** [calculate] is true exactly when one of the eight compared parameters
    differs from the cached one under Python's [!=]. *)
Lemma params_differ_true_iff (c : QmapCacheEntry)
    (nx ny : Z) (cx cy pixel_size detector_distance wavelength : num) (order : string) :
  params_differ c nx ny cx cy pixel_size detector_distance wavelength order = true <->
  (Z_ne nx (c_nx c) = true \/ Z_ne ny (c_ny c) = true
   \/ nne cx (c_cx c) = true \/ nne cy (c_cy c) = true
   \/ nne pixel_size (c_pixel_size c) = true
   \/ nne detector_distance (c_detector_distance c) = true
   \/ nne wavelength (c_wavelength c) = true
   \/ str_ne order (c_order c) = true).
Proof.
  unfold params_differ. cbv zeta. rewrite !orb_true_iff. simpl.
  split.
  - intros [[[[[[[[H | H] | H] | H] | H] | H] | H] | H] | H];
      [discriminate H | auto 10 ..].
  - intros [H | [H | [H | [H | [H | [H | [H | H]]]]]]]; auto 10.
Qed.

Lemma params_differ_false_iff (c : QmapCacheEntry)
    (nx ny : Z) (cx cy pixel_size detector_distance wavelength : num) (order : string) :
  params_differ c nx ny cx cy pixel_size detector_distance wavelength order = false <->
  (Z_ne nx (c_nx c) = false /\ Z_ne ny (c_ny c) = false
   /\ nne cx (c_cx c) = false /\ nne cy (c_cy c) = false
   /\ nne pixel_size (c_pixel_size c) = false
   /\ nne detector_distance (c_detector_distance c) = false
   /\ nne wavelength (c_wavelength c) = false
   /\ str_ne order (c_order c) = false).
Proof.
  unfold params_differ. cbv zeta. rewrite !orb_false_iff. simpl.
  split.
  - intros [[[[[[[[_ H1] H2] H3] H4] H5] H6] H7] H8]. auto 10.
  - intros (H1 & H2 & H3 & H4 & H5 & H6 & H7 & H8). auto 10.
Qed.

(** the state after a recomputation *)
Definition recomputed (s : state)
    (nx ny : Z) (cx cy pixel_size detector_distance wavelength : num)
    (extrinsic_rotation : option Rotation) (order : string) : state :=
  {| world := world s;
     _qmap_cache := Some (new_cache_entry nx ny cx cy pixel_size detector_distance
                            wavelength extrinsic_rotation order);
     logged := logged s ++ [(DEBUG, "Calculating qmap")] |}.

Lemma get_qmap_hit (s : state) (c : QmapCacheEntry)
    (nx ny : Z) (cx cy pixel_size detector_distance wavelength : num)
    (extrinsic_rotation : option Rotation) (order : string) :
  _qmap_cache s = Some c ->
  get_qmap_calculate (Some c) nx ny cx cy pixel_size detector_distance wavelength
    extrinsic_rotation order s = (Ret false, s) ->
  get_qmap nx ny cx cy pixel_size detector_distance wavelength extrinsic_rotation order s
  = (Ret (c_qmap c), s).
Proof.
  intros Hc Hcalc. unfold get_qmap, mbind, get_cache. rewrite Hc, Hcalc.
  unfold mret. rewrite Hc. reflexivity.
Qed.

Lemma get_qmap_miss (s : state)
    (nx ny : Z) (cx cy pixel_size detector_distance wavelength : num)
    (extrinsic_rotation : option Rotation) (order : string) :
  get_qmap_calculate (_qmap_cache s) nx ny cx cy pixel_size detector_distance wavelength
    extrinsic_rotation order s = (Ret true, s) ->
  get_qmap nx ny cx cy pixel_size detector_distance wavelength extrinsic_rotation order s
  = (Ret (detector_generate_qmap wavelength cx cy extrinsic_rotation (Some order)),
     recomputed s nx ny cx cy pixel_size detector_distance wavelength
       extrinsic_rotation order).
Proof.
  intros Hcalc. unfold get_qmap, mbind, get_cache. rewrite Hcalc.
  reflexivity.
Qed.

(** An empty cache is always filled. *)
Lemma get_qmap_empty_cache (s : state)
    (nx ny : Z) (cx cy pixel_size detector_distance wavelength : num)
    (extrinsic_rotation : option Rotation) (order : string) :
  _qmap_cache s = None ->
  get_qmap nx ny cx cy pixel_size detector_distance wavelength extrinsic_rotation order s
  = (Ret (detector_generate_qmap wavelength cx cy extrinsic_rotation (Some order)),
     recomputed s nx ny cx cy pixel_size detector_distance wavelength
       extrinsic_rotation order).
Proof.
  intros Hc. apply get_qmap_miss. rewrite Hc. reflexivity.
Qed.

(** C1 (as amended). With a non-empty cache: when the eight parameters
    compared by value equal the cached ones and the supplied rotation is
    either absent ([None], the cached rotation is then not looked at) or
    similar to the cached one, the cached field is returned and neither the
    cache nor the log changes; when one of the eight parameters differs, or
    a supplied rotation is not similar to the cached one, the field is
    generated for the supplied parameters, returned, and the cache entry is
    replaced as a whole. A returned cached field is the field of a direct
    recomputation whenever the entry holds the field generated for the
    parameters it records and the call supplies exactly those (rotation
    included). *)
Theorem get_qmap_cache_amended (s : state) (c : QmapCacheEntry)
    (nx ny : Z) (cx cy pixel_size detector_distance wavelength : num)
    (extrinsic_rotation : option Rotation) (order : string) :
  _qmap_cache s = Some c ->
  let unchanged :=
    Z_ne nx (c_nx c) = false /\ Z_ne ny (c_ny c) = false
    /\ nne cx (c_cx c) = false /\ nne cy (c_cy c) = false
    /\ nne pixel_size (c_pixel_size c) = false
    /\ nne detector_distance (c_detector_distance c) = false
    /\ nne wavelength (c_wavelength c) = false
    /\ str_ne order (c_order c) = false in
  let changed :=
    Z_ne nx (c_nx c) = true \/ Z_ne ny (c_ny c) = true
    \/ nne cx (c_cx c) = true \/ nne cy (c_cy c) = true
    \/ nne pixel_size (c_pixel_size c) = true
    \/ nne detector_distance (c_detector_distance c) = true
    \/ nne wavelength (c_wavelength c) = true
    \/ str_ne order (c_order c) = true in
  let call :=
    get_qmap nx ny cx cy pixel_size detector_distance wavelength extrinsic_rotation
      order s in
  let fresh :=
    detector_generate_qmap wavelength cx cy extrinsic_rotation (Some order) in
  (unchanged ->
   (extrinsic_rotation = None
    \/ exists r, extrinsic_rotation = Some r
                 /\ is_similar r (c_extrinsic_rotation c) = Ret true) ->
   call = (Ret (c_qmap c), s))
  /\ (changed
      \/ (exists r, extrinsic_rotation = Some r
                    /\ is_similar r (c_extrinsic_rotation c) = Ret false) ->
      call = (Ret fresh,
              recomputed s nx ny cx cy pixel_size detector_distance wavelength
                extrinsic_rotation order))
  /\ (unchanged ->
      (extrinsic_rotation = None
       \/ exists r, extrinsic_rotation = Some r
                    /\ is_similar r (c_extrinsic_rotation c) = Ret true) ->
      c_qmap c = detector_generate_qmap (c_wavelength c) (c_cx c) (c_cy c)
                   (c_extrinsic_rotation c) (Some (c_order c)) ->
      wavelength = c_wavelength c -> cx = c_cx c -> cy = c_cy c ->
      extrinsic_rotation = c_extrinsic_rotation c -> order = c_order c ->
      call = (Ret fresh, s)).
Proof.
  intros Hc unchanged changed call fresh. subst call fresh.
  assert (Hhit : unchanged ->
                 (extrinsic_rotation = None
                  \/ exists r, extrinsic_rotation = Some r
                               /\ is_similar r (c_extrinsic_rotation c) = Ret true) ->
                 get_qmap nx ny cx cy pixel_size detector_distance wavelength
                   extrinsic_rotation order s = (Ret (c_qmap c), s)).
  { intros Hsame Hrot.
    apply get_qmap_hit; [exact Hc |].
    apply params_differ_false_iff in Hsame.
    unfold get_qmap_calculate. rewrite Hsame.
    destruct Hrot as [-> | (r & -> & Hsim)].
    - reflexivity.
    - unfold mbind, lift_outcome. rewrite Hsim. reflexivity. }
  split; [exact Hhit | split].
  - intros Hdiff.
    apply get_qmap_miss. rewrite Hc. unfold get_qmap_calculate.
    destruct (params_differ c nx ny cx cy pixel_size detector_distance wavelength order)
      eqn:Hp.
    + destruct extrinsic_rotation; reflexivity.
    + destruct Hdiff as [Hch | (r & -> & Hsim)].
      * apply params_differ_true_iff in Hch. congruence.
      * unfold mbind, lift_outcome. rewrite Hsim. reflexivity.
  - intros Hsame Hrot Hvalid Hw Hcx Hcy Hr Ho.
    rewrite (Hhit Hsame Hrot), Hvalid, Hw, Hcx, Hcy, Hr, Ho. reflexivity.
Qed.

(** C8. On an empty cache [get_qmap_from_cache] logs and raises the error
    "Cache empty!"; on a filled cache it returns the cached field and
    leaves the cache and the log as they are (nothing is recomputed). *)
Theorem get_qmap_from_cache_spec (w : World) (lg : list log_record) :
  get_qmap_from_cache {| world := w; _qmap_cache := None; logged := lg |}
  = (Raise (RuntimeError "Cache empty!"),
     {| world := w; _qmap_cache := None; logged := lg ++ [(ERROR, "Cache empty!")] |})
  /\ forall c : QmapCacheEntry,
       get_qmap_from_cache {| world := w; _qmap_cache := Some c; logged := lg |}
       = (Ret (c_qmap c), {| world := w; _qmap_cache := Some c; logged := lg |}).
Proof.
  split.
  - reflexivity.
  - intros c. reflexivity.
Qed.

(** ** Sampling the particles of a shot *)

(** A sampling round only draws from the world: it returns, and leaves the
    cache and the log alone. *)
Lemma with_world_ret {A : Type} (f : World -> A * World) (s : state) :
  with_world f s
  = (Ret (fst (f (world s))),
     {| world := snd (f (world s)); _qmap_cache := _qmap_cache s; logged := logged s |}).
Proof. unfold with_world. destruct (f (world s)); reflexivity. Qed.

Lemma sample_instances_ret (p : Particle) (n i : nat) (D : DParticles) (s : state) :
  exists i' D' w',
    sample_instances p n i D s
    = (Ret (i', D'), {| world := w'; _qmap_cache := _qmap_cache s; logged := logged s |})
    /\ (D <> [] -> D' <> []) /\ (n <> O -> D' <> []).
Proof.
  revert i D s. induction n as [| n IH]; intros i D s.
  - exists i, D, (world s). simpl. unfold mret. rewrite state_eta.
    split; [reflexivity | split; [intros H; exact H | intros H; exfalso; apply H; reflexivity]].
  - cbn [sample_instances]. unfold mbind. rewrite with_world_ret. cbv iota beta.
    set (s1 := {| world := _; _qmap_cache := _; logged := _ |}).
    destruct (IH (S i) (aset D (particle_key i)
                             (fst (particle_get_next p (world s)))) s1)
      as (i' & D' & w' & Heq & Hne & _).
    exists i', D', w'. rewrite Heq. split; [reflexivity |].
    assert (Hset : aset D (particle_key i)
                     (fst (particle_get_next p (world s))) <> []).
    { destruct D as [| [k v] D0]; cbn [aset]; [discriminate |].
      destruct (String.eqb (particle_key i) k); discriminate. }
    split; intros _; apply Hne; exact Hset.
Qed.

Lemma sample_round_ret (ps : list (string * Particle)) (i : nat) (D : DParticles)
    (s : state) :
  exists i' D' w',
    sample_round ps i D s
    = (Ret (i', D'), {| world := w'; _qmap_cache := _qmap_cache s; logged := logged s |}).
Proof.
  revert i D s. induction ps as [| [name p] ps IH]; intros i D s.
  - exists i, D, (world s). simpl. unfold mret. rewrite state_eta. reflexivity.
  - cbn [sample_round]. unfold mbind at 1. rewrite with_world_ret. cbv iota beta.
    set (s1 := {| world := _; _qmap_cache := _; logged := _ |}).
    destruct (sample_instances_ret p
                (Z.to_nat (fst (get_next_number_of_particles p (world s)))) i D s1)
      as (i1 & D1 & w1 & Heq & _).
    unfold mbind. rewrite Heq.
    set (s2 := {| world := w1; _qmap_cache := _; logged := _ |}).
    destruct (IH i1 D1 s2) as (i' & D' & w' & Heq').
    exists i', D', w'. rewrite Heq'. reflexivity.
Qed.

(** The particles one round samples from the state [s], and the state the
    round leaves. *)
Definition round_particles (s : state) : DParticles :=
  match sample_round particles 0 [] s with
  | (Ret (_, D), _) => D
  | _ => []
  end.

Definition round_state (s : state) : state := snd (sample_round particles 0 [] s).

(** the state in which the next round starts after a round that missed *)
Definition after_miss (s : state) : state :=
  snd (log_info miss_message (round_state s)).

(** the state after [k] rounds that all missed *)
Fixpoint after_misses (k : nat) (s : state) : state :=
  match k with
  | O => s
  | S k' => after_misses k' (after_miss s)
  end.

(** the state in which the loop ends when the round from [s] hits *)
Definition after_hit (s : state) : state :=
  snd (log_debug (fmt_i (List.length (round_particles s)) ++ " particles")
         (round_state s)).

Lemma sample_round_eq (s : state) :
  exists i, sample_round particles 0 [] s = (Ret (i, round_particles s), round_state s).
Proof.
  unfold round_particles, round_state.
  destruct (sample_round_ret particles 0 [] s) as (i & D & w & Heq).
  rewrite Heq. exists i. reflexivity.
Qed.

Lemma sampling_loop_nonempty (fuel : nat) (D : DParticles) (s : state) :
  D <> [] -> sampling_loop fuel D s = (Ret D, s).
Proof.
  intros HD. destruct D as [| kv D]; [congruence |].
  destruct fuel; reflexivity.
Qed.

Lemma sampling_loop_hit (fuel : nat) (s : state) :
  round_particles s <> [] ->
  sampling_loop (S fuel) [] s = (Ret (round_particles s), after_hit s).
Proof.
  intros Hne. destruct (sample_round_eq s) as (i & Heq).
  simpl. unfold mbind at 1. rewrite Heq.
  destruct (round_particles s) as [| kv D] eqn:HD; [congruence |].
  unfold after_hit. rewrite HD. simpl List.length. cbv iota beta.
  unfold mbind. simpl Nat.eqb. cbv iota.
  destruct (log_debug _ (round_state s)) as [o s1] eqn:Hlog.
  unfold log_debug, log in Hlog. inversion Hlog; subst. simpl.
  destruct fuel; reflexivity.
Qed.

Lemma sampling_loop_miss (fuel : nat) (s : state) :
  round_particles s = [] ->
  sampling_loop (S fuel) [] s = sampling_loop fuel [] (after_miss s).
Proof.
  intros He. destruct (sample_round_eq s) as (i & Heq).
  simpl. unfold mbind at 1. rewrite Heq, He. simpl.
  unfold mbind, after_miss, log_info, log. simpl. reflexivity.
Qed.

(** The loop never hands back an empty set. *)
Lemma sampling_loop_returns_nonempty (fuel : nat) (D0 D : DParticles) (s s' : state) :
  sampling_loop fuel D0 s = (Ret D, s') -> D <> [].
Proof.
  revert D0 s. induction fuel as [| fuel IH]; intros D0 s H.
  - destruct D0; simpl in H; [discriminate |].
    inversion H; subst; discriminate.
  - destruct D0 as [| kv D0].
    + destruct (round_particles s) as [| kv D1] eqn:HD.
      * rewrite sampling_loop_miss in H by exact HD. eapply IH; exact H.
      * rewrite sampling_loop_hit in H by (rewrite HD; discriminate).
        inversion H; subst. rewrite HD. discriminate.
    + simpl in H. inversion H; subst; discriminate.
Qed.

(** After [k] misses followed by a hit, [k + 1] rounds of fuel are enough,
    and more fuel changes nothing. *)
Lemma sampling_loop_terminates (k : nat) (s : state) :
  (forall j, (j < k)%nat -> round_particles (after_misses j s) = []) ->
  round_particles (after_misses k s) <> [] ->
  forall fuel, (k < fuel)%nat ->
    sampling_loop fuel [] s
    = (Ret (round_particles (after_misses k s)), after_hit (after_misses k s)).
Proof.
  revert s. induction k as [| k IH]; intros s Hmiss Hhit fuel Hfuel.
  - destruct fuel as [| fuel]; [lia |]. simpl after_misses in *.
    apply sampling_loop_hit; exact Hhit.
  - destruct fuel as [| fuel]; [lia |].
    rewrite sampling_loop_miss by (apply (Hmiss O); lia).
    simpl after_misses in *. apply IH.
    + intros j Hj. apply (Hmiss (S j)). lia.
    + exact Hhit.
    + lia.
Qed.

Lemma after_misses_logged (k : nat) (s : state) :
  logged (after_misses k s) = logged s ++ repeat (INFO, miss_message) k
  /\ _qmap_cache (after_misses k s) = _qmap_cache s.
Proof.
  revert s. induction k as [| k IH]; intros s.
  - simpl. rewrite app_nil_r. split; reflexivity.
  - simpl after_misses. destruct (IH (after_miss s)) as [Hl Hc]. rewrite Hl, Hc.
    unfold after_miss, round_state.
    destruct (sample_round_ret particles 0 [] s) as (i & D & w & Heq). rewrite Heq.
    simpl. rewrite <- app_assoc. split; reflexivity.
Qed.

Lemma after_hit_logged (s : state) :
  logged (after_hit s)
  = logged s
    ++ [(DEBUG, (fmt_i (List.length (round_particles s)) ++ " particles")%string)]
  /\ _qmap_cache (after_hit s) = _qmap_cache s.
Proof.
  unfold after_hit, round_state.
  destruct (sample_round_ret particles 0 [] s) as (i & D & w & Heq). rewrite Heq.
  simpl. split; reflexivity.
Qed.

(** The first round that hits, when some round does. *)
Lemma first_hit (s : state) (k : nat) :
  round_particles (after_misses k s) <> [] ->
  exists k0, (k0 <= k)%nat
             /\ (forall j, (j < k0)%nat -> round_particles (after_misses j s) = [])
             /\ round_particles (after_misses k0 s) <> [].
Proof.
  revert s. induction k as [| k IH]; intros s Hhit.
  - exists O. split; [lia | split; [intros j Hj; lia | exact Hhit]].
  - destruct (round_particles s) as [| kv D] eqn:HD.
    + simpl after_misses in Hhit. destruct (IH _ Hhit) as (k0 & Hle & Hmiss & Hk0).
      exists (S k0). split; [lia | split].
      * intros [| j] Hj; [exact HD |]. simpl. apply Hmiss. lia.
      * exact Hk0.
    + exists O. split; [lia | split; [intros j Hj; lia |]].
      simpl. rewrite HD. discriminate.
Qed.

(** C9. [_get_next_particles] never returns an empty set of particles; and
    when some round of the sampling stream yields a particle, the loop
    ends: with enough fuel (and for every larger fuel) it returns the
    particles of the first round that is not empty, no exception is raised,
    each earlier round leaves one "Miss" record in the log and the last one
    the count of its particles, and the cache is not touched. *)
Theorem _get_next_particles_returns_nonempty (s : state) :
  (forall fuel D s', _get_next_particles fuel s = (Ret D, s') -> D <> [])
  /\ ((exists k, round_particles (after_misses k s) <> []) ->
      exists k D s',
        D <> []
        /\ D = round_particles (after_misses k s)
        /\ (forall fuel, (k < fuel)%nat -> _get_next_particles fuel s = (Ret D, s'))
        /\ logged s'
           = logged s ++ repeat (INFO, miss_message) k
               ++ [(DEBUG, (fmt_i (List.length D) ++ " particles")%string)]
        /\ _qmap_cache s' = _qmap_cache s).
Proof.
  split.
  - intros fuel D s' H. unfold _get_next_particles in H.
    eapply sampling_loop_returns_nonempty; exact H.
  - intros (k & Hk). destruct (first_hit s k Hk) as (k0 & _ & Hmiss & Hhit).
    exists k0, (round_particles (after_misses k0 s)), (after_hit (after_misses k0 s)).
    split; [exact Hhit | split; [reflexivity | split; [| split]]].
    + intros fuel Hfuel. unfold _get_next_particles.
      apply sampling_loop_terminates; assumption.
    + destruct (after_hit_logged (after_misses k0 s)) as [Hl _].
      destruct (after_misses_logged k0 s) as [Hl' _].
      rewrite Hl, Hl', <- app_assoc. reflexivity.
    + destruct (after_hit_logged (after_misses k0 s)) as [_ Hc].
      destruct (after_misses_logged k0 s) as [_ Hc'].
      rewrite Hc, Hc'. reflexivity.
Qed.

(** ** The sphere kernel *)

(** The amplitude of a sphere in the words of the specification: the
    analytic form factor at (K, q, R) times the square root of the solid
    angle of each pixel, with R half the diameter, q the Euclidean norm of
    the scattering vector, K = (F0 V dn)^2, V = 4/3 pi R^3 and
    F0 = sqrt(incident fluence) 2 pi / wavelength^2. *)
Definition sphere_amplitude_spec (incident_fluence wavelength dn diameter : num)
    (scattering_vectors : Qmap) (solid_angle : Arr) : Arr :=
  let R := ndiv diameter (flt 2) in
  let q : Arr :=
    fun i =>
      let k := scattering_vectors i in
      nsqrt (nadd (nadd (npow (c0 k) 2) (npow (c1 k) 2)) (npow (c2 k) 2)) in
  let F0 := ndiv (nmul (nmul (nsqrt incident_fluence) (flt 2)) npi) (npow wavelength 2) in
  let V := nmul (nmul (ndiv (flt 4) (flt 3)) npi) (npow R 3) in
  let K := npow (nmul (nmul F0 V) dn) 2 in
  fun i => nmul (F_sphere_diffraction K q R i) (nsqrt (solid_angle i)).

(** the dictionary of a particle after [_propagate] has recorded the
    intensity at its position and the primary wave amplitude *)
Definition annotated (D_source : DSource) (D_particle : DParticle) : DParticle :=
  let I_0 :=
    source_get_intensity (position D_particle) "ph/m2" (pulse_energy D_source) in
  set_F0 (set_intensity D_particle I_0)
    (primary_wave_amplitude I_0 (wavelength D_source)).

(** C3. For a sphere particle the amplitude [_propagate] computes is the
    sphere form factor of the specification, evaluated on the scattering
    vectors the sphere branch uses (in 2-D mode the field [get_qmap] returns
    for no rotation and order "xyz", in 3-D mode the unrotated field) with
    the fluence at the particle's position and the decrement at the shot's
    wavelength. The solid angle of a pixel is the one the detector gives
    for the pixel ([get_all_pixel_solid_angles(cx, cy)]) when its solid
    angle correction is on, and [pixel_size**2 / detector_distance**2], the
    same for every pixel, when it is off. *)
Theorem sphere_amplitude_is_form_factor
    (save_map3d : bool) (ndim : Z) (qn : option Z) (qmax : option num)
    (D_source : DSource) (D_detector : DDetector) (qmap0 : Qmap)
    (D_particle : DParticle) (d : num) (qmap : Qmap) (s s' : state) :
  class_of (_class_instance D_particle) = ParticleSphere ->
  diameter D_particle = Some d ->
  (if Z.eqb ndim 2 then cached_qmap D_detector (wavelength D_source) None "xyz"
   else mret qmap0) s = (Ret qmap, s') ->
  particle_amplitude save_map3d ndim qn qmax D_source D_detector qmap0 D_particle s
  = (Ret (sphere_amplitude_spec
            (source_get_intensity (position D_particle) "ph/m2" (pulse_energy D_source))
            (wavelength D_source)
            (get_dn (_class_instance D_particle) (wavelength D_source))
            d qmap
            (fun i =>
               if detector_solid_angle_correction
               then detector_get_all_pixel_solid_angles (cx D_detector) (cy D_detector) i
               else ndiv (npow (pixel_size D_detector) 2) (npow (distance D_detector) 2)),
          qmap, annotated D_source D_particle),
     s').
Proof.
  intros Hclass Hd Hq.
  unfold particle_amplitude. cbv zeta.
  change (_class_instance (set_F0 _ _)) with (_class_instance D_particle).
  rewrite Hclass.
  unfold sphere_kernel. cbv zeta.
  unfold mbind. rewrite Hq.
  change (diameter (set_F0 _ _)) with (diameter D_particle).
  rewrite Hd. unfold solid_angles, sphere_amplitude_spec. cbv zeta.
  destruct detector_solid_angle_correction; reflexivity.
Qed.

(** ** The map kernel *)

Lemma any_invalid_false (mask : Idx -> bool * bool * bool) (i : Idx) :
  any_invalid mask = false -> In i elements -> row_any (mask i) = false.
Proof.
  intros Hany Hin. unfold any_invalid in Hany.
  destruct (row_any (mask i)) eqn:Hrow; [| reflexivity].
  assert (existsb (fun i => row_any (mask i)) elements = true) as Habs
      by (apply existsb_exists; exists i; split; assumption).
  congruence.
Qed.

Lemma row_any_false (m0 m1 m2 : bool) :
  row_any (m0, m1, m2) = false -> m0 = false /\ m1 = false /\ m2 = false.
Proof.
  destruct m0, m1, m2; simpl; intros H; try discriminate H; repeat split; reflexivity.
Qed.

(** The input check returns, and only adds to the log. *)
Lemma check_inputs_ret (qmap_shaped : Qmap) (s : state) :
  exists lg,
    check_inputs qmap_shaped s
    = (Ret (if any_invalid (invalid_mask qmap_shaped)
            then zero_invalid qmap_shaped (invalid_mask qmap_shaped)
            else qmap_shaped),
       {| world := world s; _qmap_cache := _qmap_cache s; logged := logged s ++ lg |}).
Proof.
  unfold check_inputs. cbv zeta.
  destruct (any_invalid (invalid_mask qmap_shaped)).
  - eexists. unfold mbind, log_warning, log, mret. reflexivity.
  - exists []. unfold mret. rewrite app_nil_r, state_eta. reflexivity.
Qed.

Lemma log_ret (lvl : level) (msg : string) (s : state) :
  log lvl msg s
  = (Ret tt, {| world := world s; _qmap_cache := _qmap_cache s;
                logged := logged s ++ [(lvl, msg)] |}).
Proof. reflexivity. Qed.

Lemma optional_warning_ret (b : bool) (msg : string) (s : state) :
  exists lg,
    (if b then log_warning msg else mret tt) s
    = (Ret tt, {| world := world s; _qmap_cache := _qmap_cache s;
                  logged := logged s ++ lg |}).
Proof.
  destruct b.
  - exists [(WARNING, msg)]. reflexivity.
  - exists []. unfold mret. rewrite app_nil_r, state_eta. reflexivity.
Qed.

(** The transform step of the map kernel always produces a full array. *)
Lemma map_fourier_pattern_ret (map3d_dn : Map3d) (dx : num) (qmap : Qmap) (s : state) :
  let qmap_shaped := rescale dx qmap in
  let mask := invalid_mask qmap_shaped in
  let samples := if any_invalid mask then zero_invalid qmap_shaped mask
                 else qmap_shaped in
  exists lg,
    map_fourier_pattern map3d_dn dx qmap s
    = (Ret (mask_output (nfft map3d_dn samples) mask),
       {| world := world s; _qmap_cache := _qmap_cache s; logged := logged s ++ lg |}).
Proof.
  intros qmap_shaped mask samples.
  unfold map_fourier_pattern. cbv zeta.
  destruct (check_inputs_ret (rescale dx qmap) s) as (lg1 & H1).
  rewrite (mbind_ret _ _ _ H1). fold qmap_shaped mask samples.
  set (s1 := {| world := world s; _qmap_cache := _; logged := _ |}).
  unfold mbind at 1. unfold log_debug at 1. rewrite log_ret. cbv iota beta.
  set (s2 := {| world := world s1; _qmap_cache := _; logged := _ |}).
  destruct (optional_warning_ret
              (has_nonfinite (map nabs (map3d_values map3d_dn)))
              "There are infinite values in the dn map of the object." s2)
    as (lg3 & H3).
  rewrite (mbind_ret _ _ _ H3).
  set (s3 := {| world := world s2; _qmap_cache := _; logged := _ |}).
  unfold mbind at 1. unfold log_debug at 1. rewrite log_ret. cbv iota beta.
  set (s4 := {| world := world s3; _qmap_cache := _; logged := _ |}).
  destruct (optional_warning_ret
              (existsb (fun i => has_nonfinite
                          [c0 (samples i); c1 (samples i); c2 (samples i)]) elements)
              "There are infinite values in the scattering vectors." s4)
    as (lg5 & H5).
  rewrite (mbind_ret _ _ _ H5).
  set (s5 := {| world := world s4; _qmap_cache := _; logged := _ |}).
  unfold mbind, log_debug. rewrite log_ret. unfold mret.
  eexists. f_equal. subst s5 s4 s3 s2 s1. simpl.
  rewrite <- !app_assoc. reflexivity.
Qed.

(** C4 (as amended). In the map kernel every out-of-range component of a
    rescaled sample (a component [x] for which [x >= -0.5 and x < 0.5] does
    not hold) is set to zero before the transform is applied, the other
    components of the sample being kept; after the transform the output
    element of every sample with such a component is NaN, every other output
    element is the transform's, and the step always yields a full array. *)
Theorem map_kernel_invalid_samples_amended
    (map3d_dn : Map3d) (dx : num) (qmap : Qmap) (s : state) :
  let qmap_shaped := rescale dx qmap in
  exists (samples : Qmap) (fourier_pattern : Arr) (s1 s2 : state),
    check_inputs qmap_shaped s = (Ret samples, s1)
    /\ map_fourier_pattern map3d_dn dx qmap s = (Ret fourier_pattern, s2)
    /\ forall i, In i elements ->
         let x := qmap_shaped i in
         samples i = ((if invalid (c0 x) then flt 0 else c0 x),
                      (if invalid (c1 x) then flt 0 else c1 x),
                      (if invalid (c2 x) then flt 0 else c2 x))
         /\ fourier_pattern i
            = (if invalid (c0 x) || invalid (c1 x) || invalid (c2 x) then nan
               else nfft map3d_dn samples i).
Proof.
  intros qmap_shaped.
  destruct (check_inputs_ret qmap_shaped s) as (lg1 & H1).
  destruct (map_fourier_pattern_ret map3d_dn dx qmap s) as (lg2 & H2).
  cbv zeta in H2. fold qmap_shaped in H2.
  do 4 eexists. split; [exact H1 | split; [exact H2 |]].
  intros i Hin x. subst x.
  unfold mask_output.
  destruct (any_invalid (invalid_mask qmap_shaped)) eqn:Hany.
  - split; reflexivity.
  - pose proof (any_invalid_false _ i Hany Hin) as Hrow.
    unfold invalid_mask, v3map in Hrow.
    destruct (row_any_false _ _ _ Hrow) as (H0 & H1' & H2').
    rewrite H0, H1', H2'. split; [| reflexivity].
    unfold c0, c1, c2. destruct (qmap_shaped i) as [[a b] c]. reflexivity.
Qed.

(** ** Phase shift and superposition *)

Lemma set_map3d_position (D : DParticle) (m : Map3d) (x : num) :
  position (set_map3d D m x) = position D.
Proof. reflexivity. Qed.

(** No kernel moves the particle. *)
Lemma particle_amplitude_position
    (save_map3d : bool) (ndim : Z) (qn : option Z) (qmax : option num)
    (D_source : DSource) (D_detector : DDetector) (qmap0 : Qmap)
    (D_particle D_particle' : DParticle) (F : Arr) (qmap : Qmap) (s s' : state) :
  particle_amplitude save_map3d ndim qn qmax D_source D_detector qmap0 D_particle s
  = (Ret (F, qmap, D_particle'), s') ->
  position D_particle' = position D_particle.
Proof.
  unfold particle_amplitude. cbv zeta.
  change (_class_instance (set_F0 _ _)) with (_class_instance D_particle).
  destruct (class_of (_class_instance D_particle)).
  - unfold mbind. destruct (sphere_kernel _ _ _ _ _ _ _ _ s) as [[[F1 q1] | e |] s1];
      intros H; inversion H; subst; reflexivity.
  - unfold mbind. destruct (spheroid_kernel _ _ _ _ _ _ _ _ s) as [[[F1 q1] | e |] s1];
      intros H; inversion H; subst; reflexivity.
  - unfold map_kernel. cbv zeta. unfold mbind at 1.
    match goal with |- context [(if Z.eqb ndim 2 then ?a else ?b) s] =>
      destruct ((if Z.eqb ndim 2 then a else b) s) as [[q1 | e |] s1] end;
      try (intros H; discriminate H).
    destruct (get_new_dn_map _ _ _ _ _) as [m x].
    unfold mbind at 1. unfold log_debug at 1. rewrite log_ret. cbv iota beta.
    unfold mbind.
    match goal with |- context [map_fourier_pattern ?a ?b ?c ?d] =>
      destruct (map_fourier_pattern a b c d) as [[fp | e |] s2] end;
      intros H; inversion H; subst.
    destruct save_map3d; reflexivity.
  - unfold mbind. destruct (atoms_kernel _ _ _ _ _ _ _ s) as [[[F1 q1] | e |] s1];
      intros H; inversion H; subst; reflexivity.
  - unfold log_and_raise_error. intros H; discriminate H.
Qed.

(** C5 (as amended). The amplitude a kernel returns for a particle is
    multiplied element by element by exp(-i (v0 q0 + v1 q1 + v2 q2)), taken
    on the unrotated field [qmap0] and not on the field of the kernel,
    before it is added to the running total, whenever the position [v] of
    the particle is not within [numpy.allclose]'s tolerance of zero (some
    component fails |x - 0| <= 1e-12 + 1e-5 |0|); when every component is
    within the tolerance, a zero offset in particular, the amplitude is
    added as the kernel returned it. *)
Theorem phase_shift_amended
    (save_map3d : bool) (ndim : Z) (qn : option Z) (qmax : option num)
    (D_source : DSource) (D_detector : DDetector) (qmap0 : Qmap)
    (particle_key : string) (D_particle D_particle' : DParticle) (items : DParticles)
    (F_tot F : Arr) (qmap : Qmap) (s s' : state) :
  particle_amplitude save_map3d ndim qn qmax D_source D_detector qmap0 D_particle s
  = (Ret (F, qmap, D_particle'), s') ->
  let v := position D_particle in
  let shifted := phase_shift v F qmap0 in
  superimpose save_map3d ndim qn qmax D_source D_detector qmap0
    ((particle_key, D_particle) :: items) F_tot s
  = ('(F_tot', done) <- superimpose save_map3d ndim qn qmax D_source D_detector qmap0
                          items (aadd F_tot shifted) ;;
     mret (F_tot', (particle_key, D_particle') :: done)) s'
  /\ (allclose_zero v = false ->
      forall i,
        shifted i
        = nmul (F i)
            (nexp (nmul (nneg cj)
                     (nadd (nadd (nmul (c0 v) (c0 (qmap0 i)))
                                 (nmul (c1 v) (c1 (qmap0 i))))
                           (nmul (c2 v) (c2 (qmap0 i)))))))
  /\ (allclose_zero v = true -> shifted = F).
Proof.
  intros Hamp v shifted. subst v shifted.
  pose proof (particle_amplitude_position _ _ _ _ _ _ _ _ _ Hamp) as Hpos.
  split; [| split].
  - cbn [superimpose]. unfold particle_field.
    unfold mbind at 1. unfold mbind at 1. rewrite Hamp. cbv iota beta.
    unfold mret at 1. cbv iota beta. rewrite Hpos. reflexivity.
  - intros Hfar i. unfold phase_shift. rewrite Hfar. reflexivity.
  - intros Hnear. unfold phase_shift. rewrite Hnear. reflexivity.
Qed.

(** The fields the particles of a shot add to the total, in the order of
    the loop. *)
Fixpoint particle_fields (save_map3d : bool) (ndim : Z)
    (qn : option Z) (qmax : option num)
    (D_source : DSource) (D_detector : DDetector) (qmap0 : Qmap)
    (items : DParticles) : M (list Arr * DParticles) :=
  match items with
  | [] => mret ([], [])
  | (particle_key, D_particle) :: items' =>
      '(F, D_particle') <- particle_field save_map3d ndim qn qmax D_source D_detector
                             qmap0 D_particle ;;
      '(Fs, done) <- particle_fields save_map3d ndim qn qmax D_source D_detector qmap0
                       items' ;;
      mret (F :: Fs, (particle_key, D_particle') :: done)
  end.

(** the running total after the fields [Fs] have been added to [F_tot] *)
Definition accumulate (F_tot : Arr) (Fs : list Arr) : Arr := fold_left aadd Fs F_tot.

Lemma superimpose_accumulates
    (save_map3d : bool) (ndim : Z) (qn : option Z) (qmax : option num)
    (D_source : DSource) (D_detector : DDetector) (qmap0 : Qmap)
    (items : DParticles) (F_tot : Arr) (s : state) :
  superimpose save_map3d ndim qn qmax D_source D_detector qmap0 items F_tot s
  = match particle_fields save_map3d ndim qn qmax D_source D_detector qmap0 items s with
    | (Ret (Fs, done), s') => (Ret (accumulate F_tot Fs, done), s')
    | (Raise e, s') => (Raise e, s')
    | (Unfinished, s') => (Unfinished, s')
    end.
Proof.
  revert F_tot s. induction items as [| [key D] items IH]; intros F_tot s.
  - reflexivity.
  - cbn [superimpose particle_fields]. unfold mbind at 1 3.
    destruct (particle_field _ _ _ _ _ _ _ D s) as [[[F D'] | e |] s1]; try reflexivity.
    unfold mbind. rewrite IH.
    destruct (particle_fields _ _ _ _ _ _ _ items s1) as [[[Fs done] | e |] s2];
      reflexivity.
Qed.

(** the value of the running total at one element *)
Lemma accumulate_at (Fs : list Arr) (F_tot : Arr) (i : Idx) :
  accumulate F_tot Fs i = fold_left nadd (map (fun F : Arr => F i) Fs) (F_tot i).
Proof.
  revert F_tot. induction Fs as [| F Fs IH]; intros F_tot; [reflexivity |].
  cbn [accumulate fold_left map]. apply (IH (aadd F_tot F)).
Qed.

(** Where the addition of scalars is commutative and associative, a sum
    taken from left to right does not depend on the order of its terms. *)
Lemma sum_permutation (xs ys : list num) :
  (forall a b : num, nadd a b = nadd b a) ->
  (forall a b c : num, nadd a (nadd b c) = nadd (nadd a b) c) ->
  Permutation xs ys ->
  forall x, fold_left nadd xs x = fold_left nadd ys x.
Proof.
  intros Hcomm Hassoc Hperm.
  induction Hperm as [| y xs ys _ IH | a b xs | xs ys zs _ IH1 _ IH2]; intros x.
  - reflexivity.
  - cbn [fold_left]. apply IH.
  - cbn [fold_left]. f_equal. rewrite <- !Hassoc. f_equal. apply Hcomm.
  - rewrite IH1. apply IH2.
Qed.

(** C6. The total amplitude is the sum, element by element, of the fields
    of the particles: when the particles of a shot yield the fields [Fs],
    in the order of the loop, the loop of [_propagate] returns a total whose
    value at every element [i] is the start value (0) plus the values the
    fields have at [i], added one after the other with the addition of
    scalars (amplitudes are added, intensities are taken of the total
    only); this holds for every addition of scalars. Where the addition
    is commutative and associative (exact arithmetic), this total is the
    sum of the fields taken in any order; and the loop run over the
    particles in another order, in which they yield the same fields,
    returns the same total at every element, in particular for A then B
    against B then A. *)
Theorem coherent_superposition
    (save_map3d : bool) (ndim : Z) (qn : option Z) (qmax : option num)
    (D_source : DSource) (D_detector : DDetector) (qmap0 : Qmap)
    (items : DParticles) (F_tot : Arr) (s s' : state)
    (Fs : list Arr) (done : DParticles) :
  particle_fields save_map3d ndim qn qmax D_source D_detector qmap0 items s
  = (Ret (Fs, done), s') ->
  exists total : Arr,
    superimpose save_map3d ndim qn qmax D_source D_detector qmap0 items F_tot s
    = (Ret (total, done), s')
    /\ (forall i, total i = fold_left nadd (map (fun F : Arr => F i) Fs) (F_tot i))
    /\ ((forall a b : num, nadd a b = nadd b a) ->
        (forall a b c : num, nadd a (nadd b c) = nadd (nadd a b) c) ->
        (forall Fs' : list Arr,
            Permutation Fs Fs' ->
            forall i, total i = fold_left nadd (map (fun F : Arr => F i) Fs') (F_tot i))
        /\ (forall (items' : DParticles) (t t' : state) (Fs' : list Arr)
                   (done' : DParticles) (total' : Arr),
              particle_fields save_map3d ndim qn qmax D_source D_detector qmap0 items' t
              = (Ret (Fs', done'), t') ->
              Permutation Fs Fs' ->
              superimpose save_map3d ndim qn qmax D_source D_detector qmap0 items' F_tot t
              = (Ret (total', done'), t') ->
              forall i, total' i = total i)).
Proof.
  intros Hfields.
  exists (accumulate F_tot Fs).
  split; [| split].
  - rewrite superimpose_accumulates, Hfields. reflexivity.
  - intros i. apply accumulate_at.
  - intros Hcomm Hassoc.
    assert (Hany : forall Fs' : list Arr,
               Permutation Fs Fs' ->
               forall i, accumulate F_tot Fs i
                         = fold_left nadd (map (fun F : Arr => F i) Fs') (F_tot i)).
    { intros Fs' Hperm i. rewrite accumulate_at.
      apply (sum_permutation Hcomm Hassoc).
      apply Permutation_map. exact Hperm. }
    split; [exact Hany |].
    intros items' t t' Fs' done' total' Hfields' Hperm Hloop i.
    rewrite superimpose_accumulates, Hfields' in Hloop.
    inversion Hloop as [Htotal]. rewrite (Hany Fs' Hperm i). apply accumulate_at.
Qed.

(** ** The unsupported configurations of the 3-D mode *)

(** the messages of the errors a 3-D propagation can end in *)
Definition propagation_messages : list string :=
  [solid_angle_message; spheroid_message; polarization_message source_polarization;
   spsim_message; no_valid_particles_message].

(** The call raised the exception of [log_and_raise_error] with one of
    these messages, and the message is in the log. *)
Definition configuration_error {A : Type} (r : outcome A * state) : Prop :=
  exists msg,
    fst r = Raise (RuntimeError msg)
    /\ In msg propagation_messages
    /\ In (ERROR, msg) (logged (snd r)).

Definition aborts {A : Type} (r : outcome A * state) : Prop :=
  exists e, fst r = Raise e.

Definition returns {A : Type} (r : outcome A * state) : Prop :=
  exists a, fst r = Ret a.

(** a sphere's dictionary holds its diameter *)
Definition has_items (D : DParticle) : Prop :=
  class_of (_class_instance D) = ParticleSphere -> diameter D <> None.

Lemma log_and_raise_error_configuration {A : Type} (msg : string) (s : state) :
  In msg propagation_messages ->
  configuration_error (@log_and_raise_error A msg s).
Proof.
  intros Hin. exists msg. simpl. split; [reflexivity | split; [exact Hin |]].
  apply in_or_app. right. left. reflexivity.
Qed.

Lemma configuration_error_aborts {A : Type} (r : outcome A * state) :
  configuration_error r -> aborts r.
Proof. intros (msg & H & _). exists (RuntimeError msg). exact H. Qed.

Lemma configuration_error_bind {A B : Type} (c : M A) (k : A -> M B) (s : state) :
  configuration_error (c s) -> configuration_error (mbind c k s).
Proof.
  intros (msg & H1 & H2 & H3). unfold mbind.
  destruct (c s) as [o s1]. simpl in H1. subst o.
  exists msg. simpl. auto.
Qed.

Lemma aborts_bind {A B : Type} (c : M A) (k : A -> M B) (s : state) :
  aborts (c s) -> aborts (mbind c k s).
Proof.
  intros (e & H1). unfold mbind.
  destruct (c s) as [o s1]. simpl in H1. subst o. exists e. reflexivity.
Qed.

(** What the body of the loop does with one particle in 3-D mode: a
    spheroid ends the call with the configuration error; any other particle
    either yields its amplitude or raises. *)
Lemma particle_amplitude_3d
    (save_map3d : bool) (qn : option Z) (qmax : option num)
    (D_source : DSource) (D_detector : DDetector) (qmap0 : Qmap)
    (D_particle : DParticle) (s : state) :
  let r := particle_amplitude save_map3d 3 qn qmax D_source D_detector qmap0
             D_particle s in
  (class_of (_class_instance D_particle) = ParticleSpheroid -> configuration_error r)
  /\ (returns r
      \/ (aborts r
          /\ (spsim_importable = true -> has_items D_particle ->
              configuration_error r))).
Proof.
  intros r. subst r. unfold particle_amplitude, has_items. cbv zeta.
  change (_class_instance (set_F0 _ _)) with (_class_instance D_particle).
  destruct (class_of (_class_instance D_particle)) eqn:Hclass.
  - (* sphere *)
    split; [discriminate |].
    unfold sphere_kernel. change (Z.eqb 3 2) with false. cbv zeta iota.
    change (diameter (set_F0 _ _)) with (diameter D_particle).
    destruct (diameter D_particle) as [d |].
    + left. eexists. reflexivity.
    + right. split; [eexists; reflexivity |].
      intros _ Hd. exfalso. apply Hd; reflexivity.
  - (* spheroid *)
    assert (Herr : configuration_error
              (mbind (spheroid_kernel 3 (_class_instance D_particle)
                        (annotated D_source D_particle) D_detector
                        (wavelength D_source)
                        (primary_wave_amplitude
                           (source_get_intensity (position D_particle) "ph/m2"
                              (pulse_energy D_source)) (wavelength D_source))
                        (solid_angles D_detector)
                        (Rotation_quaternion (extrinsic_quaternion D_particle)))
                     (fun x : Arr * Qmap =>
                        let '(F, qmap) := x in
                        mret (F, qmap, annotated D_source D_particle)) s)).
    { apply configuration_error_bind. unfold spheroid_kernel.
      change (Z.eqb 3 3) with true. cbv iota.
      apply log_and_raise_error_configuration. simpl. auto. }
    split; [intros _; exact Herr |].
    right. split; [apply configuration_error_aborts; exact Herr |].
    intros _ _. exact Herr.
  - (* map *)
    split; [discriminate |]. left.
    unfold map_kernel. change (Z.eqb 3 2) with false. cbv zeta iota.
    unfold mbind at 1. unfold mret at 1. cbv iota beta.
    destruct (get_new_dn_map _ _ _ _ _) as [m x].
    unfold mbind at 1. unfold log_debug at 1. rewrite log_ret. cbv iota beta.
    match goal with |- context [map_fourier_pattern ?a ?b ?c] =>
      match goal with |- context [mbind (map_fourier_pattern a b c) ?k ?s0] =>
        destruct (map_fourier_pattern_ret a b c s0) as (lg & Hfp);
        cbv zeta in Hfp; rewrite (mbind_ret _ _ _ Hfp)
      end
    end.
    eexists. reflexivity.
  - (* atoms *)
    split; [discriminate |].
    unfold atoms_kernel.
    destruct spsim_importable; cbn [negb].
    + destruct (match spsim_version with
                | Some v => StrictVersion_lt v spsim_version_min
                | None => true
                end).
      * right.
        assert (Herr : forall (B : Type) (k : Arr * Qmap -> M B),
                   configuration_error
                     (mbind (log_and_raise_error spsim_message) k s)).
        { intros B k. apply configuration_error_bind.
          apply log_and_raise_error_configuration. simpl. auto. }
        split; [apply configuration_error_aborts; apply Herr |].
        intros _ _. apply Herr.
      * left. eexists. reflexivity.
    + right. split; [eexists; reflexivity |]. intros Himp. discriminate Himp.
  - (* any other class *)
    split; [discriminate |]. right.
    assert (Herr : configuration_error
              (@log_and_raise_error (Arr * Qmap * DParticle)
                 no_valid_particles_message s)).
    { apply log_and_raise_error_configuration. simpl. auto 6. }
    split; [apply configuration_error_aborts; exact Herr |].
    intros _ _. exact Herr.
Qed.

Lemma particle_field_ret
    (save_map3d : bool) (ndim : Z) (qn : option Z) (qmax : option num)
    (D_source : DSource) (D_detector : DDetector) (qmap0 : Qmap)
    (D_particle D_particle' : DParticle) (F : Arr) (qmap : Qmap) (s s' : state) :
  particle_amplitude save_map3d ndim qn qmax D_source D_detector qmap0 D_particle s
  = (Ret (F, qmap, D_particle'), s') ->
  particle_field save_map3d ndim qn qmax D_source D_detector qmap0 D_particle s
  = (Ret (phase_shift (position D_particle') F qmap0, D_particle'), s').
Proof.
  intros Hamp. unfold particle_field. rewrite (mbind_ret _ _ _ Hamp). reflexivity.
Qed.

Definition is_spheroid (item : string * DParticle) : Prop :=
  class_of (_class_instance (snd item)) = ParticleSpheroid.

(** The loop over the particles in 3-D mode: it raises as soon as it meets
    a spheroid, and it never stays unfinished. *)
Lemma superimpose_3d
    (save_map3d : bool) (qn : option Z) (qmax : option num)
    (D_source : DSource) (D_detector : DDetector) (qmap0 : Qmap)
    (items : DParticles) (F_tot : Arr) (s : state) :
  let r := superimpose save_map3d 3 qn qmax D_source D_detector qmap0 items F_tot s in
  (returns r /\ ~ Exists is_spheroid items)
  \/ (aborts r
      /\ (spsim_importable = true -> Forall (fun item => has_items (snd item)) items ->
          configuration_error r)).
Proof.
  revert F_tot s. induction items as [| [key D] items IH]; intros F_tot s r; subst r.
  - left. split; [eexists; reflexivity |]. intros H. inversion H.
  - cbn [superimpose].
    destruct (particle_amplitude_3d save_map3d qn qmax D_source D_detector qmap0 D s)
      as [Hsph Hcases]. cbv zeta in Hsph, Hcases.
    destruct Hcases as [(x & Hret) | (Habort & Hconf)].
    + destruct (particle_amplitude save_map3d 3 qn qmax D_source D_detector qmap0 D s)
        as [o s1] eqn:Hamp.
      simpl in Hret. subst o. destruct x as [[F qmap] D'].
      rewrite (mbind_ret _ _ _ (particle_field_ret _ _ _ _ _ _ _ _ _ Hamp)).
      specialize (IH (aadd F_tot (phase_shift (position D') F qmap0)) s1).
      cbv zeta in IH.
      destruct IH as [[(y & Hy) Hnone] | (Habort & Hconf)].
      * left. split.
        -- unfold mbind.
           destruct (superimpose _ _ _ _ _ _ _ items _ s1) as [o2 s2].
           simpl in Hy. subst o2. destruct y as [F' done]. eexists. reflexivity.
        -- intros Hex. inversion Hex as [? ? Hhead | ? ? Htail]; subst.
           ++ unfold is_spheroid in Hhead. simpl in Hhead.
              destruct (Hsph Hhead) as (msg & Hmsg & _). discriminate Hmsg.
           ++ exact (Hnone Htail).
      * right. split.
        -- apply aborts_bind. exact Habort.
        -- intros Himp Hall. apply configuration_error_bind.
           apply Hconf; [exact Himp |]. inversion Hall; assumption.
    + right. unfold particle_field. split.
      * apply aborts_bind. apply aborts_bind. exact Habort.
      * intros Himp Hall. apply configuration_error_bind.
        apply configuration_error_bind. apply Hconf; [exact Himp |].
        inversion Hall; assumption.
Qed.

(** the state in which [_propagate] samples the particles, and the source
    state of the shot *)
Definition started (s : state) : state :=
  snd (with_world source_get_next (snd (log_debug "Start propagation" s))).

Definition shot_source (s : state) : DSource := fst (source_get_next (world s)).

(** [_propagate] in 3-D mode, once the particles are sampled. *)
Lemma _propagate_3d_unfold
    (save_map3d save_qmap : bool) (qn : option Z) (qmax : option num)
    (fuel : nat) (s s2 : state) (D_particles : DParticles) :
  _get_next_particles fuel (started s) = (Ret D_particles, s2) ->
  _propagate save_map3d save_qmap 3 qn qmax fuel s
  = (D_detector <- with_world detector_get_next ;;
     '(qmap0, qn, qmax) <- unrotated_qmap 3 qn qmax D_detector
                             (wavelength (shot_source s)) ;;
     '(F_tot, D_particles) <- superimpose save_map3d 3 qn qmax (shot_source s)
                                D_detector qmap0 D_particles (bc (flt 0)) ;;
     P <- polarization_factors 3 D_detector ;;
     let F_tot := amul (asqrt P) F_tot in
     '(I_tot, M_tot) <- with_world (detector_detect_photons (intensities F_tot)) ;;
     binned <- binned_data 3 F_tot I_tot M_tot ;;
     let O := result_dict (shot_source s) D_particles D_detector F_tot I_tot M_tot
                binned in
     lift_outcome (remove_from_dict O "_")) s2.
Proof.
  intros Hsample. unfold _propagate.
  change (Z.eqb 3 2) with false. change (Z.eqb 3 3) with true. cbn [orb negb].
  unfold mbind at 1. unfold mret at 1. cbv iota beta.
  unfold mbind at 1. unfold log_debug at 1. rewrite log_ret. cbv iota beta.
  unfold mbind at 1. rewrite with_world_ret. cbv iota beta.
  unfold started in Hsample. unfold log_debug in Hsample.
  rewrite log_ret, with_world_ret in Hsample. cbn [snd fst world _qmap_cache logged] in *.
  unfold mbind at 1. rewrite Hsample. reflexivity.
Qed.

(** C2. A propagation in 3-D mode whose particles have been sampled raises
    in each of the three unsupported configurations: the detector's
    [solid_angle_correction] is set, a sampled particle is a spheroid, or
    the polarization of the source is not "ignore". No result is returned.
    With the solid angle correction set the exception is the one for that
    configuration; in general the exception is a configuration error,
    logged and raised by [log_and_raise_error], whenever spsim can be
    imported and the dictionary of every sampled sphere holds its diameter
    (otherwise the exception of that earlier failure is the one raised). *)
Theorem propagate_3d_unsupported_configurations
    (save_map3d save_qmap : bool) (qn : option Z) (qmax : option num)
    (fuel : nat) (s s2 : state) (D_particles : DParticles) :
  _get_next_particles fuel (started s) = (Ret D_particles, s2) ->
  detector_solid_angle_correction = true
  \/ Exists is_spheroid D_particles
  \/ source_polarization <> "ignore" ->
  let r := _propagate save_map3d save_qmap 3 qn qmax fuel s in
  aborts r
  /\ (detector_solid_angle_correction = true ->
      fst r = Raise (RuntimeError solid_angle_message))
  /\ (spsim_importable = true ->
      Forall (fun item => has_items (snd item)) D_particles ->
      configuration_error r).
Proof.
  intros Hsample Hconfig.
  set (P := fun r : outcome (dict leaf) * state =>
              aborts r
              /\ (detector_solid_angle_correction = true ->
                  fst r = Raise (RuntimeError solid_angle_message))
              /\ (spsim_importable = true ->
                  Forall (fun item => has_items (snd item)) D_particles ->
                  configuration_error r)).
  change (P (_propagate save_map3d save_qmap 3 qn qmax fuel s)).
  rewrite (_propagate_3d_unfold save_map3d save_qmap qn qmax _ _ Hsample).
  unfold mbind at 1. rewrite with_world_ret. cbv iota beta.
  set (D_detector := fst (detector_get_next (world s2))).
  set (s3 := {| world := _; _qmap_cache := _; logged := _ |}).
  unfold unrotated_qmap. change (Z.eqb 3 2) with false. cbv iota zeta.
  destruct detector_solid_angle_correction eqn:Hsac.
  - (* solid angle correction *)
    assert (Herr : forall (B : Type) (k : Qmap * option Z * option num -> M B),
               configuration_error
                 (mbind (log_and_raise_error solid_angle_message) k s3)).
    { intros B k. apply configuration_error_bind.
      apply log_and_raise_error_configuration. simpl. auto. }
    subst P. cbv beta.
    split; [apply configuration_error_aborts; apply Herr |].
    split; [intros _; reflexivity | intros _ _; apply Herr].
  - destruct Hconfig as [Habs | Hconfig]; [discriminate Habs |].
    unfold mbind at 1. unfold mret at 1. cbv iota beta.
    set (qmax3 := Some (nsqrt _)). set (qn3 := Some (Z.max _ _)).
    set (qmap0 := detector_generate_qmap_3d _ _ _ _ _).
    destruct (superimpose_3d save_map3d qn3 qmax3 (shot_source s) D_detector qmap0
                D_particles (bc (flt 0)) s3) as [[(x & Hret) Hnone] | (Habort & Hconf)];
      cbv zeta in *.
    + (* every particle was propagated: the polarization is checked *)
      destruct Hconfig as [Hsph | Hpol]; [contradiction |].
      destruct (superimpose _ _ _ _ _ _ _ D_particles _ s3) as [o s4] eqn:Hsup.
      simpl in Hret. subst o. destruct x as [F_tot done].
      rewrite (mbind_ret _ _ _ Hsup). cbv iota beta.
      unfold polarization_factors. change (Z.eqb 3 2) with false. cbv iota.
      destruct (String.eqb source_polarization "ignore") eqn:Heq.
      { apply String.eqb_eq in Heq. contradiction. }
      cbn [negb].
      assert (Herr : forall (B : Type) (k : Arr -> M B),
                 configuration_error
                   (mbind (log_and_raise_error
                             (polarization_message source_polarization)) k s4)).
      { intros B k. apply configuration_error_bind.
        apply log_and_raise_error_configuration. simpl. auto. }
      subst P. cbv beta.
      split; [apply configuration_error_aborts; apply Herr |].
      split; [intros Hf; discriminate Hf | intros _ _; apply Herr].
    + (* a particle raised *)
      subst P. cbv beta.
      split; [apply aborts_bind; exact Habort |].
      split; [intros Hf; discriminate Hf |].
      intros Himp Hall. apply configuration_error_bind. apply Hconf; assumption.
Qed.

(** ** Further properties of the qmap cache *)

(** Deciding whether to recompute changes nothing. *)
Lemma get_qmap_calculate_state (cache : option QmapCacheEntry)
    (nx ny : Z) (cx cy pixel_size detector_distance wavelength : num)
    (extrinsic_rotation : option Rotation) (order : string) (s : state) :
  snd (get_qmap_calculate cache nx ny cx cy pixel_size detector_distance wavelength
         extrinsic_rotation order s) = s.
Proof.
  unfold get_qmap_calculate. destruct cache as [c |]; [| reflexivity].
  destruct extrinsic_rotation as [r |]; [| reflexivity].
  destruct (params_differ c nx ny cx cy pixel_size detector_distance wavelength order);
    [reflexivity |].
  unfold mbind, lift_outcome.
  destruct (is_similar r (c_extrinsic_rotation c)); reflexivity.
Qed.

(** What a returning call of [get_qmap] leaves behind: either the state it
    found, whose cache holds the returned field, or the recomputed state. *)
Lemma get_qmap_returns (s s' : state) (qmap : Qmap)
    (nx ny : Z) (cx cy pixel_size detector_distance wavelength : num)
    (extrinsic_rotation : option Rotation) (order : string) :
  get_qmap nx ny cx cy pixel_size detector_distance wavelength extrinsic_rotation order s
  = (Ret qmap, s') ->
  (s' = s
   /\ exists c, _qmap_cache s = Some c /\ c_qmap c = qmap
                /\ get_qmap_calculate (Some c) nx ny cx cy pixel_size detector_distance
                     wavelength extrinsic_rotation order s = (Ret false, s))
  \/ (s' = recomputed s nx ny cx cy pixel_size detector_distance wavelength
             extrinsic_rotation order
      /\ qmap = detector_generate_qmap wavelength cx cy extrinsic_rotation (Some order)).
Proof.
  intros H. unfold get_qmap in H. unfold mbind at 1 in H. unfold get_cache at 1 in H.
  unfold mbind at 1 in H.
  pose proof (get_qmap_calculate_state (_qmap_cache s) nx ny cx cy pixel_size
                detector_distance wavelength extrinsic_rotation order s) as Hs.
  destruct (get_qmap_calculate (_qmap_cache s) nx ny cx cy pixel_size detector_distance
              wavelength extrinsic_rotation order s) as [[[|] | e |] s1] eqn:Hcalc;
    simpl in Hs; subst s1; try discriminate H.
  - right. unfold mbind, log_debug, log, set_cache, get_cache, mret in H. simpl in H.
    inversion H; subst. split; reflexivity.
  - left. unfold mbind, get_cache, mret in H.
    destruct (_qmap_cache s) as [c |] eqn:Hc; [| discriminate H].
    inversion H; subst. split; [reflexivity |].
    exists c. repeat split; try reflexivity. exact Hcalc.
Qed.

(** After a call of [get_qmap] has returned a field, [get_qmap_from_cache]
    returns the same field and changes nothing: the cache is never left
    empty, and it holds the field last returned. *)
Theorem get_qmap_then_get_qmap_from_cache (s s' : state) (qmap : Qmap)
    (nx ny : Z) (cx cy pixel_size detector_distance wavelength : num)
    (extrinsic_rotation : option Rotation) (order : string) :
  get_qmap nx ny cx cy pixel_size detector_distance wavelength extrinsic_rotation order s
  = (Ret qmap, s') ->
  get_qmap_from_cache s' = (Ret qmap, s').
Proof.
  intros H. apply get_qmap_returns in H.
  destruct H as [(-> & c & Hc & Hq & _) | (-> & ->)].
  - unfold get_qmap_from_cache, mbind, get_cache. rewrite Hc, Hq. reflexivity.
  - reflexivity.
Qed.

(** A second call with the same arguments, right after a call that
    returned, returns the same field without recomputing it and changes
    nothing, provided each float argument equals itself under Python's [!=]
    (it is not NaN) and a supplied rotation is similar to itself. *)
Theorem get_qmap_repeated_call (s s' : state) (qmap : Qmap)
    (nx ny : Z) (cx cy pixel_size detector_distance wavelength : num)
    (extrinsic_rotation : option Rotation) (order : string) :
  nne cx cx = false -> nne cy cy = false -> nne pixel_size pixel_size = false ->
  nne detector_distance detector_distance = false -> nne wavelength wavelength = false ->
  (forall r, extrinsic_rotation = Some r -> is_similar r (Some r) = Ret true) ->
  get_qmap nx ny cx cy pixel_size detector_distance wavelength extrinsic_rotation order s
  = (Ret qmap, s') ->
  get_qmap nx ny cx cy pixel_size detector_distance wavelength extrinsic_rotation order s'
  = (Ret qmap, s').
Proof.
  intros Hcx Hcy Hp Hd Hw Hrot H.
  pose proof (get_qmap_returns _ _ _ _ _ _ _ _ _ _ H) as Hcases.
  destruct Hcases as [(-> & _) | (-> & ->)]; [exact H |].
  apply (@get_qmap_hit (recomputed s nx ny cx cy pixel_size detector_distance wavelength
                         extrinsic_rotation order)
           (new_cache_entry nx ny cx cy pixel_size detector_distance wavelength
              extrinsic_rotation order));
    [reflexivity |].
  unfold get_qmap_calculate.
  assert (Hsame : params_differ
                    (new_cache_entry nx ny cx cy pixel_size detector_distance wavelength
                       extrinsic_rotation order)
                    nx ny cx cy pixel_size detector_distance wavelength order = false).
  { apply params_differ_false_iff. cbn [new_cache_entry c_nx c_ny c_cx c_cy c_pixel_size
                                          c_detector_distance c_wavelength c_order].
    unfold Z_ne, str_ne. rewrite !Z.eqb_refl, String.eqb_refl. auto 10. }
  rewrite Hsame. destruct extrinsic_rotation as [r |]; [| reflexivity].
  cbn [new_cache_entry c_extrinsic_rotation].
  unfold mbind, lift_outcome. rewrite (Hrot r eq_refl). reflexivity.
Qed.

(** A float argument that differs from every number under [!=] (a NaN)
    defeats the cache: whatever the cache holds, every call logs
    "Calculating qmap", generates the field anew and replaces the entry;
    [is_similar] is not consulted. *)
Theorem get_qmap_nan_always_recomputes (s : state)
    (nx ny : Z) (cx cy pixel_size detector_distance wavelength : num)
    (extrinsic_rotation : option Rotation) (order : string) :
  (forall y, nne cx y = true) \/ (forall y, nne cy y = true)
  \/ (forall y, nne pixel_size y = true) \/ (forall y, nne detector_distance y = true)
  \/ (forall y, nne wavelength y = true) ->
  get_qmap nx ny cx cy pixel_size detector_distance wavelength extrinsic_rotation order s
  = (Ret (detector_generate_qmap wavelength cx cy extrinsic_rotation (Some order)),
     recomputed s nx ny cx cy pixel_size detector_distance wavelength
       extrinsic_rotation order).
Proof.
  intros Hnan. apply get_qmap_miss.
  destruct (_qmap_cache s) as [c |]; [| reflexivity].
  unfold get_qmap_calculate.
  assert (Hdiff : params_differ c nx ny cx cy pixel_size detector_distance wavelength
                    order = true).
  { apply params_differ_true_iff.
    destruct Hnan as [H | [H | [H | [H | H]]]]; rewrite H; auto 10. }
  rewrite Hdiff. destruct extrinsic_rotation; reflexivity.
Qed.

(** ** The keys of the sampled particles *)

(** the number a key of the form ["%02i" % i] stands for *)
Definition key_index (s : string) : option nat :=
  option_map Nat.of_uint (NilZero.uint_of_string s).

Lemma to_uint_nonnil (n : nat) : Nat.to_uint n <> Decimal.Nil.
Proof.
  intros H. pose proof (DecimalNat.Unsigned.to_of (Nat.to_uint n)) as H1.
  rewrite DecimalNat.Unsigned.of_to in H1. rewrite H in H1 at 2. simpl in H1.
  rewrite H in H1. discriminate H1.
Qed.

Lemma key_index_fmt_i (n : nat) : key_index (fmt_i n) = Some n.
Proof.
  unfold key_index, fmt_i. rewrite NilZero.usu by apply to_uint_nonnil.
  simpl. rewrite DecimalNat.Unsigned.of_to. reflexivity.
Qed.

Lemma key_index_fmt_02i (n : nat) : key_index (fmt_02i n) = Some n.
Proof.
  unfold fmt_02i. cbv zeta. destruct (Nat.ltb _ 2); [| apply key_index_fmt_i].
  pose proof (key_index_fmt_i n) as H. unfold key_index in *.
  destruct (fmt_i n) as [| c s] eqn:E.
  - simpl in H. discriminate H.
  - change ("0" ++ String c s)%string with (String "0" (String c s)).
    unfold NilZero.uint_of_string in *.
    change (NilEmpty.uint_of_string (String "0" (String c s)))
      with (option_map Decimal.D0 (NilEmpty.uint_of_string (String c s))).
    destruct (NilEmpty.uint_of_string (String c s)) as [d |]; [| discriminate H].
    simpl in *. exact H.
Qed.

(** Different indices give different keys. *)
Lemma particle_key_inj (i j : nat) : particle_key i = particle_key j -> i = j.
Proof.
  unfold particle_key. intros H.
  assert (Hfmt : fmt_02i i = fmt_02i j).
  { simpl in H. injection H as Hfmt. exact Hfmt. }
  pose proof (key_index_fmt_02i i) as Hi. rewrite Hfmt, key_index_fmt_02i in Hi.
  inversion Hi. reflexivity.
Qed.

(** Assigning to a key the dictionary does not hold appends the item. *)
Lemma aset_fresh {V : Type} (D : list (string * V)) (k : string) (v : V) :
  ~ In k (map fst D) -> aset D k v = D ++ [(k, v)].
Proof.
  induction D as [| [k' v'] D IH]; intros Hfresh; [reflexivity |].
  cbn [aset]. destruct (String.eqb k k') eqn:Hk.
  - apply String.eqb_eq in Hk. exfalso. apply Hfresh. left. symmetry. exact Hk.
  - rewrite IH; [reflexivity |]. intros Hin. apply Hfresh. right. exact Hin.
Qed.

Lemma particle_key_fresh (i : nat) : ~ In (particle_key i) (map particle_key (seq 0 i)).
Proof.
  intros Hin. apply in_map_iff in Hin. destruct Hin as (j & Hj & Hin).
  apply particle_key_inj in Hj. apply in_seq in Hin. lia.
Qed.

(** The dictionaries a model hands out for [n] particles, in the order of
    the calls of [get_next], and the world after them. *)
Fixpoint drawn_instances (p : Particle) (n : nat) (w : World) : list DParticle * World :=
  match n with
  | O => ([], w)
  | S n' =>
      let first := particle_get_next p w in
      let rest := drawn_instances p n' (snd first) in
      (fst first :: fst rest, snd rest)
  end.

(** The dictionaries the models hand out in one round that starts in the
    world [w]: each model is asked for its number of particles and then for
    that many dictionaries. *)
Fixpoint drawn_round (ps : list (string * Particle)) (w : World)
  : list DParticle * World :=
  match ps with
  | [] => ([], w)
  | (_, p) :: ps' =>
      let number := get_next_number_of_particles p w in
      let instances := drawn_instances p (Z.to_nat (fst number)) (snd number) in
      let rest := drawn_round ps' (snd instances) in
      (fst instances ++ fst rest, snd rest)
  end.

(** the dictionaries numbered from [first] on *)
Definition numbered (first : nat) (drawn : list DParticle) : DParticles :=
  combine (map particle_key (seq first (List.length drawn))) drawn.

Lemma drawn_instances_length (p : Particle) (n : nat) (w : World) :
  List.length (fst (drawn_instances p n w)) = n.
Proof.
  revert w. induction n as [| n IH]; intros w; [reflexivity |].
  cbn [drawn_instances]. cbv zeta. cbn [fst List.length]. rewrite IH. reflexivity.
Qed.

Lemma numbered_app (first : nat) (xs ys : list DParticle) :
  numbered first (xs ++ ys) = numbered first xs ++ numbered (first + List.length xs) ys.
Proof.
  unfold numbered. revert first. induction xs as [| x xs IH]; intros first.
  - cbn [app List.length seq map combine]. rewrite Nat.add_0_r. reflexivity.
  - cbn [app List.length seq map combine]. rewrite IH.
    replace (S first + List.length xs)%nat with (first + S (List.length xs))%nat by lia.
    reflexivity.
Qed.

Lemma numbered_keys (first : nat) (drawn : list DParticle) :
  map fst (numbered first drawn) = map particle_key (seq first (List.length drawn)).
Proof.
  unfold numbered. revert first. induction drawn as [| D drawn IH]; intros first.
  - reflexivity.
  - cbn [List.length seq map combine fst]. rewrite IH. reflexivity.
Qed.

Lemma numbered_values (first : nat) (drawn : list DParticle) :
  map snd (numbered first drawn) = drawn.
Proof.
  unfold numbered. revert first. induction drawn as [| D drawn IH]; intros first.
  - reflexivity.
  - cbn [List.length seq map combine snd]. rewrite IH. reflexivity.
Qed.

(** What the inner loop leaves in a dictionary that holds the keys of the
    indices below [i]: every dictionary drawn is appended under the next
    index. *)
Lemma sample_instances_drawn (p : Particle) (n i : nat) (drawn : list DParticle)
    (s : state) :
  List.length drawn = i ->
  sample_instances p n i (numbered 0 drawn) s
  = (Ret ((i + n)%nat, numbered 0 (drawn ++ fst (drawn_instances p n (world s)))),
     {| world := snd (drawn_instances p n (world s));
        _qmap_cache := _qmap_cache s; logged := logged s |}).
Proof.
  revert i drawn s. induction n as [| n IH]; intros i drawn s Hi.
  - cbn [sample_instances drawn_instances fst snd]. unfold mret.
    rewrite app_nil_r, Nat.add_0_r, state_eta. reflexivity.
  - cbn [sample_instances drawn_instances]. cbv zeta. cbn [fst snd].
    unfold mbind. rewrite with_world_ret. cbv iota beta.
    rewrite aset_fresh
      by (rewrite numbered_keys, Hi; apply particle_key_fresh).
    set (D := fst (particle_get_next p (world s))).
    replace (numbered 0 drawn ++ [(particle_key i, D)]) with (numbered 0 (drawn ++ [D]))
      by (rewrite numbered_app, Hi; reflexivity).
    rewrite (IH (S i) (drawn ++ [D]))
      by (rewrite length_app; cbn [List.length]; lia).
    cbn [world _qmap_cache logged].
    rewrite <- app_assoc. cbn [app].
    replace (S i + n)%nat with (i + S n)%nat by lia. reflexivity.
Qed.

Lemma sample_round_drawn (ps : list (string * Particle)) (i : nat)
    (drawn : list DParticle) (s : state) :
  List.length drawn = i ->
  sample_round ps i (numbered 0 drawn) s
  = (Ret ((i + List.length (fst (drawn_round ps (world s))))%nat,
          numbered 0 (drawn ++ fst (drawn_round ps (world s)))),
     {| world := snd (drawn_round ps (world s));
        _qmap_cache := _qmap_cache s; logged := logged s |}).
Proof.
  revert i drawn s. induction ps as [| [name p] ps IH]; intros i drawn s Hi.
  - cbn [sample_round drawn_round fst snd List.length]. unfold mret.
    rewrite app_nil_r, Nat.add_0_r, state_eta. reflexivity.
  - cbn [sample_round drawn_round]. cbv zeta. cbn [fst snd].
    unfold mbind at 1. rewrite with_world_ret. cbv iota beta.
    unfold mbind. rewrite (sample_instances_drawn p _ drawn _ Hi). cbv iota beta.
    cbn [world _qmap_cache logged].
    rewrite IH by (rewrite length_app, drawn_instances_length, Hi; reflexivity).
    cbn [world _qmap_cache logged].
    rewrite <- app_assoc, length_app, drawn_instances_length, Nat.add_assoc.
    reflexivity.
Qed.

(** the particles of a round are the dictionaries drawn, numbered from 0 *)
Lemma round_particles_drawn (s : state) :
  round_particles s = numbered 0 (fst (drawn_round particles (world s)))
  /\ world (round_state s) = snd (drawn_round particles (world s)).
Proof.
  unfold round_particles, round_state.
  pose proof (@sample_round_drawn particles 0 [] s eq_refl) as Hround.
  change (numbered 0 []) with (@nil (string * DParticle)) in Hround.
  rewrite Hround. split; reflexivity.
Qed.

(** The dictionary [_get_next_particles] returns holds one item per
    particle drawn in the round that ended the loop, and nothing else: the
    dictionaries the models handed out in that round, each exactly once and
    in the order of the calls of [get_next], under the keys particle_00,
    particle_01, ... numbered consecutively from 0. No drawn particle
    overwrites another, so the dictionary has as many items as particles
    were drawn and its keys are distinct. The round that ended the loop is
    the one after [k] rounds that drew from the world and were discarded. *)
Theorem _get_next_particles_keys (fuel : nat) (s s' : state) (D_particles : DParticles) :
  _get_next_particles fuel s = (Ret D_particles, s') ->
  exists k : nat,
    let w := Nat.iter k (fun w => snd (drawn_round particles w)) (world s) in
    let drawn := fst (drawn_round particles w) in
    D_particles = combine (map particle_key (seq 0 (List.length drawn))) drawn
    /\ map snd D_particles = drawn
    /\ map fst D_particles = map particle_key (seq 0 (List.length drawn))
    /\ List.length D_particles = List.length drawn
    /\ NoDup (map fst D_particles)
    /\ world s' = snd (drawn_round particles w).
Proof.
  unfold _get_next_particles. intros H.
  assert (Hround : exists k : nat,
             let w := Nat.iter k (fun w => snd (drawn_round particles w)) (world s) in
             D_particles = numbered 0 (fst (drawn_round particles w))
             /\ world s' = snd (drawn_round particles w)).
  { revert s H. induction fuel as [| fuel IH]; intros s H; [discriminate H |].
    destruct (round_particles_drawn s) as [Hdrawn Hworld].
    destruct (round_particles s) as [| kv D1] eqn:HD.
    - rewrite sampling_loop_miss in H by exact HD.
      destruct (IH _ H) as (k & HD' & Hw'). exists (S k).
      rewrite Nat.iter_succ_r. cbv zeta in HD', Hw' |- *.
      change (world (after_miss s)) with (world (round_state s)) in HD', Hw'.
      rewrite Hworld in HD', Hw'. split; assumption.
    - rewrite sampling_loop_hit in H by (rewrite HD; discriminate).
      inversion H; subst. exists O. cbn [Nat.iter]. cbv zeta. split.
      + rewrite HD. exact Hdrawn.
      + change (world (after_hit s)) with (world (round_state s)). exact Hworld. }
  destruct Hround as (k & HD & Hw). exists k. cbv zeta in HD |- *.
  set (drawn := fst (drawn_round particles _)) in *.
  assert (Hkeys : map fst D_particles = map particle_key (seq 0 (List.length drawn)))
    by (rewrite HD; apply numbered_keys).
  split; [exact HD |].
  split; [rewrite HD; apply numbered_values |].
  split; [exact Hkeys |].
  split; [rewrite <- (length_map fst), Hkeys, length_map, length_seq; reflexivity |].
  split; [| exact Hw].
  rewrite Hkeys. generalize (seq_NoDup (List.length drawn) 0).
  generalize (seq 0 (List.length drawn)) as l.
  induction l as [| i l IH]; intros Hnodup; [constructor |].
  inversion Hnodup as [| ? ? Hnotin Hrest]; subst. simpl. constructor.
  - intros Hin. apply in_map_iff in Hin. destruct Hin as (j & Hj & Hin).
    apply particle_key_inj in Hj. subst j. exact (Hnotin Hin).
  - apply IH. exact Hrest.
Qed.

(** ** A 3-D propagation on a detector that bins *)

(** the call did not return a result *)
Definition no_result {A : Type} (r : outcome A * state) : Prop :=
  match fst r with
  | Ret _ => False
  | _ => True
  end.

Lemma no_result_bind {A B : Type} (c : M A) (k : A -> M B) (s : state) :
  (forall a s1, c s = (Ret a, s1) -> no_result (k a s1)) ->
  no_result (mbind c k s).
Proof.
  intros H. unfold mbind. destruct (c s) as [[a | e |] s1].
  - apply H. reflexivity.
  - exact I.
  - exact I.
Qed.

(** The binned arrays exist in 2-D mode only: in 3-D mode reading them
    raises. *)
Lemma binned_data_3d (binning : Z) (F_tot : Arr) (I_tot M_tot : Data) (s : state) :
  detector_binning = Some binning ->
  binned_data 3 F_tot I_tot M_tot s = (Raise (UnboundLocalError "FXxX_tot"), s).
Proof. intros H. unfold binned_data. rewrite H. reflexivity. Qed.

(** With a detector that bins ([binning] is not [None]) a propagation in
    3-D mode never returns a result, whatever the source, the particles and
    the arguments: a run that gets through the photon detection ends in the
    [UnboundLocalError] of [FXxX_tot], which only the 2-D branch assigns. *)
Theorem propagate_3d_binning_never_returns
    (save_map3d save_qmap : bool) (qn : option Z) (qmax : option num)
    (fuel : nat) (s : state) :
  detector_binning <> None ->
  no_result (_propagate save_map3d save_qmap 3 qn qmax fuel s).
Proof.
  intros Hbin. destruct detector_binning as [binning |] eqn:Hb; [| congruence].
  unfold _propagate.
  repeat (apply no_result_bind; intros ? ? _).
  repeat match goal with x : (_ * _)%type |- _ => destruct x end.
  repeat (apply no_result_bind; intros ? ? _).
  repeat match goal with x : (_ * _)%type |- _ => destruct x end.
  repeat (apply no_result_bind; intros ? ? _).
  repeat match goal with x : (_ * _)%type |- _ => destruct x end.
  apply no_result_bind. intros binned s9 Hbinned.
  rewrite (binned_data_3d _ _ _ _ Hb) in Hbinned. discriminate Hbinned.
Qed.

(** ** What a shot records in the dictionary of a particle *)

(** Whenever the kernel of a particle returns, the dictionary of the
    particle has gained the items "intensity" (the fluence at its position)
    and "F0" (the primary wave amplitude); a map particle propagated with
    [save_map3d] has gained "map3d_dn" and "dx" as well; no other item is
    written or changed. *)
Theorem particle_amplitude_records
    (save_map3d : bool) (ndim : Z) (qn : option Z) (qmax : option num)
    (D_source : DSource) (D_detector : DDetector) (qmap0 : Qmap)
    (D_particle D_particle' : DParticle) (F : Arr) (qmap : Qmap) (s s' : state) :
  particle_amplitude save_map3d ndim qn qmax D_source D_detector qmap0 D_particle s
  = (Ret (F, qmap, D_particle'), s') ->
  let recorded := annotated D_source D_particle in
  if save_map3d && match class_of (_class_instance D_particle) with
                   | ParticleMap => true
                   | _ => false
                   end
  then D_particle'
       = (let '(map3d_dn, dx) :=
            get_new_dn_map (_class_instance D_particle) recorded
              (detector_get_resolution_element_r (wavelength D_source)
                 (Some (cx D_detector)) (Some (cy D_detector)) false)
              (detector_get_resolution_element_r (wavelength D_source) None None true)
              (wavelength D_source) in
          set_map3d recorded map3d_dn dx)
  else D_particle' = recorded.
Proof.
  unfold particle_amplitude. cbv zeta.
  change (_class_instance (set_F0 _ _)) with (_class_instance D_particle).
  destruct (class_of (_class_instance D_particle)).
  - rewrite andb_false_r. unfold mbind.
    destruct (sphere_kernel _ _ _ _ _ _ _ _ s) as [[[F1 q1] | e |] s1];
      intros H; inversion H; subst; reflexivity.
  - rewrite andb_false_r. unfold mbind.
    destruct (spheroid_kernel _ _ _ _ _ _ _ _ s) as [[[F1 q1] | e |] s1];
      intros H; inversion H; subst; reflexivity.
  - rewrite andb_true_r. unfold map_kernel. cbv zeta. unfold mbind at 1.
    match goal with |- context [(if Z.eqb ndim 2 then ?a else ?b) s] =>
      destruct ((if Z.eqb ndim 2 then a else b) s) as [[q1 | e |] s1] end;
      try (intros H; discriminate H).
    unfold annotated.
    destruct (get_new_dn_map _ _ _ _ _) as [m x].
    unfold mbind at 1. unfold log_debug at 1. rewrite log_ret. cbv iota beta.
    unfold mbind.
    match goal with |- context [map_fourier_pattern ?a ?b ?c ?d] =>
      destruct (map_fourier_pattern a b c d) as [[fp | e |] s2] end;
      intros H; inversion H; subst.
    destruct save_map3d; reflexivity.
  - rewrite andb_false_r. unfold mbind.
    destruct (atoms_kernel _ _ _ _ _ _ _ s) as [[[F1 q1] | e |] s1];
      intros H; inversion H; subst; reflexivity.
  - unfold log_and_raise_error. intros H; discriminate H.
Qed.

(** ** The atoms kernel and the cache *)

(** A returning atoms kernel leaves the field of spsim in the cache (what
    [get_qmap_from_cache] then returns), filed under the order "zyx": a
    following request of a sphere or spheroid kernel, which asks for the
    order "xyz", never receives it but has the field generated anew. *)
Theorem atoms_kernel_fills_cache
    (ndim : Z) (qn : option Z) (qmax : option num)
    (D_source : DSource) (D_particle : DParticle) (D_detector : DDetector)
    (extrinsic_rotation : Rotation) (F : Arr) (qmap : Qmap) (s s' : state) :
  atoms_kernel ndim qn qmax D_source D_particle D_detector extrinsic_rotation s
  = (Ret (F, qmap), s') ->
  get_qmap_from_cache s' = (Ret qmap, s')
  /\ forall (D_detector' : DDetector) (wavelength' : num),
       cached_qmap D_detector' wavelength' None "xyz" s'
       = (Ret (detector_generate_qmap wavelength' (cx D_detector') (cy D_detector')
                 None (Some "xyz")),
          recomputed s' (nx D_detector') (ny D_detector') (cx D_detector')
            (cy D_detector') (pixel_size D_detector') (distance D_detector')
            wavelength' None "xyz").
Proof.
  unfold atoms_kernel.
  destruct spsim_importable; cbn [negb]; [| intros H; discriminate H].
  destruct (match spsim_version with
            | Some v => StrictVersion_lt v spsim_version_min
            | None => true
            end); [intros H; discriminate H |].
  cbv zeta. unfold mbind, set_cache, mret. intros H. inversion H; subst. clear H.
  split; [reflexivity |].
  intros D_detector' wavelength'. unfold cached_qmap. apply get_qmap_miss.
  cbn [_qmap_cache]. unfold get_qmap_calculate.
  match goal with |- context [params_differ ?c ?a1 ?a2 ?a3 ?a4 ?a5 ?a6 ?a7 ?a8] =>
    assert (Hdiff : params_differ c a1 a2 a3 a4 a5 a6 a7 a8 = true)
  end.
  { apply params_differ_true_iff. cbn [c_order]. auto 10. }
  rewrite Hdiff. reflexivity.
Qed.

(** ** The samples the map kernel hands to the transform *)

Definition scattering_vectors_warning : string :=
  "There are infinite values in the scattering vectors.".

Lemma checked_component (x : num) :
  invalid (flt 0) = false -> invalid (if invalid x then flt 0 else x) = false.
Proof. intros H0. destruct (invalid x) eqn:Hx; [exact H0 | exact Hx]. Qed.

(** the record the input check adds to the log, if any *)
Definition check_inputs_log (qmap_shaped : Qmap) : list log_record :=
  let mask := invalid_mask qmap_shaped in
  if any_invalid mask
  then [(WARNING, (fmt_i (count_invalid mask) ++ " invalid pixel positions.")%string)]
  else [].

Lemma check_inputs_eq (qmap_shaped : Qmap) (s : state) :
  check_inputs qmap_shaped s
  = (Ret (if any_invalid (invalid_mask qmap_shaped)
          then zero_invalid qmap_shaped (invalid_mask qmap_shaped)
          else qmap_shaped),
     {| world := world s; _qmap_cache := _qmap_cache s;
        logged := logged s ++ check_inputs_log qmap_shaped |}).
Proof.
  unfold check_inputs, check_inputs_log. cbv zeta.
  destruct (any_invalid (invalid_mask qmap_shaped)).
  - reflexivity.
  - unfold mret. rewrite app_nil_r, state_eta. reflexivity.
Qed.

Lemma check_inputs_in_range (qmap_shaped samples : Qmap) (s s1 : state) :
  invalid (flt 0) = false ->
  check_inputs qmap_shaped s = (Ret samples, s1) ->
  forall i, In i elements ->
    invalid (c0 (samples i)) = false
    /\ invalid (c1 (samples i)) = false
    /\ invalid (c2 (samples i)) = false.
Proof.
  intros H0 Hcheck i Hin. rewrite check_inputs_eq in Hcheck.
  inversion Hcheck as [[Hsamples Hs1]]. clear Hcheck Hs1.
  destruct (any_invalid (invalid_mask qmap_shaped)) eqn:Hany.
  - unfold zero_invalid, invalid_mask, v3map, c0, c1, c2.
    destruct (qmap_shaped i) as [[a b] c]. cbn [fst snd].
    repeat split; apply checked_component; exact H0.
  - pose proof (any_invalid_false _ i Hany Hin) as Hrow.
    unfold invalid_mask, v3map in Hrow.
    destruct (row_any_false _ _ _ Hrow) as (Ha & Hb & Hc). auto.
Qed.

(** After the input check every coordinate handed to the transform lies
    in [-0.5, 0.5), whatever the scattering vectors held (NaN and infinities
    included), provided 0 itself passes the range test. *)
Theorem map_kernel_samples_in_range (qmap_shaped samples : Qmap) (s s1 : state) :
  invalid (flt 0) = false ->
  check_inputs qmap_shaped s = (Ret samples, s1) ->
  forall i, In i elements ->
    invalid (c0 (samples i)) = false
    /\ invalid (c1 (samples i)) = false
    /\ invalid (c2 (samples i)) = false.
Proof.
  intros H0 Hcheck. exact (check_inputs_in_range _ _ H0 Hcheck).
Qed.

Lemma optional_warning_eq (b : bool) (msg : string) (s : state) :
  (if b then log_warning msg else mret tt) s
  = (Ret tt, {| world := world s; _qmap_cache := _qmap_cache s;
                logged := logged s ++ (if b then [(WARNING, msg)] else []) |}).
Proof.
  destruct b.
  - reflexivity.
  - unfold mret. rewrite app_nil_r, state_eta. reflexivity.
Qed.

(** No count of invalid pixel positions reads as the warning about the
    scattering vectors. *)
Lemma invalid_positions_message_differs (a : string) :
  (a ++ " invalid pixel positions.")%string <> scattering_vectors_warning.
Proof.
  unfold scattering_vectors_warning. intros H.
  repeat (destruct a as [| ? a]; [discriminate H | simpl in H; injection H as _ H]).
  destruct a; discriminate H.
Qed.

(** The warning "There are infinite values in the scattering vectors." is
    never logged by the map kernel: the input check before it has replaced
    every coordinate outside [-0.5, 0.5) by 0, and a number inside the range
    is finite. *)
Theorem scattering_vectors_warning_never_logged
    (map3d_dn : Map3d) (dx : num) (qmap : Qmap) (s : state) :
  invalid (flt 0) = false ->
  (forall x, invalid x = false -> nisfinite x = true) ->
  exists (fourier_pattern : Arr) (lg : list log_record),
    map_fourier_pattern map3d_dn dx qmap s
    = (Ret fourier_pattern,
       {| world := world s; _qmap_cache := _qmap_cache s; logged := logged s ++ lg |})
    /\ ~ In (WARNING, scattering_vectors_warning) lg.
Proof.
  intros H0 Hfinite.
  unfold map_fourier_pattern. cbv zeta.
  pose proof (check_inputs_eq (rescale dx qmap) s) as H1.
  pose proof (check_inputs_in_range _ _ H0 H1) as Hrange.
  rewrite (mbind_ret _ _ _ H1).
  set (samples := if any_invalid (invalid_mask (rescale dx qmap))
                  then zero_invalid (rescale dx qmap) (invalid_mask (rescale dx qmap))
                  else rescale dx qmap) in *.
  set (s1 := {| world := world s; _qmap_cache := _; logged := _ |}).
  unfold mbind at 1. unfold log_debug at 1. rewrite log_ret. cbv iota beta.
  set (s2 := {| world := world s1; _qmap_cache := _; logged := _ |}).
  rewrite (mbind_ret _ _ _ (optional_warning_eq _ _ s2)).
  set (s3 := {| world := world s2; _qmap_cache := _; logged := _ |}).
  unfold mbind at 1. unfold log_debug at 1. rewrite log_ret. cbv iota beta.
  set (s4 := {| world := world s3; _qmap_cache := _; logged := _ |}).
  assert (Hguard : existsb (fun i => has_nonfinite
                              [c0 (samples i); c1 (samples i); c2 (samples i)])
                     elements = false).
  { destruct (existsb _ elements) eqn:Hex; [| reflexivity].
    apply existsb_exists in Hex. destruct Hex as (i & Hin & Hnf).
    destruct (Hrange i Hin) as (Ha & Hb & Hc).
    unfold has_nonfinite in Hnf. cbn [existsb] in Hnf.
    rewrite (Hfinite _ Ha), (Hfinite _ Hb), (Hfinite _ Hc) in Hnf. discriminate Hnf. }
  rewrite Hguard.
  unfold mbind at 1. unfold mret at 1. cbv iota beta.
  unfold mbind, log_debug. rewrite log_ret. unfold mret.
  eexists. eexists. split.
  - f_equal. subst s4 s3 s2 s1. cbn [world _qmap_cache logged].
    rewrite <- !app_assoc. reflexivity.
  - intros Hin. unfold check_inputs_log in Hin. cbv zeta in Hin.
    repeat (apply in_app_or in Hin; destruct Hin as [Hin | Hin]).
    + destruct (any_invalid (invalid_mask (rescale dx qmap))); [| exact Hin].
      destruct Hin as [Hin | []]. injection Hin as Hin.
      exact (invalid_positions_message_differs _ Hin).
    + destruct Hin as [Hin | []]. discriminate Hin.
    + destruct (has_nonfinite _); [| exact Hin].
      destruct Hin as [Hin | []]. discriminate Hin.
    + destruct Hin as [Hin | []]. discriminate Hin.
    + destruct Hin as [Hin | []]. discriminate Hin.
Qed.

(** ** Constructing an experiment

<<
  def __init__(self, source, particles, detector):
      self.source    = source
      for n,p in particles.items():
          if n.startswith("particle_sphere"):
              if not isinstance(p, condor.particle.ParticleSphere):
                  log_and_raise_error(logger, "Particle %s is not a condor.particle.ParticleSphere instance." % n)
          elif n.startswith("particle_spheroid"):
              ...
          elif n.startswith("particle_map"):
              ...
          elif n.startswith("particle_atoms"):
              ...
          else:
              log_and_raise_error(logger, "The particle model name %s is invalid. The name has to start with either particle_sphere, particle_spheroid, particle_map or particle_atoms.")
      self.particles = particles
      self.detector  = detector
      self._qmap_cache = {}
>>
    [isinstance] is read off [class_of], as in the kernels. The message of
    the last branch is not formatted: it holds the characters [%s]. *)

Definition pclass_eqb (a b : pclass) : bool :=
  match a, b with
  | ParticleSphere, ParticleSphere
  | ParticleSpheroid, ParticleSpheroid
  | ParticleMap, ParticleMap
  | ParticleAtoms, ParticleAtoms
  | OtherClass, OtherClass => true
  | _, _ => false
  end.

Definition isinstance (p : Particle) (c : pclass) : bool := pclass_eqb (class_of p) c.

Definition not_instance_message (n class_name : string) : string :=
  "Particle " ++ n ++ " is not a condor.particle." ++ class_name ++ " instance.".

Definition invalid_name_message : string :=
  "The particle model name %s is invalid. The name has to start with either particle_sphere, particle_spheroid, particle_map or particle_atoms.".

Definition require_instance (n : string) (p : Particle) (c : pclass) (class_name : string)
  : M unit :=
  if negb (isinstance p c) then log_and_raise_error (not_instance_message n class_name)
  else mret tt.

(** the body of the loop *)
Definition check_particle (n : string) (p : Particle) : M unit :=
  if String.prefix "particle_sphere" n then
    require_instance n p ParticleSphere "ParticleSphere"
  else if String.prefix "particle_spheroid" n then
    require_instance n p ParticleSpheroid "ParticleSpheroid"
  else if String.prefix "particle_map" n then
    require_instance n p ParticleMap "ParticleMap"
  else if String.prefix "particle_atoms" n then
    require_instance n p ParticleAtoms "ParticleAtoms"
  else log_and_raise_error invalid_name_message.

Fixpoint check_particles (items : list (string * Particle)) : M unit :=
  match items with
  | [] => mret tt
  | (n, p) :: items' => check_particle n p ;;; check_particles items'
  end.

(** [Experiment(source, particles, detector)]: the attributes [source],
    [particles] and [detector] are the arguments; the state holds the cache
    of the new instance. *)
Definition Experiment__init__ (particles : list (string * Particle)) : M unit :=
  check_particles particles ;;;
  set_cache None.

(** ** An experiment from a configuration dictionary

<<
def experiment_from_configdict(configdict):
    source = condor.Source( **configdict["source"])
    particle_keys = [k for k in configdict.keys() if k.startswith("particle")]
    particles = {}
    if len(particle_keys) == 0:
        log_and_raise_error(logger, "No particles defined.")
    for k in particle_keys:
        if k.startswith("particle_sphere"):
            particles[k] = condor.ParticleSphere( **configdict[k])
        elif k.startswith("particle_spheroid"):
            particles[k] = condor.ParticleSpheroid( **configdict[k])
        elif k.startswith("particle_map"):
            particles[k] = condor.ParticleMap( **configdict[k])
        elif k.startswith("particle_atoms"):
            particles[k] = condor.ParticleAtoms( **configdict[k])
        else:
            log_and_raise_error(logger,"Particle model for %s is not implemented." % k)
    detector = condor.Detector( **configdict["detector"])
    experiment = Experiment(source, particles, detector)
    return experiment
>>
    The constructors of the source, the detector and the particle models
    are collaborators: each returns an instance or raises (what they log is
    not modelled). *)

Variable Conf : Type.         (* the keyword arguments of one section *)
Variable Source : Type.
Variable Detector : Type.
Variable condor_Source : Conf -> outcome Source.
Variable condor_Detector : Conf -> outcome Detector.
(** [condor.ParticleSphere( **kwargs)] and the like, by class *)
Variable condor_Particle : pclass -> Conf -> outcome Particle.

(** [D[k]] for an insertion-ordered dictionary with values of any type *)
Fixpoint aget {V : Type} (D : list (string * V)) (k : string) : outcome V :=
  match D with
  | [] => Raise (KeyError k)
  | (k', v) :: D' => if String.eqb k k' then Ret v else aget D' k
  end.

Definition not_implemented_message (k : string) : string :=
  "Particle model for " ++ k ++ " is not implemented.".

(** the class the name of a particle model stands for *)
Definition model_of_name (k : string) : option pclass :=
  if String.prefix "particle_sphere" k then Some ParticleSphere
  else if String.prefix "particle_spheroid" k then Some ParticleSpheroid
  else if String.prefix "particle_map" k then Some ParticleMap
  else if String.prefix "particle_atoms" k then Some ParticleAtoms
  else None.

Definition construct (configdict : list (string * Conf)) (k : string) (c : pclass)
  : M Particle :=
  conf <- lift_outcome (aget configdict k) ;;
  lift_outcome (condor_Particle c conf).

(** [for k in particle_keys] *)
Fixpoint build_particles (configdict : list (string * Conf)) (particle_keys : list string)
    (particles : list (string * Particle)) : M (list (string * Particle)) :=
  match particle_keys with
  | [] => mret particles
  | k :: particle_keys' =>
      p <- (if String.prefix "particle_sphere" k then
              construct configdict k ParticleSphere
            else if String.prefix "particle_spheroid" k then
              construct configdict k ParticleSpheroid
            else if String.prefix "particle_map" k then
              construct configdict k ParticleMap
            else if String.prefix "particle_atoms" k then
              construct configdict k ParticleAtoms
            else log_and_raise_error (not_implemented_message k)) ;;
      build_particles configdict particle_keys' (aset particles k p)
  end.

Definition experiment_from_configdict (configdict : list (string * Conf))
  : M (Source * list (string * Particle) * Detector) :=
  source_conf <- lift_outcome (aget configdict "source") ;;
  source <- lift_outcome (condor_Source source_conf) ;;
  let particle_keys := filter (String.prefix "particle") (map fst configdict) in
  (if Nat.eqb (List.length particle_keys) 0 then log_and_raise_error "No particles defined."
   else mret tt) ;;;
  particles <- build_particles configdict particle_keys [] ;;
  detector_conf <- lift_outcome (aget configdict "detector") ;;
  detector <- lift_outcome (condor_Detector detector_conf) ;;
  Experiment__init__ particles ;;;
  mret (source, particles, detector).

(** *** Properties *)

Lemma pclass_eqb_eq (a b : pclass) : pclass_eqb a b = true <-> a = b.
Proof. destruct a, b; simpl; split; intros H; try reflexivity; discriminate H. Qed.

(** the name of a particle model and the class of the instance agree *)
Definition well_named (item : string * Particle) : Prop :=
  model_of_name (fst item) = Some (class_of (snd item)).

(** the state after a logged error *)
Definition failed (s : state) (msg : string) : state :=
  {| world := world s; _qmap_cache := _qmap_cache s;
     logged := logged s ++ [(ERROR, msg)] |}.

Lemma check_particle_cases (n : string) (p : Particle) (s : state) :
  (well_named (n, p) /\ check_particle n p s = (Ret tt, s))
  \/ (~ well_named (n, p)
      /\ exists msg, check_particle n p s = (Raise (RuntimeError msg), failed s msg)).
Proof.
  unfold well_named, check_particle, model_of_name, require_instance, isinstance.
  cbn [fst snd].
  assert (Hdec : forall c class_name,
             (Some c = Some (class_of p)
              /\ (if negb (pclass_eqb (class_of p) c)
                  then log_and_raise_error (not_instance_message n class_name)
                  else mret tt) s = (Ret tt, s))
             \/ (Some c <> Some (class_of p)
                 /\ exists msg,
                      (if negb (pclass_eqb (class_of p) c)
                       then log_and_raise_error (not_instance_message n class_name)
                       else mret tt) s = (Raise (RuntimeError msg), failed s msg))).
  { intros c class_name. destruct (pclass_eqb (class_of p) c) eqn:Heq; cbn [negb].
    - left. apply pclass_eqb_eq in Heq. rewrite Heq. split; reflexivity.
    - right. split.
      + intros H. injection H as H. symmetry in H. apply pclass_eqb_eq in H.
        rewrite H in Heq. discriminate Heq.
      + eexists. reflexivity. }
  destruct (String.prefix "particle_sphere" n); [apply Hdec |].
  destruct (String.prefix "particle_spheroid" n); [apply Hdec |].
  destruct (String.prefix "particle_map" n); [apply Hdec |].
  destruct (String.prefix "particle_atoms" n); [apply Hdec |].
  right. split; [intros H; discriminate H | eexists; reflexivity].
Qed.

Lemma check_particles_cases (items : list (string * Particle)) (s : state) :
  (Forall well_named items /\ check_particles items s = (Ret tt, s))
  \/ (~ Forall well_named items
      /\ exists msg, check_particles items s = (Raise (RuntimeError msg), failed s msg)).
Proof.
  induction items as [| [n p] items IH].
  - left. split; [constructor | reflexivity].
  - cbn [check_particles].
    destruct (check_particle_cases n p s) as [[Hok Hret] | [Hbad (msg & Hraise)]].
    + rewrite (mbind_ret _ _ _ Hret).
      destruct IH as [[Hall Hrest] | [Hnot (msg & Hrest)]].
      * left. split; [constructor; assumption | exact Hrest].
      * right. split; [| exists msg; exact Hrest].
        intros Hall. apply Hnot. inversion Hall; assumption.
    + right. split.
      * intros Hall. apply Hbad. inversion Hall; assumption.
      * exists msg. rewrite (mbind_raise _ _ _ Hraise). reflexivity.
Qed.

(** The constructor accepts the particle models exactly when the name of
    each begins with the prefix of the class of its instance (the first of
    particle_sphere, particle_spheroid, particle_map and particle_atoms the
    name begins with). It then starts the experiment with an empty cache and
    logs nothing; otherwise it logs an error, raises it, and leaves the
    cache alone. *)
Theorem Experiment_init_accepts (models : list (string * Particle)) (s : state) :
  (Forall well_named models
   /\ Experiment__init__ models s
      = (Ret tt, {| world := world s; _qmap_cache := None; logged := logged s |}))
  \/ (~ Forall well_named models
      /\ exists msg,
           Experiment__init__ models s = (Raise (RuntimeError msg), failed s msg)).
Proof.
  unfold Experiment__init__.
  destruct (check_particles_cases models s) as [[Hall Hret] | [Hnot (msg & Hraise)]].
  - left. split; [exact Hall |]. rewrite (mbind_ret _ _ _ Hret). reflexivity.
  - right. split; [exact Hnot |]. exists msg. rewrite (mbind_raise _ _ _ Hraise).
    reflexivity.
Qed.

(** A newly constructed experiment has nothing cached: asking for the
    cached field raises "Cache empty!", and the first request of a field
    generates it. *)
Theorem new_experiment_cache_empty (models : list (string * Particle)) (s s' : state)
    (nx ny : Z) (cx cy pixel_size detector_distance wavelength : num)
    (extrinsic_rotation : option Rotation) (order : string) :
  Experiment__init__ models s = (Ret tt, s') ->
  get_qmap_from_cache s' = (Raise (RuntimeError "Cache empty!"), failed s' "Cache empty!")
  /\ get_qmap nx ny cx cy pixel_size detector_distance wavelength extrinsic_rotation
       order s'
     = (Ret (detector_generate_qmap wavelength cx cy extrinsic_rotation (Some order)),
        recomputed s' nx ny cx cy pixel_size detector_distance wavelength
          extrinsic_rotation order).
Proof.
  intros Hinit.
  assert (Hcache : _qmap_cache s' = None).
  { destruct (check_particles_cases models s) as [[_ Hret] | [_ (msg & Hraise)]];
      unfold Experiment__init__ in Hinit.
    - rewrite (mbind_ret _ _ _ Hret) in Hinit. inversion Hinit. reflexivity.
    - rewrite (mbind_raise _ _ _ Hraise) in Hinit. discriminate Hinit. }
  split.
  - unfold get_qmap_from_cache, mbind, get_cache. rewrite Hcache. reflexivity.
  - apply get_qmap_empty_cache. exact Hcache.
Qed.

Lemma construct_class (configdict : list (string * Conf)) (k : string) (c : pclass)
    (p : Particle) (s s' : state) :
  (forall c conf p, condor_Particle c conf = Ret p -> class_of p = c) ->
  construct configdict k c s = (Ret p, s') -> class_of p = c /\ s' = s.
Proof.
  intros Hclass H. unfold construct, mbind, lift_outcome in H.
  destruct (aget configdict k) as [conf | e |]; try discriminate H.
  destruct (condor_Particle c conf) as [p' | e |] eqn:Hp; try discriminate H.
  inversion H; subst. split; [apply (Hclass _ _ _ Hp) | reflexivity].
Qed.

Lemma aset_well_named (models : list (string * Particle)) (k : string) (p : Particle) :
  Forall well_named models -> well_named (k, p) ->
  Forall well_named (aset models k p).
Proof.
  intros Hall Hk. induction models as [| [k' p'] models IH]; cbn [aset].
  - constructor; [exact Hk | constructor].
  - inversion Hall as [| ? ? Hhead Htail]; subst.
    destruct (String.eqb k k') eqn:Heq.
    + apply String.eqb_eq in Heq. subst k'. constructor; assumption.
    + constructor; [exact Hhead | apply IH; exact Htail].
Qed.

Lemma build_particles_well_named (configdict : list (string * Conf))
    (particle_keys : list string) (models built : list (string * Particle))
    (s s' : state) :
  (forall c conf p, condor_Particle c conf = Ret p -> class_of p = c) ->
  Forall well_named models ->
  build_particles configdict particle_keys models s = (Ret built, s') ->
  Forall well_named built /\ s' = s.
Proof.
  intros Hclass. revert models s.
  induction particle_keys as [| k keys IH]; intros models s Hall H.
  - simpl in H. unfold mret in H. inversion H; subst. split; [exact Hall | reflexivity].
  - cbn [build_particles] in H. unfold mbind at 1 in H.
    match type of H with
    | context [(if String.prefix "particle_sphere" k then ?a else ?b) s] =>
        destruct ((if String.prefix "particle_sphere" k then a else b) s)
          as [[p | e |] s1] eqn:Hp; try discriminate H
    end.
    assert (Hk : well_named (k, p) /\ s1 = s).
    { unfold well_named, model_of_name. cbn [fst snd].
      destruct (String.prefix "particle_sphere" k);
        [destruct (construct_class _ _ _ _ Hclass Hp) as [-> ->]; split; reflexivity |].
      destruct (String.prefix "particle_spheroid" k);
        [destruct (construct_class _ _ _ _ Hclass Hp) as [-> ->]; split; reflexivity |].
      destruct (String.prefix "particle_map" k);
        [destruct (construct_class _ _ _ _ Hclass Hp) as [-> ->]; split; reflexivity |].
      destruct (String.prefix "particle_atoms" k);
        [destruct (construct_class _ _ _ _ Hclass Hp) as [-> ->]; split; reflexivity |].
      discriminate Hp. }
    destruct Hk as [Hk ->].
    apply (IH _ _ (aset_well_named Hall Hk) H).
Qed.

Lemma build_particles_no_result (configdict : list (string * Conf))
    (particle_keys : list string) (k : string) :
  In k particle_keys -> model_of_name k = None ->
  forall models s, no_result (build_particles configdict particle_keys models s).
Proof.
  intros Hin Hk. induction particle_keys as [| k0 keys IH]; [contradiction |].
  intros models s. cbn [build_particles]. apply no_result_bind. intros p s1 Hp.
  destruct Hin as [-> | Hin]; [| apply IH; exact Hin].
  exfalso. unfold model_of_name in Hk.
  destruct (String.prefix "particle_sphere" k); [discriminate Hk |].
  destruct (String.prefix "particle_spheroid" k); [discriminate Hk |].
  destruct (String.prefix "particle_map" k); [discriminate Hk |].
  destruct (String.prefix "particle_atoms" k); [discriminate Hk |].
  discriminate Hp.
Qed.

(** When the source, every particle model and the detector of a
    configuration are constructed, [experiment_from_configdict] returns the
    experiment, its cache empty and nothing logged: the check of the
    constructor of [Experiment] cannot fail on the particle models the
    function builds, provided each model constructor returns an instance of
    its class. The name of every model agrees with its class. *)
Theorem experiment_from_configdict_returns (configdict : list (string * Conf))
    (source_conf detector_conf : Conf) (source : Source) (detector : Detector)
    (models : list (string * Particle)) (s s' : state) :
  (forall c conf p, condor_Particle c conf = Ret p -> class_of p = c) ->
  aget configdict "source" = Ret source_conf ->
  condor_Source source_conf = Ret source ->
  filter (String.prefix "particle") (map fst configdict) <> [] ->
  build_particles configdict (filter (String.prefix "particle") (map fst configdict)) [] s
  = (Ret models, s') ->
  aget configdict "detector" = Ret detector_conf ->
  condor_Detector detector_conf = Ret detector ->
  experiment_from_configdict configdict s
  = (Ret (source, models, detector),
     {| world := world s; _qmap_cache := None; logged := logged s |})
  /\ Forall well_named models.
Proof.
  intros Hclass Hsc Hsource Hkeys Hbuild Hdc Hdetector.
  destruct (build_particles_well_named _ _ _ Hclass (Forall_nil _) Hbuild) as [Hall ->].
  split; [| exact Hall].
  unfold experiment_from_configdict. cbv zeta.
  unfold mbind at 1. unfold lift_outcome at 1. rewrite Hsc.
  unfold mbind at 1. unfold lift_outcome at 1. rewrite Hsource.
  destruct (filter (String.prefix "particle") (map fst configdict)) as [| k keys] eqn:Hk;
    [congruence |].
  cbn [List.length Nat.eqb].
  unfold mbind at 1. unfold mret at 1. cbv iota beta.
  rewrite (mbind_ret _ _ _ Hbuild).
  unfold mbind at 1. unfold lift_outcome at 1. rewrite Hdc.
  unfold mbind at 1. unfold lift_outcome at 1. rewrite Hdetector.
  unfold Experiment__init__.
  destruct (check_particles_cases models s) as [[_ Hret] | [Hnot _]]; [| contradiction].
  unfold mbind at 1. rewrite (mbind_ret _ _ _ Hret). reflexivity.
Qed.

(** What [experiment_from_configdict] refuses: a configuration without a
    section "source" raises [KeyError] before anything else is looked at;
    with a source but no section whose name begins with "particle" the error
    "No particles defined." is logged and raised; and a single section whose
    name begins with "particle" but with none of the four model prefixes
    (such as "particles") keeps the function from returning an experiment,
    whatever the other sections hold. *)
Theorem experiment_from_configdict_rejects (configdict : list (string * Conf)) (s : state) :
  (aget configdict "source" = Raise (KeyError "source") ->
   experiment_from_configdict configdict s = (Raise (KeyError "source"), s))
  /\ (forall source_conf source,
        aget configdict "source" = Ret source_conf ->
        condor_Source source_conf = Ret source ->
        filter (String.prefix "particle") (map fst configdict) = [] ->
        experiment_from_configdict configdict s
        = (Raise (RuntimeError "No particles defined."),
           failed s "No particles defined."))
  /\ (forall k,
        In k (map fst configdict) -> String.prefix "particle" k = true ->
        model_of_name k = None ->
        no_result (experiment_from_configdict configdict s)).
Proof.
  split; [| split].
  - intros Hsc. unfold experiment_from_configdict.
    unfold mbind at 1. unfold lift_outcome at 1. rewrite Hsc. reflexivity.
  - intros source_conf source Hsc Hsource Hkeys. unfold experiment_from_configdict.
    cbv zeta. unfold mbind at 1. unfold lift_outcome at 1. rewrite Hsc.
    unfold mbind at 1. unfold lift_outcome at 1. rewrite Hsource.
    rewrite Hkeys. reflexivity.
  - intros k Hin Hprefix Hk. unfold experiment_from_configdict. cbv zeta.
    apply no_result_bind. intros source_conf s1 _.
    apply no_result_bind. intros source s2 _.
    apply no_result_bind. intros [] s3 _.
    apply no_result_bind. intros models s4 Hbuild.
    exfalso.
    assert (Hink : In k (filter (String.prefix "particle") (map fst configdict)))
      by (apply filter_In; split; assumption).
    pose proof (build_particles_no_result configdict _ k Hink Hk [] s3) as Hno.
    rewrite Hbuild in Hno. exact Hno.
Qed.

(** ** The dimension argument *)

(** A dimension other than 2 or 3 is refused before anything is sampled:
    the error is logged and raised, and neither the source, nor the particle
    models, nor the detector are asked for their next state; the cache is
    not touched. *)
Theorem _propagate_invalid_ndim
    (save_map3d save_qmap : bool) (ndim : Z) (qn : option Z) (qmax : option num)
    (fuel : nat) (s : state) :
  ndim <> 2%Z -> ndim <> 3%Z ->
  _propagate save_map3d save_qmap ndim qn qmax fuel s
  = (Raise (RuntimeError (ndim_message ndim)), failed s (ndim_message ndim)).
Proof.
  intros H2 H3. unfold _propagate.
  apply Z.eqb_neq in H2. apply Z.eqb_neq in H3. rewrite H2, H3. reflexivity.
Qed.

(** ** The warnings of the map kernel *)

Definition dn_map_warning : string :=
  "There are infinite values in the dn map of the object.".

Lemma invalid_positions_message_differs_dn (a : string) :
  (a ++ " invalid pixel positions.")%string <> dn_map_warning.
Proof.
  unfold dn_map_warning. intros H.
  repeat (destruct a as [| ? a]; [discriminate H | simpl in H; injection H as _ H]).
  destruct a; discriminate H.
Qed.

(** A density map with a value that is not finite is reported and the
    kernel goes on: the transform step returns a full array, and the warning
    "There are infinite values in the dn map of the object." is in the
    records it adds to the log exactly when some [abs] of a value of the map
    is not finite. *)
Theorem dn_map_warning_logged (map3d_dn : Map3d) (dx : num) (qmap : Qmap) (s : state) :
  exists (fourier_pattern : Arr) (lg : list log_record),
    map_fourier_pattern map3d_dn dx qmap s
    = (Ret fourier_pattern,
       {| world := world s; _qmap_cache := _qmap_cache s; logged := logged s ++ lg |})
    /\ (In (WARNING, dn_map_warning) lg
        <-> has_nonfinite (map nabs (map3d_values map3d_dn)) = true).
Proof.
  unfold map_fourier_pattern. cbv zeta.
  rewrite (mbind_ret _ _ _ (check_inputs_eq (rescale dx qmap) s)).
  set (samples := if any_invalid (invalid_mask (rescale dx qmap))
                  then zero_invalid (rescale dx qmap) (invalid_mask (rescale dx qmap))
                  else rescale dx qmap) in *.
  set (s1 := {| world := world s; _qmap_cache := _; logged := _ |}).
  unfold mbind at 1. unfold log_debug at 1. rewrite log_ret. cbv iota beta.
  set (s2 := {| world := world s1; _qmap_cache := _; logged := _ |}).
  rewrite (mbind_ret _ _ _ (optional_warning_eq _ _ s2)).
  set (s3 := {| world := world s2; _qmap_cache := _; logged := _ |}).
  unfold mbind at 1. unfold log_debug at 1. rewrite log_ret. cbv iota beta.
  set (s4 := {| world := world s3; _qmap_cache := _; logged := _ |}).
  rewrite (mbind_ret _ _ _ (optional_warning_eq _ _ s4)).
  unfold mbind, log_debug. rewrite log_ret. unfold mret.
  eexists. eexists. split.
  - f_equal. subst s4 s3 s2 s1. cbn [world _qmap_cache logged].
    rewrite <- !app_assoc. reflexivity.
  - fold dn_map_warning.
    destruct (has_nonfinite (map nabs (map3d_values map3d_dn))).
    + split; [reflexivity |]. intros _.
      apply in_or_app. right. right. left. reflexivity.
    + split; [| intros H; discriminate H]. intros Hin. exfalso.
      unfold check_inputs_log in Hin. cbv zeta in Hin.
      repeat (apply in_app_or in Hin; destruct Hin as [Hin | Hin]).
      * destruct (any_invalid (invalid_mask (rescale dx qmap))); [| exact Hin].
        destruct Hin as [Hin | []]. injection Hin as Hin.
        exact (invalid_positions_message_differs_dn _ Hin).
      * destruct Hin as [Hin | []]. discriminate Hin.
      * exact Hin.
      * destruct Hin as [Hin | []]. discriminate Hin.
      * destruct (existsb _ elements); [| exact Hin].
        destruct Hin as [Hin | []]. discriminate Hin.
      * destruct Hin as [Hin | []]. discriminate Hin.
Qed.

(** the pixels with a coordinate out of range *)
Definition invalid_pixels (mask : Idx -> bool * bool * bool) : list Idx :=
  filter (fun i => row_any (mask i)) elements.

Lemma count_invalid_fold (mask : Idx -> bool * bool * bool) (l : list Idx) (n : nat) :
  let step := fun (n : nat) (i : Idx) =>
                let '(m0, m1, m2) := mask i in
                (n + Nat.b2n m0 + Nat.b2n m1 + Nat.b2n m2)%nat in
  (n + List.length (filter (fun i => row_any (mask i)) l) <= fold_left step l n
   /\ fold_left step l n <= n + 3 * List.length (filter (fun i => row_any (mask i)) l))%nat.
Proof.
  cbv zeta. revert n. induction l as [| i l IH]; intros n.
  - simpl. lia.
  - cbn [fold_left filter].
    specialize (IH (let '(m0, m1, m2) := mask i in
                    (n + Nat.b2n m0 + Nat.b2n m1 + Nat.b2n m2)%nat)).
    destruct (mask i) as [[m0 m1] m2].
    destruct m0, m1, m2; cbn [row_any orb Nat.b2n List.length] in *; lia.
Qed.

(** The number in the warning "... invalid pixel positions." counts
    coordinates, not pixels: it lies between the number of pixels with a
    coordinate out of range and three times that number. *)
Theorem count_invalid_bounds (qmap_shaped : Qmap) :
  let mask := invalid_mask qmap_shaped in
  (List.length (invalid_pixels mask) <= count_invalid mask
   /\ count_invalid mask <= 3 * List.length (invalid_pixels mask))%nat.
Proof.
  cbv zeta. unfold count_invalid, invalid_pixels.
  pose proof (count_invalid_fold (invalid_mask qmap_shaped) elements 0) as H.
  cbv zeta in H. lia.
Qed.

(** ** The configuration of an experiment

<<
  def get_conf(self):
      conf = {}
      conf.update(self.source.get_conf())
      for n,p in self.particles.items():
          conf[n] = p.get_conf()
      conf.update(self.detector.get_conf())
      return conf
>> *)

Variable source_get_conf : list (string * Conf).       (* self.source.get_conf() *)
Variable detector_get_conf : list (string * Conf).     (* self.detector.get_conf() *)
Variable particle_get_conf : Particle -> outcome Conf. (* p.get_conf() *)

(** [conf.update(D)] *)
Definition update_dict {V : Type} (conf D : list (string * V)) : list (string * V) :=
  fold_left (fun conf kv => aset conf (fst kv) (snd kv)) D conf.

(** [for n,p in self.particles.items(): conf[n] = p.get_conf()] *)
Fixpoint particle_confs (items : list (string * Particle)) (conf : list (string * Conf))
  : outcome (list (string * Conf)) :=
  match items with
  | [] => Ret conf
  | (n, p) :: items' =>
      (c <-- particle_get_conf p ;;
       particle_confs items' (aset conf n c))%outcome
  end.

Definition get_conf : outcome (list (string * Conf)) :=
  let conf := [] in
  let conf := update_dict conf source_get_conf in
  (conf <-- particle_confs particles conf ;;
   let conf := update_dict conf detector_get_conf in
   Ret conf)%outcome.

(** *** From the configuration back to an experiment *)

Lemma prefix_app_l (a b n : string) :
  String.prefix (a ++ b) n = true -> String.prefix a n = true.
Proof.
  revert n. induction a as [| c a IH]; intros n H.
  - destruct n; reflexivity.
  - destruct n as [| c' n]; [discriminate H |].
    simpl in H |- *. destruct (Ascii.ascii_dec c c'); [| discriminate H].
    apply IH. exact H.
Qed.

Lemma model_name_is_particle (n : string) (c : pclass) :
  model_of_name n = Some c -> String.prefix "particle" n = true.
Proof.
  unfold model_of_name. intros H.
  destruct (String.prefix "particle_sphere" n) eqn:H1;
    [apply (prefix_app_l "particle" "_sphere" n H1) |].
  destruct (String.prefix "particle_spheroid" n) eqn:H2;
    [apply (prefix_app_l "particle" "_spheroid" n H2) |].
  destruct (String.prefix "particle_map" n) eqn:H3;
    [apply (prefix_app_l "particle" "_map" n H3) |].
  destruct (String.prefix "particle_atoms" n) eqn:H4;
    [apply (prefix_app_l "particle" "_atoms" n H4) |].
  discriminate H.
Qed.

Lemma aget_app_fresh {V : Type} (P D : list (string * V)) (k : string) :
  ~ In k (map fst P) -> aget (P ++ D) k = aget D k.
Proof.
  induction P as [| [k' v] P IH]; intros Hfresh; [reflexivity |].
  simpl. destruct (String.eqb k k') eqn:Hk.
  - apply String.eqb_eq in Hk. exfalso. apply Hfresh. left. symmetry. exact Hk.
  - apply IH. intros Hin. apply Hfresh. right. exact Hin.
Qed.

Section RoundTrip.

Local Unset Default Proof Using.

(** the configuration each model reports, and the model built from it *)
Variable conf_of : Particle -> Conf.
Variable rebuilt : Particle -> Particle.
Variable source_conf detector_conf : Conf.
Variable source : Source.
Variable detector : Detector.

Hypothesis source_layout : source_get_conf = [("source", source_conf)].
Hypothesis detector_layout : detector_get_conf = [("detector", detector_conf)].
Hypothesis models_named : Forall well_named particles.
Hypothesis names_unique : NoDup (map fst particles).
Hypothesis models_report :
  forall n p, In (n, p) particles -> particle_get_conf p = Ret (conf_of p).
Hypothesis models_rebuilt :
  forall n p, In (n, p) particles ->
    condor_Particle (class_of p) (conf_of p) = Ret (rebuilt p).
Hypothesis source_rebuilt : condor_Source source_conf = Ret source.
Hypothesis detector_rebuilt : condor_Detector detector_conf = Ret detector.
Hypothesis constructors_typed :
  forall c conf p, condor_Particle c conf = Ret p -> class_of p = c.

Definition model_confs (items : list (string * Particle)) : list (string * Conf) :=
  map (fun item => (fst item, conf_of (snd item))) items.

Definition rebuilt_models (items : list (string * Particle)) : list (string * Particle) :=
  map (fun item => (fst item, rebuilt (snd item))) items.

(** the dictionary [get_conf] returns *)
Definition reported : list (string * Conf) :=
  ("source", source_conf) :: model_confs particles ++ [("detector", detector_conf)].

Lemma model_name_particle (n : string) (p : Particle) :
  In (n, p) particles -> String.prefix "particle" n = true.
Proof.
  intros Hin. pose proof (proj1 (Forall_forall _ _) models_named _ Hin) as Hn.
  apply (model_name_is_particle _ Hn).
Qed.

Lemma model_confs_keys (items : list (string * Particle)) :
  map fst (model_confs items) = map fst items.
Proof. unfold model_confs. rewrite map_map. reflexivity. Qed.

Lemma rebuilt_models_keys (items : list (string * Particle)) :
  map fst (rebuilt_models items) = map fst items.
Proof. unfold rebuilt_models. rewrite map_map. reflexivity. Qed.

Lemma particle_confs_appends (done rest : list (string * Particle)) :
  particles = done ++ rest ->
  ~ In "source" (map fst rest) ->
  particle_confs rest (("source", source_conf) :: model_confs done)
  = Ret (("source", source_conf) :: model_confs particles).
Proof.
  revert done. induction rest as [| [n p] rest IH]; intros done Hsplit Hsource.
  - rewrite app_nil_r in Hsplit. subst done. reflexivity.
  - cbn [particle_confs].
    rewrite (models_report n p)
      by (rewrite Hsplit; apply in_or_app; right; left; reflexivity).
    cbn [obind].
    rewrite aset_fresh.
    + change ((("source", source_conf) :: model_confs done) ++ [(n, conf_of p)])
        with (("source", source_conf) :: (model_confs done ++ [(n, conf_of p)])).
      replace (model_confs done ++ [(n, conf_of p)]) with (model_confs (done ++ [(n, p)]))
        by (unfold model_confs; rewrite map_app; reflexivity).
      apply IH.
      * rewrite Hsplit, <- app_assoc. reflexivity.
      * intros Hin. apply Hsource. right. exact Hin.
    + cbn [map fst]. intros [Heq | Hin].
      * apply Hsource. left. symmetry. exact Heq.
      * rewrite model_confs_keys in Hin.
        pose proof names_unique as Hnodup. rewrite Hsplit, map_app in Hnodup.
        apply NoDup_remove_2 in Hnodup. apply Hnodup.
        apply in_or_app. left. exact Hin.
Qed.

Lemma names_not_reserved (k : string) :
  String.prefix "particle" k = false -> ~ In k (map fst particles).
Proof.
  intros Hk Hin. apply in_map_iff in Hin. destruct Hin as ([n p] & Hn & Hin).
  simpl in Hn. subst n. rewrite (model_name_particle _ _ Hin) in Hk. discriminate Hk.
Qed.

Lemma get_conf_reported : get_conf = Ret reported.
Proof.
  unfold get_conf. cbv zeta. rewrite source_layout, detector_layout.
  cbn [update_dict fold_left aset fst snd].
  change [("source", source_conf)] with (("source", source_conf) :: model_confs []).
  rewrite (@particle_confs_appends [] particles eq_refl)
    by (apply names_not_reserved; reflexivity).
  cbn [obind]. unfold reported.
  rewrite aset_fresh; [reflexivity |].
  cbn [map fst]. intros [Heq | Hin]; [discriminate Heq |].
  rewrite model_confs_keys in Hin.
  exact (names_not_reserved "detector" eq_refl Hin).
Qed.

Lemma reported_particle_keys :
  filter (String.prefix "particle") (map fst reported) = map fst particles.
Proof.
  unfold reported. cbn [map fst filter].
  change (String.prefix "particle" "source") with false. cbv iota.
  rewrite map_app, filter_app, model_confs_keys. cbn [map fst filter].
  change (String.prefix "particle" "detector") with false. cbv iota.
  rewrite app_nil_r.
  assert (Hall : forall l : list (string * Particle),
             (forall item, In item l -> In item particles) ->
             filter (String.prefix "particle") (map fst l) = map fst l).
  { induction l as [| [n p] l IH]; intros Hsub; [reflexivity |].
    cbn [map fst filter].
    rewrite (model_name_particle n p) by (apply Hsub; left; reflexivity).
    rewrite IH; [reflexivity |]. intros item Hin. apply Hsub. right. exact Hin. }
  apply Hall. intros item Hin. exact Hin.
Qed.

Lemma reported_conf (done rest : list (string * Particle)) (n : string) (p : Particle) :
  particles = done ++ (n, p) :: rest ->
  aget reported n = Ret (conf_of p).
Proof.
  intros Hsplit. unfold reported. cbn [aget].
  destruct (String.eqb n "source") eqn:Hs.
  - apply String.eqb_eq in Hs. exfalso.
    apply (names_not_reserved "source" eq_refl).
    rewrite Hsplit, map_app. apply in_or_app. right. left. exact Hs.
  - rewrite Hsplit. unfold model_confs. rewrite map_app, <- app_assoc.
    rewrite aget_app_fresh.
    + cbn [map app aget fst snd]. rewrite String.eqb_refl. reflexivity.
    + rewrite map_map. cbn [fst].
      pose proof names_unique as Hnodup. rewrite Hsplit, map_app in Hnodup.
      apply NoDup_remove_2 in Hnodup. intros Hin. apply Hnodup.
      apply in_or_app. left. exact Hin.
Qed.

Lemma build_particles_rebuilds (done rest : list (string * Particle)) (s : state) :
  particles = done ++ rest ->
  build_particles reported (map fst rest) (rebuilt_models done) s
  = (Ret (rebuilt_models particles), s).
Proof.
  revert done. induction rest as [| [n p] rest IH]; intros done Hsplit.
  - rewrite app_nil_r in Hsplit. subst done. reflexivity.
  - cbn [map fst build_particles].
    assert (Hin : In (n, p) particles)
      by (rewrite Hsplit; apply in_or_app; right; left; reflexivity).
    pose proof (proj1 (Forall_forall _ _) models_named _ Hin) as Hn.
    unfold well_named, model_of_name in Hn. cbn [fst snd] in Hn.
    assert (Hconstruct : forall c, Some c = Some (class_of p) ->
               construct reported n c s = (Ret (rebuilt p), s)).
    { intros c Hc. injection Hc as ->. unfold construct, mbind, lift_outcome.
      rewrite (reported_conf done rest n p Hsplit), (models_rebuilt n p Hin).
      reflexivity. }
    assert (Hp : (if String.prefix "particle_sphere" n then
                    construct reported n ParticleSphere
                  else if String.prefix "particle_spheroid" n then
                    construct reported n ParticleSpheroid
                  else if String.prefix "particle_map" n then
                    construct reported n ParticleMap
                  else if String.prefix "particle_atoms" n then
                    construct reported n ParticleAtoms
                  else log_and_raise_error (not_implemented_message n)) s
                 = (Ret (rebuilt p), s)).
    { destruct (String.prefix "particle_sphere" n); [apply Hconstruct; exact Hn |].
      destruct (String.prefix "particle_spheroid" n); [apply Hconstruct; exact Hn |].
      destruct (String.prefix "particle_map" n); [apply Hconstruct; exact Hn |].
      destruct (String.prefix "particle_atoms" n); [apply Hconstruct; exact Hn |].
      discriminate Hn. }
    rewrite (mbind_ret _ _ _ Hp).
    rewrite aset_fresh.
    + replace (rebuilt_models done ++ [(n, rebuilt p)])
        with (rebuilt_models (done ++ [(n, p)]))
        by (unfold rebuilt_models; rewrite map_app; reflexivity).
      apply IH. rewrite Hsplit, <- app_assoc. reflexivity.
    + rewrite rebuilt_models_keys.
      pose proof names_unique as Hnodup. rewrite Hsplit, map_app in Hnodup.
      apply NoDup_remove_2 in Hnodup. intros Hin'. apply Hnodup.
      apply in_or_app. left. exact Hin'.
Qed.

Lemma rebuilt_well_named : Forall well_named (rebuilt_models particles).
Proof.
  unfold rebuilt_models. apply Forall_forall. intros [n p'] Hin.
  apply in_map_iff in Hin. destruct Hin as ([n0 p] & Heq & Hin).
  cbn [fst snd] in Heq. injection Heq as <- <-.
  pose proof (proj1 (Forall_forall _ _) models_named _ Hin) as Hn.
  unfold well_named in *. cbn [fst snd] in *.
  rewrite (@constructors_typed _ _ _ (@models_rebuilt n0 p Hin)). exact Hn.
Qed.

(** The configuration [get_conf] returns builds the experiment again. When
    the source and the detector report their configuration under the keys
    "source" and "detector", the experiment has at least one particle model,
    and the constructors accept the configurations the collaborators
    report, then [get_conf] returns the source's item, one item per particle
    model under its name, in order, and the detector's item; and
    [experiment_from_configdict] turns this dictionary into an experiment
    with a model of the same class under each of the names, in the same
    order, with an empty cache, logging nothing. *)
Theorem get_conf_round_trip (s : state) :
  particles <> [] ->
  get_conf = Ret reported
  /\ experiment_from_configdict reported s
     = (Ret (source, rebuilt_models particles, detector),
        {| world := world s; _qmap_cache := None; logged := logged s |})
  /\ map fst (rebuilt_models particles) = map fst particles
  /\ map (fun item => class_of (snd item)) (rebuilt_models particles)
     = map (fun item => class_of (snd item)) particles.
Proof.
  intros Hnonempty.
  split; [exact get_conf_reported |].
  split; [| split; [apply rebuilt_models_keys |]].
  - unfold experiment_from_configdict. cbv zeta.
    unfold mbind at 1. unfold lift_outcome at 1.
    change (aget reported "source") with (Ret (A:=Conf) source_conf).
    unfold mbind at 1. unfold lift_outcome at 1. rewrite source_rebuilt.
    rewrite reported_particle_keys.
    assert (Hlen : Nat.eqb (List.length (map fst particles)) 0 = false).
    { destruct particles as [| item rest]; [congruence | reflexivity]. }
    rewrite Hlen.
    unfold mbind at 1. unfold mret at 1. cbv iota beta.
    rewrite (mbind_ret _ _ _ (@build_particles_rebuilds [] particles s eq_refl)).
    unfold mbind at 1. unfold lift_outcome at 1.
    assert (Hdet : aget reported "detector" = Ret detector_conf).
    { unfold reported. cbn [aget].
      change (String.eqb "detector" "source") with false. cbv iota.
      rewrite aget_app_fresh.
      - cbn [aget]. rewrite String.eqb_refl. reflexivity.
      - rewrite model_confs_keys. apply names_not_reserved. reflexivity. }
    rewrite Hdet.
    unfold mbind at 1. unfold lift_outcome at 1. rewrite detector_rebuilt.
    unfold Experiment__init__.
    destruct (check_particles_cases (rebuilt_models particles) s)
      as [[_ Hret] | [Hnot _]]; [| exfalso; apply Hnot; exact rebuilt_well_named].
    unfold mbind at 1. rewrite (mbind_ret _ _ _ Hret). reflexivity.
  - unfold rebuilt_models. rewrite map_map. apply map_ext_in. intros [n p] Hin.
    cbn [fst snd]. apply (@constructors_typed _ _ _ (@models_rebuilt n p Hin)).
Qed.

End RoundTrip.

End Engine.

(** * The diagnostics of an experiment: [get_resolution] and
    [get_linear_sampling_ratio] *)

(** What a call can raise: an exception of the engine, or the failure to
    resolve a name or to apply an operation to a value of the wrong type. *)
Inductive raised : Type :=
| Raised (e : exn)
| NameError (name : string)
| TypeError (msg : string).

(** The names bound at the top level of [condor/experiment.py]: what its
    [import] statements, its assignment to [logger] and its [def] and
    [class] statements bind. An [import condor.utils.config] binds [condor]
    alone. *)
Definition module_globals : list string :=
  ["print_function"; "absolute_import"; "numpy"; "os"; "sys"; "copy"; "logging";
   "logger"; "log"; "log_execution_time"; "log_and_raise_error"; "log_warning";
   "log_info"; "log_debug"; "condor"; "PixelMask"; "Rotation";
   "experiment_from_configfile"; "experiment_from_configdict"; "Experiment";
   "remove_from_dict"].

(** A name a method reads without assigning it is looked up among the
    globals of the module ([utils] is no builtin). *)
Definition bound (name : string) : bool := existsb (String.eqb name) module_globals.

Section Diagnostics.

Context {num : Type} {arith : NpArith num}.

Variable Particle : Type.

(** A method runs on the log. *)
Definition DM (A : Type) : Type := list log_record -> (A + raised) * list log_record.

Definition dret {A : Type} (a : A) : DM A := fun lg => (inl a, lg).

Definition dbind {A B : Type} (c : DM A) (k : A -> DM B) : DM B :=
  fun lg =>
    match c lg with
    | (inl a, lg') => k a lg'
    | (inr e, lg') => (inr e, lg')
    end.

Definition draise {A : Type} (e : raised) : DM A := fun lg => (inr e, lg).

Definition dlift {A : Type} (r : A + raised) : DM A := fun lg => (r, lg).

(** [log_and_raise_error], as in the engine *)
Definition dlog_and_raise_error {A : Type} (msg : string) : DM A :=
  fun lg => (inr (Raised (RuntimeError msg)), lg ++ [(ERROR, msg)]).

Local Notation "x <- c ;; k" := (dbind c (fun x => k))
  (at level 61, c at next level, right associativity).

(** the collaborators *)
Variable source_photon_get_wavelength : num + raised.
Variable detector_get_resolution_element_x : num -> option num -> option num -> num.
Variable detector_get_resolution_element_y : num -> option num -> option num -> num.
Variable detector_distance : num.
Variable detector_pixel_size : num.
Variable particles : list (string * Particle).        (* self.particles *)
Variable diameter_mean_of : Particle -> option num + raised.  (* p.diameter_mean *)
(** the interpreter: [dict.values()] is a list in Python 2 and a view that
    cannot be indexed in Python 3 *)
Variable python3 : bool.
(** what [utils.diffraction.nyquist_pixel_size] would be, were [utils] bound *)
Variable nyquist_pixel_size : num -> num -> option num -> num.

Definition default_wavelength (wavelength : option num) : DM num :=
  match wavelength with
  | None => dlift source_photon_get_wavelength
  | Some w => dret w
  end.

Definition convention_message (convention : string) : string :=
  "Invalid input: convention=" ++ convention ++ ". Must be either "
  ++ dquote ++ "full_period" ++ dquote ++ " or " ++ dquote ++ "half_period" ++ dquote
  ++ ".".

(**
<<
  def get_resolution(self, wavelength = None, cx = None, cy = None, pos="corner", convention="full_period"):
      if wavelength is None:
          wavelength = self.source.photon.get_wavelength()
      dx = self.detector.get_resolution_element_x(wavelength, cx=cx, cy=cy)
      dy = self.detector.get_resolution_element_y(wavelength, cx=cx, cy=cy)
      dxdy = numpy.array([dx, dy])
      if convention == "full_period":
          return dxdy*2
      elif convention == "half_period":
          return dxdy
      else:
          log_and_raise_error(logger, "Invalid input: convention=%s. ..." % convention)
          return
>> *)
Definition get_resolution (wavelength cx cy : option num) (pos convention : string)
  : DM (num * num) :=
  wavelength <- default_wavelength wavelength ;;
  let dx := detector_get_resolution_element_x wavelength cx cy in
  let dy := detector_get_resolution_element_y wavelength cx cy in
  let dxdy := (dx, dy) in
  if String.eqb convention "full_period" then
    dret (nmul (fst dxdy) (flt 2), nmul (snd dxdy) (flt 2))
  else if String.eqb convention "half_period" then dret dxdy
  else dlog_and_raise_error (convention_message convention).

Definition particle_key_message : string :=
  "You need to specify a particle_key because there are more than one particle models.".

(** [p = self.particles.values()[0]] *)
Definition first_particle : DM Particle :=
  if python3 then draise (TypeError "'dict_values' object is not subscriptable")
  else match particles with
       | (_, p) :: _ => dret p
       | [] => draise (Raised (IndexError "list index out of range"))
       end.

(**
<<
  def get_linear_sampling_ratio(self, wavelength = None, particle_diameter = None, particle_key = None):
      if wavelength is None:
          wavelength = self.source.photon.get_wavelength()
      detector_distance = self.detector.distance
      if particle_diameter is None:
          if len(self.particles) == 1:
              p = self.particles.values()[0]
          elif particle_key is None:
              log_and_raise_error(logger, "You need to specify a particle_key because there are more than one particle models.")
          else:
              p = self.particles[particle_key]
          particle_diameter = p.diameter_mean
      pN = utils.diffraction.nyquist_pixel_size(wavelength, detector_distance, particle_diameter)
      pD = self.detector.pixel_size
      ratio = pN/pD
      return ratio
>> *)
Definition get_linear_sampling_ratio (wavelength particle_diameter : option num)
    (particle_key : option string) : DM num :=
  wavelength <- default_wavelength wavelength ;;
  let detector_distance := detector_distance in
  particle_diameter <-
    match particle_diameter with
    | Some d => dret (Some d)
    | None =>
        p <- (if Nat.eqb (List.length particles) 1 then first_particle
              else match particle_key with
                   | None => dlog_and_raise_error particle_key_message
                   | Some k =>
                       match find (fun kv => String.eqb k (fst kv)) particles with
                       | Some (_, p) => dret p
                       | None => draise (Raised (KeyError k))
                       end
                   end) ;;
        dlift (diameter_mean_of p)
    end ;;
  pN <- (if bound "utils"
         then dret (nyquist_pixel_size wavelength detector_distance particle_diameter)
         else draise (NameError "utils")) ;;
  let pD := detector_pixel_size in
  let ratio := ndiv pN pD in
  dret ratio.

(** ** Properties *)

(** The resolution in the full-period convention is twice, component by
    component, the resolution in the half-period convention, and a call in
    either convention raises exactly what the other raises; the argument
    [pos] has no effect on the result; any other convention ends in an
    exception, never in a result. *)
Theorem get_resolution_conventions (wavelength cx cy : option num) (pos pos' : string)
    (lg : list log_record) :
  get_resolution wavelength cx cy pos "full_period" lg
  = match get_resolution wavelength cx cy pos' "half_period" lg with
    | (inl (dx, dy), lg') => (inl (nmul dx (flt 2), nmul dy (flt 2)), lg')
    | (inr e, lg') => (inr e, lg')
    end
  /\ forall convention,
       convention <> "full_period" -> convention <> "half_period" ->
       exists e lg', get_resolution wavelength cx cy pos convention lg = (inr e, lg').
Proof.
  unfold get_resolution, dbind. split.
  - destruct (default_wavelength wavelength lg) as [[w | e] lg']; reflexivity.
  - intros convention Hfull Hhalf.
    destruct (default_wavelength wavelength lg) as [[w | e] lg'].
    + cbv zeta.
      destruct (String.eqb convention "full_period") eqn:H1;
        [apply String.eqb_eq in H1; contradiction |].
      destruct (String.eqb convention "half_period") eqn:H2;
        [apply String.eqb_eq in H2; contradiction |].
      eexists. eexists. reflexivity.
    + eexists. eexists. reflexivity.
Qed.

(** [get_linear_sampling_ratio] never returns a ratio: the name [utils] it
    reads to compute the Nyquist pixel size is not bound in the module, so
    every call that gets that far raises [NameError], and a call that does
    not has raised before. With the wavelength and the particle diameter
    given, the call raises the [NameError] at once and logs nothing. *)
Theorem get_linear_sampling_ratio_never_returns
    (wavelength particle_diameter : option num) (particle_key : option string)
    (lg : list log_record) :
  (exists e lg', get_linear_sampling_ratio wavelength particle_diameter particle_key lg
                 = (inr e, lg'))
  /\ forall w d,
       get_linear_sampling_ratio (Some w) (Some d) particle_key lg
       = (inr (NameError "utils"), lg).
Proof.
  split; [| reflexivity].
  unfold get_linear_sampling_ratio. cbv zeta.
  change (bound "utils") with false. cbv iota.
  unfold dbind at 1.
  destruct (default_wavelength wavelength lg) as [[w | e] lg1];
    [| eexists; eexists; reflexivity].
  unfold dbind at 1.
  match goal with |- context [match ?c lg1 with _ => _ end] =>
    destruct (c lg1) as [[d | e] lg2]
  end.
  - eexists. eexists. reflexivity.
  - eexists. eexists. reflexivity.
Qed.

End Diagnostics.

(** * The legacy interface: class [Output] of [src/condor.py] *)

Section LegacyOutput.

Context {num : Type} {arith : NpArith num} {nonfinite : NpNonFinite num}.

(** An image is the list of its complex pixel values; [self.amplitudes] is
    the array of the images. *)
Definition Image : Type := list num.

Variable Pattern : Type.
(** [self.input_object.detector.detect_photons] *)
Variable detect_photons : Image -> Pattern.
(** [numpy.fft.fftshift(numpy.fft.ifftn(numpy.fft.fftshift(.)))] *)
Variable back_propagate : Image -> Image.

(** The position an index along the first axis stands for: a negative
    index counts from the end. *)
Definition resolve (n : nat) (i : Z) : option nat :=
  let j := if Z.ltb i 0 then (i + Z.of_nat n)%Z else i in
  if Z.ltb j 0 || Z.leb (Z.of_nat n) j then None else Some (Z.to_nat j).

Definition out_of_bounds (n : nat) (i : Z) : exn :=
  IndexError ("index " ++ fmt_Z i ++ " is out of bounds for axis 0 with size " ++ fmt_i n).

(** [self.amplitudes[i]] *)
Definition amplitudes_getitem (amplitudes : list Image) (i : Z) : outcome Image :=
  match resolve (List.length amplitudes) i with
  | Some j =>
      match nth_error amplitudes j with
      | Some A => Ret A
      | None => Raise (out_of_bounds (List.length amplitudes) i)
      end
  | None => Raise (out_of_bounds (List.length amplitudes) i)
  end.

(** the image [j] of the array overwritten *)
Fixpoint overwrite (amplitudes : list Image) (j : nat) (A : Image) : list Image :=
  match amplitudes, j with
  | [], _ => []
  | _ :: rest, O => A :: rest
  | A0 :: rest, S j' => A0 :: overwrite rest j' A
  end.

(** [A[numpy.isfinite(A)==False] = 0.] *)
Definition zero_nonfinite (A : Image) : Image :=
  map (fun x => if Bool.eqb (nisfinite x) false then flt 0 else x) A.

(**
<<
  def get_intensity_pattern(self,i=0):
      return self.input_object.detector.detect_photons(abs(self.amplitudes[i])**2)
>> *)
Definition get_intensity_pattern (i : Z) (amplitudes : list Image) : outcome Pattern :=
  (A <-- amplitudes_getitem amplitudes i ;;
   Ret (detect_photons (map (fun x => npow (nabs x) 2) A)))%outcome.

(**
<<
  def get_real_space_image(self,i=0):
      A = self.amplitudes[i]
      A[numpy.isfinite(A)==False] = 0.
      return numpy.fft.fftshift(numpy.fft.ifftn(numpy.fft.fftshift(self.amplitudes[i])))
>>
    [A] is a view of the array: the assignment changes [self.amplitudes].
    The result pairs the outcome with the amplitudes afterwards. *)
Definition get_real_space_image (i : Z) (amplitudes : list Image)
  : outcome Image * list Image :=
  match amplitudes_getitem amplitudes i, resolve (List.length amplitudes) i with
  | Ret A, Some j =>
      let amplitudes := overwrite amplitudes j (zero_nonfinite A) in
      match amplitudes_getitem amplitudes i with
      | Ret A' => (Ret (back_propagate A'), amplitudes)
      | Raise e => (Raise e, amplitudes)
      | Unfinished => (Unfinished, amplitudes)
      end
  | Ret A, None => (Raise (out_of_bounds (List.length amplitudes) i), amplitudes)
  | Raise e, _ => (Raise e, amplitudes)
  | Unfinished, _ => (Unfinished, amplitudes)
  end.

(** ** Properties *)

Lemma overwrite_length (amplitudes : list Image) (j : nat) (A : Image) :
  List.length (overwrite amplitudes j A) = List.length amplitudes.
Proof.
  revert j. induction amplitudes as [| A0 rest IH]; intros j; [reflexivity |].
  destruct j; simpl; [reflexivity | rewrite IH; reflexivity].
Qed.

Lemma overwrite_same (amplitudes : list Image) (j : nat) (A : Image) :
  (j < List.length amplitudes)%nat -> nth_error (overwrite amplitudes j A) j = Some A.
Proof.
  revert j. induction amplitudes as [| A0 rest IH]; intros j Hj; [simpl in Hj; lia |].
  destruct j; simpl; [reflexivity | apply IH; simpl in Hj; lia].
Qed.

Lemma overwrite_other (amplitudes : list Image) (j k : nat) (A : Image) :
  k <> j -> nth_error (overwrite amplitudes j A) k = nth_error amplitudes k.
Proof.
  revert j k. induction amplitudes as [| A0 rest IH]; intros j k Hk; [reflexivity |].
  destruct j, k; simpl; try reflexivity; [lia | apply IH; lia].
Qed.

Lemma zero_nonfinite_idempotent (A : Image) :
  zero_nonfinite (zero_nonfinite A) = zero_nonfinite A.
Proof.
  unfold zero_nonfinite. rewrite map_map. apply map_ext. intros x.
  destruct (nisfinite x) eqn:Hx; simpl.
  - rewrite Hx. reflexivity.
  - destruct (Bool.eqb (nisfinite (flt 0)) false); reflexivity.
Qed.

Lemma resolve_bound (n : nat) (i : Z) (j : nat) : resolve n i = Some j -> (j < n)%nat.
Proof.
  unfold resolve. cbv zeta.
  destruct (Z.ltb i 0) eqn:Hneg;
    match goal with |- context [if ?c then _ else _] => destruct c eqn:Hc end;
    intros H; inversion H; subst;
    apply orb_false_iff in Hc; destruct Hc as [H1 H2];
    apply Z.ltb_ge in H1; apply Z.leb_gt in H2; lia.
Qed.

(** Asking for the real-space image of a shot changes the stored
    amplitudes of that shot: every value that is not finite is replaced by
    0 in [self.amplitudes] itself, the other shots are left alone. The image
    returned is computed from the replaced values, an intensity pattern
    asked for afterwards is too, and a second call returns the same image
    and changes nothing more. An index out of range raises [IndexError] and
    changes nothing. *)
Theorem get_real_space_image_overwrites (i : Z) (amplitudes : list Image) :
  match resolve (List.length amplitudes) i with
  | Some j =>
      exists A,
        nth_error amplitudes j = Some A
        /\ let amplitudes' := overwrite amplitudes j (zero_nonfinite A) in
           get_real_space_image i amplitudes
           = (Ret (back_propagate (zero_nonfinite A)), amplitudes')
           /\ nth_error amplitudes' j = Some (zero_nonfinite A)
           /\ (forall k, k <> j -> nth_error amplitudes' k = nth_error amplitudes k)
           /\ get_intensity_pattern i amplitudes'
              = Ret (detect_photons (map (fun x => npow (nabs x) 2) (zero_nonfinite A)))
           /\ get_real_space_image i amplitudes'
              = (Ret (back_propagate (zero_nonfinite A)), amplitudes')
  | None =>
      get_real_space_image i amplitudes
      = (Raise (out_of_bounds (List.length amplitudes) i), amplitudes)
  end.
Proof.
  destruct (resolve (List.length amplitudes) i) as [j |] eqn:Hres.
  - pose proof (resolve_bound _ _ Hres) as Hj.
    destruct (nth_error amplitudes j) as [A |] eqn:HA;
      [| apply nth_error_None in HA; lia].
    exists A. split; [reflexivity |]. cbv zeta.
    assert (Hget : amplitudes_getitem amplitudes i = Ret A)
      by (unfold amplitudes_getitem; rewrite Hres, HA; reflexivity).
    assert (Hget' : forall B,
               amplitudes_getitem (overwrite amplitudes j B) i = Ret B).
    { intros B. unfold amplitudes_getitem.
      rewrite overwrite_length, Hres, (overwrite_same _ _ Hj). reflexivity. }
    assert (Hcall : get_real_space_image i amplitudes
                    = (Ret (back_propagate (zero_nonfinite A)),
                       overwrite amplitudes j (zero_nonfinite A))).
    { unfold get_real_space_image. rewrite Hget, Hres. cbv zeta.
      rewrite Hget'. reflexivity. }
    split; [exact Hcall |].
    split; [apply overwrite_same; exact Hj |].
    split; [intros k Hk; apply overwrite_other; exact Hk |].
    split.
    + unfold get_intensity_pattern. rewrite Hget'. reflexivity.
    + unfold get_real_space_image. rewrite Hget', overwrite_length, Hres. cbv zeta.
      rewrite zero_nonfinite_idempotent.
      assert (Hagain : overwrite (overwrite amplitudes j (zero_nonfinite A)) j
                         (zero_nonfinite A)
                       = overwrite amplitudes j (zero_nonfinite A)).
      { clear. revert j. induction amplitudes as [| A0 rest IH]; intros j; [reflexivity |].
        destruct j; simpl; [reflexivity | rewrite IH; reflexivity]. }
      rewrite Hagain, Hget'. reflexivity.
  - unfold get_real_space_image, amplitudes_getitem. rewrite Hres. reflexivity.
Qed.

(** ** Writing the shots: [Output.write]

<<
  def write(self,filename="out.cxi",output_intensities=True,output_euler_angles=True,output_fourier_space=False,output_real_space=False,noise=lambda x: x):
      if filename[-len(".cxi"):] == ".cxi":
          W = cxitools.CXIWriter(filename,self.N,logger)
          for i in range(0,self.N):
              O = {}
              if output_intensities:
                  O["/entry_1/data_1/intensities"] = noise(self.get_intensity_pattern(i))
              if output_euler_angles:
                  O["/entry_1/data_1/sample_euler_angle_0"] = self.sample_euler_angle_0[i]
                  O["/entry_1/data_1/sample_euler_angle_1"] = self.sample_euler_angle_1[i]
                  O["/entry_1/data_1/sample_euler_angle_2"] = self.sample_euler_angle_2[i]
              if output_real_space:
                  O["/entry_1/data_1/real_space"] = self.get_real_space_image(i)
              if output_fourier_space:
                  O["/entry_1/data_1/fourier_space"] = self.amplitudes[i,:,:]
              W.write(O,i=i)
          W.close()
      else:
          logger.error("Illegal file format chosen.")
>> *)

(** How a call ends: it returns, it raises, or it is the [Unfinished] call
    of a loop out of fuel (the calls of [write] have no such loop). *)
Inductive answer (A : Type) : Type :=
| Returns (a : A)
| Raises (e : raised)
| Unsettled.

Arguments Returns {A} a.
Arguments Raises {A} e.
Arguments Unsettled {A}.

Definition of_outcome {A : Type} (r : outcome A) : answer A :=
  match r with
  | Ret a => Returns a
  | Raise e => Raises (Raised e)
  | Unfinished => Unsettled
  end.

(** The values of the dictionary [O] of a shot. *)
Inductive entry : Type :=
| Intensities (pattern : Pattern)
| Angle (x : num)
| RealSpace (image : Image)
| FourierSpace (image : Image).

(** The calls the writer receives; the writer is a collaborator, its calls
    are recorded in their order. *)
Inductive writer_call : Type :=
| CXIWriter (filename : string) (N : nat)
| W_write (O : list (string * entry)) (i : nat)
| W_close.

(** The attributes of the instance that [write] reads and that never
    change: [self.N] and the three sequences of angles, [None] where the
    result of the propagation had no such item. *)
Record OutputAttrs : Type := {
  Output_N : nat;
  sample_euler_angle_0 : option (list num);
  sample_euler_angle_1 : option (list num);
  sample_euler_angle_2 : option (list num)
}.

(** What [write] changes: [self.amplitudes], the calls the writer has
    received and the log. *)
Record OutputState : Type := {
  Output_amplitudes : list Image;
  writer_calls : list writer_call;
  Output_logged : list log_record
}.

(** what indexing a sequence of angles out of its range raises: an
    [IndexError] whose message depends on the type of the sequence *)
Variable angle_index_error : nat -> nat -> exn.
Variable noise : Pattern -> Pattern.

(** [self.sample_euler_angle_k[i]] for [i] of [range(0,self.N)]. The module
    imports [ConfigParser], it runs under Python 2, where subscripting
    [None] raises this [TypeError]. *)
Definition angle_getitem (angles : option (list num)) (i : nat) : answer num :=
  match angles with
  | None => Raises (TypeError "'NoneType' object has no attribute '__getitem__'")
  | Some a =>
      match nth_error a i with
      | Some x => Returns x
      | None => Raises (Raised (angle_index_error (List.length a) i))
      end
  end.

(** A step of the loop body runs on [self.amplitudes]. *)
Definition SM (A : Type) : Type := list Image -> answer A * list Image.

Definition sret {A : Type} (a : A) : SM A := fun amplitudes => (Returns a, amplitudes).

Definition sbind {A B : Type} (c : SM A) (k : A -> SM B) : SM B :=
  fun amplitudes =>
    match c amplitudes with
    | (Returns a, amplitudes') => k a amplitudes'
    | (Raises e, amplitudes') => (Raises e, amplitudes')
    | (Unsettled, amplitudes') => (Unsettled, amplitudes')
    end.

(** a step that reads [self.amplitudes] *)
Definition sread {A : Type} (f : list Image -> outcome A) : SM A :=
  fun amplitudes => (of_outcome (f amplitudes), amplitudes).

(** a step that may change [self.amplitudes] *)
Definition scall {A : Type} (f : list Image -> outcome A * list Image) : SM A :=
  fun amplitudes => (of_outcome (fst (f amplitudes)), snd (f amplitudes)).

Definition slift {A : Type} (r : answer A) : SM A := fun amplitudes => (r, amplitudes).

Local Notation "x <~ c ;; k" := (sbind c (fun x => k))
  (at level 61, c at next level, right associativity).

(** the body of the loop up to the call of [W.write] *)
Definition shot_dict (attrs : OutputAttrs)
    (output_intensities output_euler_angles output_fourier_space output_real_space : bool)
    (i : nat) : SM (list (string * entry)) :=
  let O := [] in
  O <~ (if output_intensities then
          pattern <~ sread (get_intensity_pattern (Z.of_nat i)) ;;
          sret (aset O "/entry_1/data_1/intensities" (Intensities (noise pattern)))
        else sret O) ;;
  O <~ (if output_euler_angles then
          a0 <~ slift (angle_getitem (sample_euler_angle_0 attrs) i) ;;
          let O := aset O "/entry_1/data_1/sample_euler_angle_0" (Angle a0) in
          a1 <~ slift (angle_getitem (sample_euler_angle_1 attrs) i) ;;
          let O := aset O "/entry_1/data_1/sample_euler_angle_1" (Angle a1) in
          a2 <~ slift (angle_getitem (sample_euler_angle_2 attrs) i) ;;
          let O := aset O "/entry_1/data_1/sample_euler_angle_2" (Angle a2) in
          sret O
        else sret O) ;;
  O <~ (if output_real_space then
          image <~ scall (get_real_space_image (Z.of_nat i)) ;;
          sret (aset O "/entry_1/data_1/real_space" (RealSpace image))
        else sret O) ;;
  O <~ (if output_fourier_space then
          image <~ sread (fun amplitudes => amplitudes_getitem amplitudes (Z.of_nat i)) ;;
          sret (aset O "/entry_1/data_1/fourier_space" (FourierSpace image))
        else sret O) ;;
  sret O.

(** [for i in range(0,self.N): ... W.write(O,i=i)] *)
Fixpoint write_shots (attrs : OutputAttrs)
    (output_intensities output_euler_angles output_fourier_space output_real_space : bool)
    (shots : list nat) (s : OutputState) : answer unit * OutputState :=
  match shots with
  | [] => (Returns tt, s)
  | i :: shots' =>
      match shot_dict attrs output_intensities output_euler_angles output_fourier_space
              output_real_space i (Output_amplitudes s) with
      | (Returns shot, amplitudes) =>
          write_shots attrs output_intensities output_euler_angles output_fourier_space
            output_real_space shots'
            {| Output_amplitudes := amplitudes;
               writer_calls := writer_calls s ++ [W_write shot i];
               Output_logged := Output_logged s |}
      | (Raises e, amplitudes) =>
          (Raises e, {| Output_amplitudes := amplitudes;
                        writer_calls := writer_calls s;
                        Output_logged := Output_logged s |})
      | (Unsettled, amplitudes) =>
          (Unsettled, {| Output_amplitudes := amplitudes;
                         writer_calls := writer_calls s;
                         Output_logged := Output_logged s |})
      end
  end.

(** [filename[-n:]] for [n > 0]: the last [n] characters, or all of them *)
Definition last_characters (n : nat) (filename : string) : string :=
  String.substring (String.length filename - n) n filename.

Definition write (attrs : OutputAttrs) (filename : string)
    (output_intensities output_euler_angles output_fourier_space output_real_space : bool)
    (s : OutputState) : answer unit * OutputState :=
  if String.eqb (last_characters (String.length ".cxi") filename) ".cxi" then
    let s := {| Output_amplitudes := Output_amplitudes s;
                writer_calls := writer_calls s ++ [CXIWriter filename (Output_N attrs)];
                Output_logged := Output_logged s |} in
    match write_shots attrs output_intensities output_euler_angles output_fourier_space
            output_real_space (seq 0 (Output_N attrs)) s with
    | (Returns _, s') =>
        (Returns tt, {| Output_amplitudes := Output_amplitudes s';
                        writer_calls := writer_calls s' ++ [W_close];
                        Output_logged := Output_logged s' |})
    | (Raises e, s') => (Raises e, s')
    | (Unsettled, s') => (Unsettled, s')
    end
  else
    (Returns tt, {| Output_amplitudes := Output_amplitudes s;
                    writer_calls := writer_calls s;
                    Output_logged := Output_logged s ++ [(ERROR, "Illegal file format chosen.")] |}).

(** *** Properties of [write] *)

(** the angle a sequence holds for the shot [i] *)
Definition angle_at (angles : option (list num)) (i : nat) : num :=
  match angles with
  | Some a => nth i a (flt 0)
  | None => flt 0
  end.

(** the sequence of angles is there and has an item for each of [n] shots *)
Definition covers (angles : option (list num)) (n : nat) : Prop :=
  exists a, angles = Some a /\ (n <= List.length a)%nat.

(** The dictionary of the shot [i], in terms of the amplitudes [A] the shot
    had when [write] was called. *)
Definition written_for (attrs : OutputAttrs)
    (output_intensities output_euler_angles output_fourier_space output_real_space : bool)
    (i : nat) (A : Image) : list (string * entry) :=
  (if output_intensities then
     [("/entry_1/data_1/intensities",
       Intensities (noise (detect_photons (map (fun x => npow (nabs x) 2) A))))]
   else [])
  ++ (if output_euler_angles then
        [("/entry_1/data_1/sample_euler_angle_0", Angle (angle_at (sample_euler_angle_0 attrs) i));
         ("/entry_1/data_1/sample_euler_angle_1", Angle (angle_at (sample_euler_angle_1 attrs) i));
         ("/entry_1/data_1/sample_euler_angle_2", Angle (angle_at (sample_euler_angle_2 attrs) i))]
      else [])
  ++ (if output_real_space then
        [("/entry_1/data_1/real_space", RealSpace (back_propagate (zero_nonfinite A)))]
      else [])
  ++ (if output_fourier_space then
        [("/entry_1/data_1/fourier_space",
          FourierSpace (if output_real_space then zero_nonfinite A else A))]
      else []).

(** the calls [W.write] of the shots from [first] on *)
Definition shot_calls (attrs : OutputAttrs)
    (output_intensities output_euler_angles output_fourier_space output_real_space : bool)
    (first : nat) (amplitudes : list Image) : list writer_call :=
  map (fun shot => W_write (written_for attrs output_intensities output_euler_angles
                              output_fourier_space output_real_space (fst shot) (snd shot))
                     (fst shot))
    (combine (seq first (List.length amplitudes)) amplitudes).

Lemma resolve_nat (n i : nat) : (i < n)%nat -> resolve n (Z.of_nat i) = Some i.
Proof.
  intros Hi. unfold resolve. cbv zeta.
  assert (Hneg : Z.ltb (Z.of_nat i) 0 = false) by (apply Z.ltb_ge; lia).
  assert (Hle : Z.leb (Z.of_nat n) (Z.of_nat i) = false) by (apply Z.leb_gt; lia).
  rewrite !Hneg, Hle. cbn [orb]. rewrite Nat2Z.id. reflexivity.
Qed.

Lemma amplitudes_getitem_mid (pre post : list Image) (A : Image) :
  amplitudes_getitem (pre ++ A :: post) (Z.of_nat (List.length pre)) = Ret A.
Proof.
  unfold amplitudes_getitem.
  rewrite resolve_nat by (rewrite length_app; simpl; lia).
  rewrite nth_error_app2 by lia. rewrite Nat.sub_diag. reflexivity.
Qed.

Lemma overwrite_mid (pre post : list Image) (A B : Image) :
  overwrite (pre ++ A :: post) (List.length pre) B = pre ++ B :: post.
Proof.
  induction pre as [| A0 pre IH]; [reflexivity |].
  simpl. rewrite IH. reflexivity.
Qed.

Lemma get_real_space_image_mid (pre post : list Image) (A : Image) :
  get_real_space_image (Z.of_nat (List.length pre)) (pre ++ A :: post)
  = (Ret (back_propagate (zero_nonfinite A)), pre ++ zero_nonfinite A :: post).
Proof.
  unfold get_real_space_image.
  rewrite amplitudes_getitem_mid.
  rewrite resolve_nat by (rewrite length_app; simpl; lia).
  cbv zeta. rewrite overwrite_mid, amplitudes_getitem_mid. reflexivity.
Qed.

Lemma angle_getitem_covered (angles : option (list num)) (n i : nat) :
  covers angles n -> (i < n)%nat ->
  angle_getitem angles i = Returns (angle_at angles i).
Proof.
  intros (a & -> & Hn) Hi. unfold angle_getitem, angle_at.
  destruct (nth_error a i) as [x |] eqn:Hx.
  - rewrite (nth_error_nth _ _ _ Hx). reflexivity.
  - apply nth_error_None in Hx. lia.
Qed.

(** the body of the loop for the shot after [pre] *)
Lemma shot_dict_mid (attrs : OutputAttrs)
    (output_intensities output_euler_angles output_fourier_space output_real_space : bool)
    (n : nat) (pre post : list Image) (A : Image) :
  (output_euler_angles = true ->
   covers (sample_euler_angle_0 attrs) n /\ covers (sample_euler_angle_1 attrs) n
   /\ covers (sample_euler_angle_2 attrs) n) ->
  (List.length pre < n)%nat ->
  shot_dict attrs output_intensities output_euler_angles output_fourier_space
    output_real_space (List.length pre) (pre ++ A :: post)
  = (Returns (written_for attrs output_intensities output_euler_angles output_fourier_space
                output_real_space (List.length pre) A),
     pre ++ (if output_real_space then zero_nonfinite A else A) :: post).
Proof.
  intros Hangles Hi.
  unfold shot_dict, written_for, sbind, sread, scall, slift, sret,
    get_intensity_pattern.
  cbv zeta.
  destruct output_intensities, output_euler_angles, output_real_space,
    output_fourier_space;
    try (destruct (Hangles eq_refl) as (H0 & H1 & H2);
         rewrite !(angle_getitem_covered H0 Hi), !(angle_getitem_covered H1 Hi),
           !(angle_getitem_covered H2 Hi));
    repeat (progress (rewrite ?amplitudes_getitem_mid, ?get_real_space_image_mid;
                      cbn [obind of_outcome fst snd]));
    reflexivity.
Qed.

Lemma write_shots_from (attrs : OutputAttrs)
    (output_intensities output_euler_angles output_fourier_space output_real_space : bool)
    (n : nat) (post pre : list Image) (calls : list writer_call) (lg : list log_record) :
  (output_euler_angles = true ->
   covers (sample_euler_angle_0 attrs) n /\ covers (sample_euler_angle_1 attrs) n
   /\ covers (sample_euler_angle_2 attrs) n) ->
  (List.length pre + List.length post <= n)%nat ->
  write_shots attrs output_intensities output_euler_angles output_fourier_space
    output_real_space (seq (List.length pre) (List.length post))
    {| Output_amplitudes := pre ++ post; writer_calls := calls; Output_logged := lg |}
  = (Returns tt,
     {| Output_amplitudes :=
          pre ++ (if output_real_space then map zero_nonfinite post else post);
        writer_calls :=
          calls ++ shot_calls attrs output_intensities output_euler_angles
                     output_fourier_space output_real_space (List.length pre) post;
        Output_logged := lg |}).
Proof.
  intros Hangles. revert pre calls.
  induction post as [| A post IH]; intros pre calls Hn.
  - cbn [List.length seq write_shots shot_calls combine map].
    destruct output_real_space; cbn [map]; rewrite !app_nil_r; reflexivity.
  - cbn [List.length seq write_shots Output_amplitudes writer_calls Output_logged].
    rewrite (@shot_dict_mid attrs output_intensities output_euler_angles
               output_fourier_space output_real_space n pre post A Hangles)
      by (cbn [List.length] in Hn; lia).
    set (A' := if output_real_space then zero_nonfinite A else A).
    replace (pre ++ A' :: post) with ((pre ++ [A']) ++ post)
      by (rewrite <- app_assoc; reflexivity).
    replace (S (List.length pre)) with (List.length (pre ++ [A']))
      by (rewrite length_app; simpl; lia).
    rewrite IH by (rewrite length_app; cbn [List.length] in *; lia).
    rewrite length_app. cbn [List.length]. rewrite Nat.add_1_r.
    unfold shot_calls. cbn [List.length seq combine map fst snd].
    rewrite <- !app_assoc. cbn [app].
    subst A'. destruct output_real_space; reflexivity.
Qed.

(** What a call of [write] with a name that ends in ".cxi" hands to the
    writer and leaves behind, for an instance whose [N] is the number of its
    shots and, if the angles are asked for, whose three sequences of angles
    have an item for each shot. The writer is created, receives one
    dictionary per shot in the order of the shots and is closed; nothing is
    logged. With [output_real_space] the stored amplitudes of every shot
    have their values that are not finite replaced by 0 afterwards, and the
    item "fourier_space" of a shot holds the replaced values, whereas its
    item "intensities" was computed before, from the values as they were;
    without [output_real_space] the amplitudes are left as they were. *)
Theorem write_shots_written (attrs : OutputAttrs) (filename : string)
    (output_intensities output_euler_angles output_fourier_space output_real_space : bool)
    (s : OutputState) :
  String.eqb (last_characters (String.length ".cxi") filename) ".cxi" = true ->
  Output_N attrs = List.length (Output_amplitudes s) ->
  (output_euler_angles = true ->
   covers (sample_euler_angle_0 attrs) (Output_N attrs)
   /\ covers (sample_euler_angle_1 attrs) (Output_N attrs)
   /\ covers (sample_euler_angle_2 attrs) (Output_N attrs)) ->
  write attrs filename output_intensities output_euler_angles output_fourier_space
    output_real_space s
  = (Returns tt,
     {| Output_amplitudes :=
          if output_real_space then map zero_nonfinite (Output_amplitudes s)
          else Output_amplitudes s;
        writer_calls :=
          writer_calls s
          ++ [CXIWriter filename (Output_N attrs)]
          ++ shot_calls attrs output_intensities output_euler_angles output_fourier_space
               output_real_space 0 (Output_amplitudes s)
          ++ [W_close];
        Output_logged := Output_logged s |}).
Proof.
  intros Hname HN Hangles. unfold write. rewrite Hname. cbv zeta.
  pose proof (@write_shots_from attrs output_intensities output_euler_angles
                output_fourier_space output_real_space (Output_N attrs)
                (Output_amplitudes s) []
                (writer_calls s ++ [CXIWriter filename (Output_N attrs)])
                (Output_logged s) Hangles) as Hloop.
  cbn [List.length app] in Hloop. rewrite <- HN in Hloop.
  rewrite Hloop by lia.
  cbn [Output_amplitudes writer_calls Output_logged].
  rewrite <- !app_assoc. reflexivity.
Qed.

(** When the result of the propagation held no angles
    ([sample_euler_angle_0] is [None]) a call of [write] that asks for them,
    as the default does, raises [TypeError] at the first shot: the writer
    has been created, receives no dictionary and is never closed; the
    amplitudes are left as they were and nothing is logged. *)
Theorem write_without_angles (attrs : OutputAttrs) (filename : string)
    (output_intensities output_fourier_space output_real_space : bool)
    (s : OutputState) :
  String.eqb (last_characters (String.length ".cxi") filename) ".cxi" = true ->
  sample_euler_angle_0 attrs = None ->
  Output_N attrs <> O ->
  Output_amplitudes s <> [] ->
  write attrs filename output_intensities true output_fourier_space output_real_space s
  = (Raises (TypeError "'NoneType' object has no attribute '__getitem__'"),
     {| Output_amplitudes := Output_amplitudes s;
        writer_calls := writer_calls s ++ [CXIWriter filename (Output_N attrs)];
        Output_logged := Output_logged s |}).
Proof.
  intros Hname Hnone HN Hamps. unfold write. rewrite Hname. cbv zeta.
  destruct (Output_N attrs) as [| n]; [congruence |].
  destruct (Output_amplitudes s) as [| A post] eqn:Hs; [congruence |].
  cbn [seq write_shots Output_amplitudes writer_calls Output_logged].
  unfold shot_dict, sbind, sread, slift, sret, get_intensity_pattern. cbv zeta.
  rewrite Hnone. cbn [angle_getitem].
  pose proof (amplitudes_getitem_mid [] post A) as Hget. cbn [List.length app] in Hget.
  destruct output_intensities; rewrite ?Hget; cbn [obind of_outcome]; reflexivity.
Qed.

End LegacyOutput.

Arguments Returns {A} a.
Arguments Raises {A} e.
Arguments Unsettled {A}.
Arguments Intensities {num Pattern} pattern.
Arguments Angle {num Pattern} x.
Arguments RealSpace {num Pattern} image.
Arguments FourierSpace {num Pattern} image.
Arguments CXIWriter {num Pattern} filename N.
Arguments W_write {num Pattern} O i.
Arguments W_close {num Pattern}.

(** * The atoms particle model: [condor/particle/particle_atoms.py] *)

Section Atoms.

Context {num : Type} {arith : NpArith num}.

(** condor.utils.material *)
Variable atomic_names : list string.
Variable get_atomic_mass : string -> num.

(** The attributes of a [ParticleAtoms] instance the property reads or
    writes; an attribute holding [None] is [None] here. *)
Record ParticleAtomsObj : Type := {
  _atomic_numbers : option (list Z);
  _atomic_positions : option (list (num * num * num));
  _diameter_mean : option num
}.

(** [l[i]] for a Python list, negative indices counting from the end *)
Definition py_list_index {A : Type} (l : list A) (i : Z) : outcome A :=
  let n := Z.of_nat (List.length l) in
  let j := if Z.ltb i 0 then (i + n)%Z else i in
  if Z.ltb j 0 || Z.leb n j then Raise (IndexError "list index out of range")
  else match nth_error l (Z.to_nat j) with
       | Some a => Ret a
       | None => Raise (IndexError "list index out of range")
       end.

Fixpoint omap {A B : Type} (f : A -> outcome B) (l : list A) : outcome (list B) :=
  match l with
  | [] => Ret []
  | a :: l' => (b <-- f a ;; bs <-- omap f l' ;; Ret (b :: bs))%outcome
  end.

Definition copy_of {A : Type} (attr : option A) : outcome A :=
  match attr with
  | Some a => Ret a
  | None => Raise (AttributeError "'NoneType' object has no attribute 'copy'")
  end.

Definition get_atomic_numbers (self : ParticleAtomsObj) : outcome (list Z) :=
  copy_of (_atomic_numbers self).

Definition get_atomic_positions (self : ParticleAtomsObj)
  : outcome (list (num * num * num)) :=
  copy_of (_atomic_positions self).

(**
<<
      Z = self.get_atomic_numbers()
      names = [condor.utils.material.atomic_names[z-1] for z in Z]
      M = numpy.array([condor.utils.material.get_atomic_mass(n) for n in names], dtype=numpy.float64)
>> *)
Definition get_atomic_standard_weights (self : ParticleAtomsObj) : outcome (list num) :=
  (Z <-- get_atomic_numbers self ;;
   names <-- omap (fun z => py_list_index atomic_names (z - 1)%Z) Z ;;
   Ret (map get_atomic_mass names))%outcome.

(** [.sum()] of an array, its elements taken in order *)
Definition np_sum (xs : list num) : num := fold_left nadd xs (flt 0).

(** [M[:, numpy.newaxis]] against an array of shape (N, 3): the rows paired
    with their weight, flattened in row order (the setters of the class
    refuse lists of numbers and positions of different lengths) *)
Definition weighted (f : num -> num -> num) (M : list num) (r : list (num * num * num))
  : list num :=
  List.concat (map (fun mr => let '(m, (x, y, z)) := mr in [f m x; f m y; f m z])
              (combine M r)).

(** [r_com = (r*M[:, numpy.newaxis]).sum() / M.sum()] *)
Definition get_center_of_mass (self : ParticleAtomsObj) : outcome num :=
  (M <-- get_atomic_standard_weights self ;;
   r <-- get_atomic_positions self ;;
   Ret (ndiv (np_sum (weighted (fun m x => nmul x m) M r)) (np_sum M)))%outcome.

(** [r_g = numpy.sqrt( (M[:, numpy.newaxis]*(r-r_com)**2).sum() / M.sum() )] *)
Definition get_radius_of_gyration (self : ParticleAtomsObj) : outcome num :=
  (M <-- get_atomic_standard_weights self ;;
   r <-- get_atomic_positions self ;;
   r_com <-- get_center_of_mass self ;;
   Ret (nsqrt (ndiv (np_sum (weighted (fun m x => nmul m (npow (nsub x r_com) 2)) M r))
                    (np_sum M))))%outcome.

(**
<<
  @property
  def diameter_mean(self):
      self._diameter_mean = 2*self.get_radius_of_gyration()
>>
    The body ends without a [return]: the value of the property is [None].
    The result pairs the outcome of the read with the instance afterwards. *)
Definition diameter_mean (self : ParticleAtomsObj)
  : outcome (option num) * ParticleAtomsObj :=
  match get_radius_of_gyration self with
  | Ret r_g =>
      (Ret None,
       {| _atomic_numbers := _atomic_numbers self;
          _atomic_positions := _atomic_positions self;
          _diameter_mean := Some (nmul (flt 2) r_g) |})
  | Raise e => (Raise e, self)
  | Unfinished => (Unfinished, self)
  end.

(** C10. Reading the property [diameter_mean] never yields a number: when
    the radius of gyration is computed, the getter stores twice its value in
    the attribute [_diameter_mean] and the property evaluates to [None]; a
    reader that needs the diameter receives [None]. (When computing the
    radius raises, the read raises the same exception.) *)
Theorem diameter_mean_is_None (self : ParticleAtomsObj) :
  (forall (x : num) (self' : ParticleAtomsObj),
      diameter_mean self <> (Ret (Some x), self'))
  /\ (forall r_g : num,
         get_radius_of_gyration self = Ret r_g ->
         diameter_mean self
         = (Ret None,
            {| _atomic_numbers := _atomic_numbers self;
               _atomic_positions := _atomic_positions self;
               _diameter_mean := Some (nmul (flt 2) r_g) |}))
  /\ (forall e : exn,
         get_radius_of_gyration self = Raise e -> diameter_mean self = (Raise e, self)).
Proof.
  unfold diameter_mean.
  destruct (get_radius_of_gyration self) as [r | e |].
  - split; [intros x self' H; discriminate H |].
    split; [intros r_g H; inversion H; subst; reflexivity | intros e H; discriminate H].
  - split; [intros x self' H; discriminate H |].
    split; [intros r_g H; discriminate H | intros e' H; inversion H; reflexivity].
  - split; [intros x self' H; discriminate H |].
    split; [intros r_g H; discriminate H | intros e' H; discriminate H].
Qed.

(** ** The table of element names and the atomic numbers *)

(** the atomic numbers [atomic_names[z-1]] accepts: Python counts a
    negative index from the end of the list *)
Definition listed (z : Z) : Prop :=
  (1 - Z.of_nat (List.length atomic_names) <= z <= Z.of_nat (List.length atomic_names))%Z.

(** the position in the table the atomic number [z] is looked up at *)
Definition table_position (z : Z) : nat :=
  Z.to_nat ((z - 1) mod Z.of_nat (List.length atomic_names)).

Lemma py_list_index_listed (z : Z) :
  listed z ->
  py_list_index atomic_names (z - 1) = Ret (nth (table_position z) atomic_names "").
Proof.
  unfold listed, py_list_index, table_position. cbv zeta. intros Hz.
  set (n := Z.of_nat (List.length atomic_names)) in *.
  assert (Hnth : forall j : Z, (0 <= j < n)%Z ->
             nth_error atomic_names (Z.to_nat j) = Some (nth (Z.to_nat j) atomic_names "")).
  { intros j Hj. apply nth_error_nth'. subst n. lia. }
  destruct (Z.ltb (z - 1) 0) eqn:Hneg.
  - apply Z.ltb_lt in Hneg.
    replace (Z.ltb (z - 1 + n) 0 || Z.leb n (z - 1 + n)) with false
      by (symmetry; apply orb_false_iff; split; [apply Z.ltb_ge | apply Z.leb_gt]; lia).
    replace ((z - 1) mod n)%Z with (z - 1 + n)%Z
      by (apply Z.mod_unique with (q := (-1)%Z); lia).
    rewrite Hnth by lia. reflexivity.
  - apply Z.ltb_ge in Hneg.
    replace (Z.ltb (z - 1) 0 || Z.leb n (z - 1)) with false
      by (symmetry; apply orb_false_iff; split; [apply Z.ltb_ge | apply Z.leb_gt]; lia).
    rewrite Z.mod_small by lia.
    rewrite Hnth by lia. reflexivity.
Qed.

Lemma py_list_index_unlisted (z : Z) :
  ~ listed z ->
  py_list_index atomic_names (z - 1) = Raise (IndexError "list index out of range").
Proof.
  unfold listed, py_list_index. cbv zeta. intros Hz.
  set (n := Z.of_nat (List.length atomic_names)) in *.
  destruct (Z.ltb (z - 1) 0) eqn:Hneg.
  - apply Z.ltb_lt in Hneg.
    replace (Z.ltb (z - 1 + n) 0 || Z.leb n (z - 1 + n)) with true; [reflexivity |].
    symmetry. apply orb_true_iff. left. apply Z.ltb_lt. lia.
  - apply Z.ltb_ge in Hneg.
    replace (Z.ltb (z - 1) 0 || Z.leb n (z - 1)) with true; [reflexivity |].
    symmetry. apply orb_true_iff. right. apply Z.leb_le. lia.
Qed.

Lemma names_of_numbers (numbers : list Z) :
  (Forall listed numbers
   /\ omap (fun z => py_list_index atomic_names (z - 1)%Z) numbers
      = Ret (map (fun z => nth (table_position z) atomic_names "") numbers))
  \/ (~ Forall listed numbers
      /\ omap (fun z => py_list_index atomic_names (z - 1)%Z) numbers
         = Raise (IndexError "list index out of range")).
Proof.
  induction numbers as [| z numbers IH].
  - left. split; [constructor | reflexivity].
  - cbn [omap].
    assert (Hdec : listed z \/ ~ listed z) by (unfold listed; lia).
    destruct Hdec as [Hz | Hz].
    + rewrite (py_list_index_listed Hz). cbn [obind].
      destruct IH as [[Hall Hrest] | [Hnot Hrest]]; rewrite Hrest; cbn [obind].
      * left. split; [constructor; assumption | reflexivity].
      * right. split; [| reflexivity]. intros Hall. apply Hnot.
        inversion Hall; assumption.
    + rewrite (py_list_index_unlisted Hz). cbn [obind].
      right. split; [| reflexivity]. intros Hall. apply Hz. inversion Hall; assumption.
Qed.

(** The standard weights are returned exactly when every atomic number
    lies between 1 - n and n, n being the length of the table of element
    names; otherwise an [IndexError] is raised. An atomic number z >= 1 is
    given the weight of the z-th element; 0 and the negative numbers down
    to 1 - n are accepted as well and are given weights of elements counted
    from the end of the table (0: the last element). *)
Theorem get_atomic_standard_weights_bounds (self : ParticleAtomsObj) (numbers : list Z) :
  _atomic_numbers self = Some numbers ->
  (Forall listed numbers
   /\ get_atomic_standard_weights self
      = Ret (map (fun z => get_atomic_mass (nth (table_position z) atomic_names ""))
               numbers))
  \/ (~ Forall listed numbers
      /\ get_atomic_standard_weights self = Raise (IndexError "list index out of range")).
Proof.
  intros Hnumbers. unfold get_atomic_standard_weights, get_atomic_numbers, copy_of.
  rewrite Hnumbers. cbn [obind].
  destruct (names_of_numbers numbers) as [[Hall Hnames] | [Hnot Hnames]];
    rewrite Hnames; cbn [obind].
  - left. split; [exact Hall |]. rewrite map_map. reflexivity.
  - right. split; [exact Hnot | reflexivity].
Qed.

End Atoms.

(** * Constructing a [ParticleAtoms] and setting its atoms *)

Section AtomsConstruction.

Context {num : Type} {arith : NpArith num}.

(** The instance with the two attributes the setters and the constructor
    write besides those of [ParticleAtomsObj]. *)
Record ParticleAtomsSelf : Type := {
  atoms : ParticleAtomsObj (num:=num);
  _atomic_formfactors : option (list (list num));
  _pdb_filename : option string
}.

(** A method runs on the instance and the log. *)
Definition AM (A : Type) : Type :=
  ParticleAtomsSelf * list log_record -> outcome A * (ParticleAtomsSelf * list log_record).

Definition aret {A : Type} (a : A) : AM A := fun st => (Ret a, st).

Definition abind {A B : Type} (c : AM A) (k : A -> AM B) : AM B :=
  fun st =>
    match c st with
    | (Ret a, st') => k a st'
    | (Raise e, st') => (Raise e, st')
    | (Unfinished, st') => (Unfinished, st')
    end.

Definition alift {A : Type} (o : outcome A) : AM A := fun st => (o, st).

Definition alog (lvl : level) (msg : string) : AM unit :=
  fun st => (Ret tt, (fst st, snd st ++ [(lvl, msg)])).

(** [log_and_raise_error], as in the engine: the message is logged and an
    exception carrying it is raised. *)
Definition alog_and_raise_error {A : Type} (msg : string) : AM A :=
  fun st => (Raise (RuntimeError msg), (fst st, snd st ++ [(ERROR, msg)])).

Definition update (f : ParticleAtomsSelf -> ParticleAtomsSelf) : AM unit :=
  fun st => (Ret tt, (f (fst st), snd st)).

Local Notation "x <- c ;; k" := (abind c (fun x => k))
  (at level 61, c at next level, right associativity).
Local Notation "' pat <- c ;; k" := (abind c (fun x => match x with pat => k end))
  (at level 61, pat pattern, c at next level, right associativity).
Local Notation "c ;;; k" := (abind c (fun _ => k))
  (at level 61, right associativity).

Definition set_atomic_positions (r : option (list (num * num * num)))
    (self : ParticleAtomsSelf) : ParticleAtomsSelf :=
  {| atoms := {| _atomic_numbers := _atomic_numbers (atoms self);
                 _atomic_positions := r;
                 _diameter_mean := _diameter_mean (atoms self) |};
     _atomic_formfactors := _atomic_formfactors self;
     _pdb_filename := _pdb_filename self |}.

Definition set_atomic_numbers (Z : option (list Z)) (self : ParticleAtomsSelf)
  : ParticleAtomsSelf :=
  {| atoms := {| _atomic_numbers := Z;
                 _atomic_positions := _atomic_positions (atoms self);
                 _diameter_mean := _diameter_mean (atoms self) |};
     _atomic_formfactors := _atomic_formfactors self;
     _pdb_filename := _pdb_filename self |}.

Definition set_atomic_formfactors (f : option (list (list num))) (self : ParticleAtomsSelf)
  : ParticleAtomsSelf :=
  {| atoms := atoms self;
     _atomic_formfactors := f;
     _pdb_filename := _pdb_filename self |}.

(** spsim, the file system and the base class *)
Variable spsim_importable : bool.
Variable spsim_fetch_pdb : string -> outcome string.
(** [get_Molecule_from_pdb] followed by [get_atoms_from_molecule] *)
Variable spsim_atoms_of_pdb : string -> outcome (list Z * list (num * num * num)).
Variable isfile : string -> bool.
Variable AbstractParticle__init__ : outcome unit.

(**
<<
  def set_atoms_from_pdb_file(self, pdb_filename):
      import spsim
      mol = spsim.get_Molecule_from_pdb(pdb_filename)
      self._atomic_numbers, self._atomic_positions = spsim.get_atoms_from_molecule(mol)
      spsim.free_mol(mol)
>> *)
Definition set_atoms_from_pdb_file (pdb_filename : string) : AM unit :=
  (if spsim_importable then aret tt else alift (Raise (ImportError "spsim"))) ;;;
  ' (numbers, positions) <- alift (spsim_atoms_of_pdb pdb_filename) ;;
  update (set_atomic_numbers (Some numbers)) ;;;
  update (set_atomic_positions (Some positions)).

(**
<<
  def set_atoms_from_pdb_id(self, pdb_id):
      import spsim
      filename = spsim.fetch_pdb(pdb_id)
      self.set_atoms_from_pdb_file(filename)
>> *)
Definition set_atoms_from_pdb_id (pdb_id : string) : AM unit :=
  (if spsim_importable then aret tt else alift (Raise (ImportError "spsim"))) ;;;
  filename <- alift (spsim_fetch_pdb pdb_id) ;;
  set_atoms_from_pdb_file filename.

Definition lengths_message : string :=
  "Cannot set atoms. atomic_numbers and atomic_positions have to have the same length".

Definition lengths_message_formfactors : string :=
  "Cannot set atoms. atomic_numbers, atomic_positions and atomic_formfactors have to have the same length".

(**
<<
  def set_atoms_from_arrays(self, atomic_numbers, atomic_positions):
      N1 = len(atomic_numbers)
      N2 = len(atomic_positions)
      if N1 != N2:
          log_and_raise_error(logger, "Cannot set atoms. atomic_numbers and atomic_positions have to have the same length")
      self._atomic_positions = numpy.array(atomic_positions)
      self._atomic_numbers   = numpy.array(atomic_numbers)
>> *)
Definition set_atoms_from_arrays (atomic_numbers : list Z)
    (atomic_positions : list (num * num * num)) : AM unit :=
  let N1 := List.length atomic_numbers in
  let N2 := List.length atomic_positions in
  (if negb (Nat.eqb N1 N2) then alog_and_raise_error lengths_message else aret tt) ;;;
  update (set_atomic_positions (Some atomic_positions)) ;;;
  update (set_atomic_numbers (Some atomic_numbers)).

(**
<<
  def set_atoms_from_arrays_and_formfactors(self, atomic_numbers, atomic_positions, atomic_formfactors):
      N1 = len(atomic_numbers)
      N2 = len(atomic_positions)
      N3 = len(atomic_formfactors)
      if N1 != N2 or N1 != N3:
          log_and_raise_error(logger, "Cannot set atoms. atomic_numbers, atomic_positions and atomic_formfactors have to have the same length")
      self._atomic_positions = numpy.array(atomic_positions)
      self._atomic_numbers   = numpy.array(atomic_numbers)
      self._atomic_formfactors = numpy.array(atomic_formfactors)
>> *)
Definition set_atoms_from_arrays_and_formfactors (atomic_numbers : list Z)
    (atomic_positions : list (num * num * num)) (atomic_formfactors : list (list num))
  : AM unit :=
  let N1 := List.length atomic_numbers in
  let N2 := List.length atomic_positions in
  let N3 := List.length atomic_formfactors in
  (if negb (Nat.eqb N1 N2) || negb (Nat.eqb N1 N3)
   then alog_and_raise_error lengths_message_formfactors else aret tt) ;;;
  update (set_atomic_positions (Some atomic_positions)) ;;;
  update (set_atomic_numbers (Some atomic_numbers)) ;;;
  update (set_atomic_formfactors (Some atomic_formfactors)).

(**
<<
  def get_atomic_formfactors(self):
      if self._atomic_formfactors is None:
          return None
      return self._atomic_formfactors.copy()
>> *)
Definition get_atomic_formfactors (self : ParticleAtomsSelf) : option (list (list num)) :=
  match _atomic_formfactors self with
  | None => None
  | Some f => Some f
  end.

(** The arguments of the constructor that select the atoms; the others are
    handed to the constructor of the base class. *)
Record AtomsArgs : Type := {
  pdb_filename : option string;
  pdb_id : option string;
  atomic_numbers : option (list Z);
  atomic_positions : option (list (num * num * num));
  atomic_formfactors : option (list (list num))
}.

Definition given {A : Type} (x : option A) : bool :=
  match x with
  | Some _ => true
  | None => false
  end.

Definition import_message : string :=
  "Cannot import spsim module. This module is necessary to simulate diffraction for particle model of discrete atoms. Please install spsim from https://github.com/FilipeMaia/spsim and try again.".

Definition ambiguous_file_message : string :=
  "Atom configuration is ambiguous. pdb_filename is specified but also at least one of the following arguments: atomic_numbers, atomic_positions, pdb_id.".

Definition ambiguous_id_message : string :=
  "Atom configuration is ambiguous. pdb_id is specified but also at least one of the following arguments: atomic_numbers, atomic_positions.".

Definition missing_file_message (pdb_filename : string) : string :=
  "Cannot initialize particle model. PDB file " ++ pdb_filename ++ " does not exist.".

Definition unspecified_message : string :=
  "Cannot initialise particle model. The atomic positions have to be specified either by a pdb_filename, pdb_id or by atomic_numbers and atomic_positions.".

(** the attributes [__init__] sets before it reads the atoms *)
Definition blank : ParticleAtomsSelf :=
  {| atoms := {| _atomic_numbers := None; _atomic_positions := None;
                 _diameter_mean := None |};
     _atomic_formfactors := None;
     _pdb_filename := None |}.

(**
<<
  def __init__(self, pdb_filename = None, pdb_id = None,
               atomic_numbers = None, atomic_positions = None, ...,
               atomic_formfactors = None):
      try:
          import spsim
      except Exception as e:
          print(str(e))
          log_and_raise_error(logger, "Cannot import spsim module. ...")
          return
      AbstractParticle.__init__(self, ...)
      self._atomic_positions  = None
      self._atomic_numbers    = None
      self._atomic_formfactors = None
      self._pdb_filename      = None
      self._diameter_mean    = None
      if pdb_filename is not None:
          log_debug(logger, "Attempt reading atoms from PDB file %s." % pdb_filename)
          if (pdb_id is not None or atomic_numbers is not None or atomic_positions is not None):
              log_and_raise_error(logger, "Atom configuration is ambiguous. ...")
              sys.exit(1)
          elif not os.path.isfile(pdb_filename):
              log_and_raise_error(logger, "Cannot initialize particle model. PDB file %s does not exist." % pdb_filename)
              sys.exit(1)
          else:
              self.set_atoms_from_pdb_file(pdb_filename)
      elif pdb_id is not None:
          log_debug(logger, "Attempt fetching PDB entry of ID=%s" % pdb_id)
          if (atomic_numbers is not None or atomic_positions is not None):
              log_and_raise_error(logger, "Atom configuration is ambiguous. ...")
              sys.exit(1)
          else:
              self.set_atoms_from_pdb_id(pdb_id)
      elif atomic_numbers is not None and atomic_positions is not None:
          log_debug(logger, "Attempt reading atoms from lists/attays.")
          if atomic_formfactors is None:
              self.set_atoms_from_arrays(atomic_numbers, atomic_positions)
          else:
              self.set_atoms_from_arrays_and_formfactors(atomic_numbers, atomic_positions, atomic_formfactors)
      else:
          log_and_raise_error(logger, "Cannot initialise particle model. ...")
>>
    What [print] writes is not modelled. *)
Definition ParticleAtoms__init__ (args : AtomsArgs) : AM unit :=
  (if spsim_importable then aret tt else alog_and_raise_error import_message) ;;;
  alift AbstractParticle__init__ ;;;
  update (fun _ => blank) ;;;
  match pdb_filename args with
  | Some filename =>
      alog DEBUG ("Attempt reading atoms from PDB file " ++ filename ++ ".") ;;;
      if given (pdb_id args) || given (atomic_numbers args) || given (atomic_positions args)
      then alog_and_raise_error ambiguous_file_message
      else if negb (isfile filename)
      then alog_and_raise_error (missing_file_message filename)
      else set_atoms_from_pdb_file filename
  | None =>
      match pdb_id args with
      | Some id =>
          alog DEBUG ("Attempt fetching PDB entry of ID=" ++ id) ;;;
          if given (atomic_numbers args) || given (atomic_positions args)
          then alog_and_raise_error ambiguous_id_message
          else set_atoms_from_pdb_id id
      | None =>
          match atomic_numbers args, atomic_positions args with
          | Some numbers, Some positions =>
              alog DEBUG "Attempt reading atoms from lists/attays." ;;;
              match atomic_formfactors args with
              | None => set_atoms_from_arrays numbers positions
              | Some formfactors =>
                  set_atoms_from_arrays_and_formfactors numbers positions formfactors
              end
          | _, _ => alog_and_raise_error unspecified_message
          end
      end
  end.

(** [ParticleAtoms(...)]: the new instance, when [__init__] returns *)
Definition ParticleAtoms_new (args : AtomsArgs) (lg : list log_record)
  : outcome ParticleAtomsSelf * list log_record :=
  match ParticleAtoms__init__ args (blank, lg) with
  | (Ret _, (self, lg')) => (Ret self, lg')
  | (Raise e, (_, lg')) => (Raise e, lg')
  | (Unfinished, (_, lg')) => (Unfinished, lg')
  end.

(** ** Properties *)

Lemma abind_ret {A B : Type} (c : AM A) (k : A -> AM B) st st' (a : A) :
  c st = (Ret a, st') -> abind c k st = k a st'.
Proof. intros H. unfold abind. rewrite H. reflexivity. Qed.

Lemma abind_inv {A B : Type} (c : AM A) (k : A -> AM B) st st' (b : B) :
  abind c k st = (Ret b, st') ->
  exists a st1, c st = (Ret a, st1) /\ k a st1 = (Ret b, st').
Proof.
  unfold abind. destruct (c st) as [[a | e |] st1]; intros H; try discriminate H.
  exists a, st1. split; [reflexivity | exact H].
Qed.

(** Setting the atoms from arrays of equal length stores them: the getters
    then return the numbers and the positions given. The form factors are
    not touched, so those of an earlier call of
    [set_atoms_from_arrays_and_formfactors] stay in place, for whatever
    number of atoms they were given. With arrays of different lengths the
    error is logged and raised and the instance is left as it was. *)
Theorem set_atoms_from_arrays_stores (numbers : list Z) (positions : list (num * num * num))
    (self : ParticleAtomsSelf) (lg : list log_record) :
  (List.length numbers = List.length positions ->
   exists self',
     set_atoms_from_arrays numbers positions (self, lg) = (Ret tt, (self', lg))
     /\ get_atomic_numbers (atoms self') = Ret numbers
     /\ get_atomic_positions (atoms self') = Ret positions
     /\ get_atomic_formfactors self' = get_atomic_formfactors self
     /\ _diameter_mean (atoms self') = _diameter_mean (atoms self))
  /\ (List.length numbers <> List.length positions ->
      set_atoms_from_arrays numbers positions (self, lg)
      = (Raise (RuntimeError lengths_message), (self, lg ++ [(ERROR, lengths_message)]))).
Proof.
  unfold set_atoms_from_arrays. cbv zeta. split; intros Hlen.
  - apply Nat.eqb_eq in Hlen. rewrite Hlen. cbn [negb].
    eexists. split; [reflexivity |]. repeat split; reflexivity.
  - apply Nat.eqb_neq in Hlen. rewrite Hlen. reflexivity.
Qed.

Lemma set_atoms_from_pdb_file_ret (filename : string) (self self' : ParticleAtomsSelf)
    (lg lg' : list log_record) :
  set_atoms_from_pdb_file filename (self, lg) = (Ret tt, (self', lg')) ->
  exists numbers positions,
    self' = set_atomic_positions (Some positions) (set_atomic_numbers (Some numbers) self)
    /\ lg' = lg.
Proof.
  unfold set_atoms_from_pdb_file. intros H.
  destruct spsim_importable; [| discriminate H].
  unfold abind at 1 in H. unfold aret at 1 in H. cbv iota beta in H.
  unfold abind at 1 in H. unfold alift at 1 in H.
  destruct (spsim_atoms_of_pdb filename) as [[numbers positions] | e |];
    try discriminate H.
  unfold abind, update in H. cbn [fst snd] in H. inversion H; subst.
  exists numbers, positions. split; reflexivity.
Qed.

(** A [ParticleAtoms] that has been constructed holds its atoms: the
    getters of the atomic numbers and positions return. Built from arrays,
    it holds the arrays given, of one length, with the form factors given
    (of the same length) or none; built from a PDB file or a PDB entry, it
    holds no form factors, and no array had been given. In every case
    [_diameter_mean] is [None] and [_pdb_filename] is [None], the name of
    the file read is not recorded. *)
Theorem ParticleAtoms_constructed (args : AtomsArgs) (lg lg' : list log_record)
    (self : ParticleAtomsSelf) :
  ParticleAtoms_new args lg = (Ret self, lg') ->
  (exists numbers positions,
      get_atomic_numbers (atoms self) = Ret numbers
      /\ get_atomic_positions (atoms self) = Ret positions
      /\ (pdb_filename args = None -> pdb_id args = None ->
          atomic_numbers args = Some numbers
          /\ atomic_positions args = Some positions
          /\ List.length numbers = List.length positions
          /\ get_atomic_formfactors self = atomic_formfactors args
          /\ forall formfactors, atomic_formfactors args = Some formfactors ->
               List.length formfactors = List.length numbers))
  /\ (given (pdb_filename args) || given (pdb_id args) = true ->
      get_atomic_formfactors self = None
      /\ atomic_numbers args = None /\ atomic_positions args = None)
  /\ _diameter_mean (atoms self) = None
  /\ _pdb_filename self = None.
Proof.
  unfold ParticleAtoms_new.
  destruct (ParticleAtoms__init__ args (blank, lg)) as [[[] | e |] [self0 lg0]] eqn:Hinit;
    intros H; inversion H; subst; clear H.
  unfold ParticleAtoms__init__ in Hinit.
  destruct spsim_importable eqn:Himport; [| discriminate Hinit].
  unfold abind at 1 in Hinit. unfold aret at 1 in Hinit. cbv iota beta in Hinit.
  unfold abind at 1 in Hinit. unfold alift at 1 in Hinit.
  destruct AbstractParticle__init__ as [[] | e |]; try discriminate Hinit.
  unfold abind at 1 in Hinit. unfold update at 1 in Hinit. cbn [fst snd] in Hinit.
  destruct args as [file id numbers positions formfactors]. cbn [pdb_filename pdb_id
    atomic_numbers atomic_positions atomic_formfactors] in *.
  destruct file as [filename |].
  - (* from a PDB file *)
    unfold abind at 1 in Hinit. unfold alog at 1 in Hinit. cbn [fst snd] in Hinit.
    destruct id; [discriminate Hinit |].
    destruct numbers; [discriminate Hinit |].
    destruct positions; [discriminate Hinit |]. cbn [given orb] in Hinit.
    destruct (isfile filename); [| discriminate Hinit]. cbn [negb] in Hinit.
    apply set_atoms_from_pdb_file_ret in Hinit.
    destruct Hinit as (numbers & positions & -> & _).
    split; [exists numbers, positions; repeat split; try reflexivity;
            match goal with H : Some _ = None |- _ => discriminate H end |].
    repeat split; reflexivity.
  - destruct id as [id |].
    + (* from a PDB entry *)
      unfold abind at 1 in Hinit. unfold alog at 1 in Hinit. cbn [fst snd] in Hinit.
      destruct numbers; [discriminate Hinit |].
      destruct positions; [discriminate Hinit |]. cbn [given orb] in Hinit.
      unfold set_atoms_from_pdb_id in Hinit. rewrite Himport in Hinit.
      unfold abind at 1 in Hinit. unfold aret at 1 in Hinit. cbv iota beta in Hinit.
      unfold abind at 1 in Hinit. unfold alift at 1 in Hinit.
      destruct (spsim_fetch_pdb id) as [filename | e |]; try discriminate Hinit.
      apply set_atoms_from_pdb_file_ret in Hinit.
      destruct Hinit as (numbers & positions & -> & _).
      split; [exists numbers, positions; repeat split; try reflexivity;
              match goal with H : Some _ = None |- _ => discriminate H end |].
      repeat split; reflexivity.
    + (* from arrays *)
      destruct numbers as [numbers |]; [| discriminate Hinit].
      destruct positions as [positions |]; [| discriminate Hinit].
      unfold abind at 1 in Hinit. unfold alog at 1 in Hinit. cbn [fst snd] in Hinit.
      destruct formfactors as [formfactors |].
      * unfold set_atoms_from_arrays_and_formfactors in Hinit. cbv zeta in Hinit.
        destruct (Nat.eqb (List.length numbers) (List.length positions)) eqn:H12;
          [| discriminate Hinit].
        destruct (Nat.eqb (List.length numbers) (List.length formfactors)) eqn:H13;
          [| discriminate Hinit].
        apply Nat.eqb_eq in H12, H13.
        cbn in Hinit. inversion Hinit; subst.
        split; [| repeat split; try reflexivity;
                  match goal with H : _ = true |- _ => discriminate H end].
        exists numbers, positions. repeat split; try reflexivity; try assumption.
        intros f Hf. inversion Hf; subst. symmetry. exact H13.
      * unfold set_atoms_from_arrays in Hinit. cbv zeta in Hinit.
        destruct (Nat.eqb (List.length numbers) (List.length positions)) eqn:H12;
          [| discriminate Hinit].
        apply Nat.eqb_eq in H12.
        cbn in Hinit. inversion Hinit; subst.
        split; [| repeat split; try reflexivity;
                  match goal with H : _ = true |- _ => discriminate H end].
        exists numbers, positions. repeat split; try reflexivity; try assumption.
        intros f Hf. discriminate Hf.
Qed.

End AtomsConstruction.

(** * Properties of [remove_from_dict] *)

Section DictFacts.

Variable L : Type.

(** Induction on a value with the items of a dictionary as hypotheses. *)
Fixpoint pyval_nested_ind (P : pyval L -> Prop)
    (Hleaf : forall l, P (VLeaf l))
    (Hdict : forall d, Forall (fun kv => P (snd kv)) d -> P (VDict d))
    (v : pyval L) : P v :=
  match v with
  | VLeaf l => Hleaf l
  | VDict d =>
      Hdict d
        ((fix items (d : list (string * pyval L)) : Forall (fun kv => P (snd kv)) d :=
            match d with
            | [] => Forall_nil _
            | kv :: d' =>
                Forall_cons kv (pyval_nested_ind P Hleaf Hdict (snd kv)) (items d')
            end) d)
  end.

(** a call returned, or raised a [KeyError] *)
Definition returns_or_KeyError {A : Type} (o : outcome A) : Prop :=
  (exists a, o = Ret a) \/ (exists k, o = Raise (KeyError k)).

Lemma py_delitem_outcome (D : dict L) (k : string) :
  returns_or_KeyError (py_delitem D k).
Proof.
  unfold py_delitem. destruct (has_key k D).
  - left. eexists. reflexivity.
  - right. eexists. reflexivity.
Qed.

Lemma py_getitem_outcome (D : dict L) (k : string) :
  returns_or_KeyError (py_getitem D k).
Proof.
  induction D as [| [k' v] D IH]; simpl.
  - right. eexists. reflexivity.
  - destruct (String.eqb k k'); [left; eexists; reflexivity | exact IH].
Qed.

Lemma py_getitem_deleted (D : dict L) (k : string) :
  py_getitem (filter (fun kv => negb (String.eqb k (fst kv))) D) k = Raise (KeyError k).
Proof.
  induction D as [| [k' v] D IH]; simpl.
  - reflexivity.
  - destruct (String.eqb k k') eqn:Hk; simpl.
    + exact IH.
    + rewrite Hk. exact IH.
Qed.

Lemma remove_from_dict_loop_outcome (startswith : string)
    (clean : pyval L -> outcome (pyval L)) (items : list (string * pyval L)) :
  Forall (fun kv => returns_or_KeyError (clean (snd kv))) items ->
  forall D, returns_or_KeyError (remove_from_dict_loop startswith clean items D).
Proof.
  induction items as [| [k v] items IH]; intros Hclean D.
  - left. eexists. reflexivity.
  - inversion Hclean as [| ? ? Hv Hrest]; subst. simpl in Hv.
    cbn [remove_from_dict_loop].
    assert (H1 : returns_or_KeyError
                   (if String.prefix startswith k then py_delitem D k else Ret D)).
    { destruct (String.prefix startswith k);
        [apply py_delitem_outcome | left; eexists; reflexivity]. }
    destruct H1 as [(D1 & ->) | (k1 & ->)]; [| right; eexists; reflexivity].
    cbn [obind].
    destruct v as [l | d].
    + cbn [obind]. apply IH. exact Hrest.
    + destruct (py_getitem_outcome D1 k) as [(x & ->) | (k2 & ->)];
        [| right; eexists; reflexivity].
      cbn [obind].
      destruct Hv as [(v' & ->) | (k3 & ->)]; [| right; eexists; reflexivity].
      cbn [obind]. apply IH. exact Hrest.
Qed.

Lemma remove_from_value_outcome (startswith : string) (v : pyval L) :
  returns_or_KeyError (remove_from_value startswith v).
Proof.
  induction v as [l | d IH] using pyval_nested_ind.
  - left. eexists. reflexivity.
  - cbn [remove_from_value].
    destruct (@remove_from_dict_loop_outcome startswith
                (remove_from_value startswith) d IH d) as [(d' & ->) | (k & ->)].
    + left. eexists. reflexivity.
    + right. eexists. reflexivity.
Qed.

(** The loop raises at the first item whose key begins with the prefix and
    whose value is a dictionary, unless it has raised before. *)
Lemma remove_from_dict_loop_raises (startswith : string)
    (items : list (string * pyval L)) (k : string) (d : dict L) :
  In (k, VDict d) items ->
  String.prefix startswith k = true ->
  forall D, exists k',
    remove_from_dict_loop startswith (remove_from_value startswith) items D
    = Raise (KeyError k').
Proof.
  intros Hin Hprefix.
  induction items as [| [k0 v0] items IH]; intros D; [contradiction |].
  cbn [remove_from_dict_loop].
  destruct Hin as [Heq | Hin].
  - inversion Heq; subst. rewrite Hprefix. unfold py_delitem.
    destruct (has_key k D); [| eexists; reflexivity].
    cbn [obind]. rewrite py_getitem_deleted. eexists. reflexivity.
  - assert (H1 : returns_or_KeyError
                   (if String.prefix startswith k0 then py_delitem D k0 else Ret D)).
    { destruct (String.prefix startswith k0);
        [apply py_delitem_outcome | left; eexists; reflexivity]. }
    destruct H1 as [(D1 & ->) | (k1 & ->)]; [| eexists; reflexivity].
    cbn [obind].
    destruct v0 as [l | d0].
    + cbn [obind]. apply IH. exact Hin.
    + destruct (py_getitem_outcome D1 k0) as [(x & ->) | (k2 & ->)];
        [| eexists; reflexivity].
      cbn [obind].
      destruct (remove_from_value_outcome startswith (VDict d0))
        as [(v' & ->) | (k3 & ->)]; [| eexists; reflexivity].
      cbn [obind]. apply IH. exact Hin.
Qed.

(** Every dictionary in which a key beginning with the prefix holds a
    dictionary makes [remove_from_dict] raise a [KeyError]. *)
Lemma remove_from_dict_raises (D : dict L) (startswith k : string) (d : dict L) :
  In (k, VDict d) D ->
  String.prefix startswith k = true ->
  exists k', remove_from_dict D startswith = Raise (KeyError k').
Proof.
  intros Hin Hprefix. unfold remove_from_dict.
  apply (@remove_from_dict_loop_raises startswith D k d Hin Hprefix).
Qed.

(** ** When [remove_from_dict] does return *)

Lemma strip_dict_cons (startswith k : string) (v : pyval L) (d : dict L) :
  strip_dict startswith ((k, v) :: d)
  = if String.prefix startswith k then strip_dict startswith d
    else (k, strip_value startswith v) :: strip_dict startswith d.
Proof. unfold strip_dict. simpl. destruct (String.prefix startswith k); reflexivity. Qed.

Lemma strip_value_dict (startswith : string) (d : dict L) :
  strip_value startswith (VDict d) = VDict (strip_dict startswith d).
Proof. reflexivity. Qed.

Lemma tidy_value_cons (startswith k : string) (v : pyval L) (d : dict L) :
  tidy_value startswith (VDict ((k, v) :: d))
  = negb (has_key k d)
    && (match v with
        | VDict _ => negb (String.prefix startswith k)
        | VLeaf _ => true
        end)
    && tidy_value startswith v
    && tidy_value startswith (VDict d).
Proof. reflexivity. Qed.

Lemma has_key_app (k : string) (D1 D2 : dict L) :
  has_key k (D1 ++ D2) = has_key k D1 || has_key k D2.
Proof. unfold has_key. apply existsb_app. Qed.

Lemma has_key_cons (k k' : string) (v : pyval L) (D : dict L) :
  has_key k ((k', v) :: D) = String.eqb k k' || has_key k D.
Proof. reflexivity. Qed.

Lemma filter_absent (k : string) (D : dict L) :
  has_key k D = false ->
  filter (fun kv => negb (String.eqb k (fst kv))) D = D.
Proof.
  induction D as [| [k' v] D IH]; intros H; [reflexivity |].
  rewrite has_key_cons in H. apply orb_false_iff in H. destruct H as [Hk HD].
  simpl. rewrite Hk. simpl. rewrite (IH HD). reflexivity.
Qed.

Lemma py_delitem_present (k : string) (v : pyval L) (P D : dict L) :
  has_key k P = false -> has_key k D = false ->
  py_delitem (P ++ (k, v) :: D) k = Ret (P ++ D).
Proof.
  intros HP HD. unfold py_delitem.
  rewrite has_key_app, has_key_cons, String.eqb_refl, orb_true_r.
  rewrite filter_app. simpl. rewrite String.eqb_refl. simpl.
  rewrite (filter_absent k P HP), (filter_absent k D HD). reflexivity.
Qed.

Lemma py_getitem_present (k : string) (v : pyval L) (P D : dict L) :
  has_key k P = false -> py_getitem (P ++ (k, v) :: D) k = Ret v.
Proof.
  induction P as [| [k' v'] P IH]; intros HP; simpl.
  - rewrite String.eqb_refl. reflexivity.
  - rewrite has_key_cons in HP. apply orb_false_iff in HP. destruct HP as [Hk HP].
    rewrite Hk. apply IH. exact HP.
Qed.

Lemma py_replace_present (k : string) (v v' : pyval L) (P D : dict L) :
  has_key k P = false ->
  py_replace (P ++ (k, v) :: D) k v' = P ++ (k, v') :: D.
Proof.
  induction P as [| [k0 v0] P IH]; intros HP; simpl.
  - rewrite String.eqb_refl. reflexivity.
  - rewrite has_key_cons in HP. apply orb_false_iff in HP. destruct HP as [Hk HP].
    rewrite Hk. rewrite (IH HP). reflexivity.
Qed.

Lemma absent_key_differs (k : string) (D : dict L) (kv : string * pyval L) :
  has_key k D = false -> In kv D -> String.eqb (fst kv) k = false.
Proof.
  intros HD Hin. destruct (String.eqb (fst kv) k) eqn:Heq; [| reflexivity].
  apply String.eqb_eq in Heq. subst k.
  assert (has_key (fst kv) D = true) as Habs.
  { unfold has_key. apply existsb_exists. exists kv. split; [exact Hin |].
    apply String.eqb_refl. }
  rewrite Habs in HD. discriminate HD.
Qed.

(** The loop over the items not yet visited, [P] being the items already
    cleaned. *)
Lemma remove_from_dict_loop_tidy (startswith : string) (items : dict L) :
  Forall (fun kv => tidy_value startswith (snd kv) = true ->
                    remove_from_value startswith (snd kv)
                    = Ret (strip_value startswith (snd kv))) items ->
  tidy_value startswith (VDict items) = true ->
  forall P : dict L,
    (forall kv, In kv items -> has_key (fst kv) P = false) ->
    remove_from_dict_loop startswith (remove_from_value startswith) items (P ++ items)
    = Ret (P ++ strip_dict startswith items).
Proof.
  induction items as [| [k v] items IH]; intros Hclean Htidy P Hfresh.
  - reflexivity.
  - inversion Hclean as [| ? ? Hv Hrest]; subst. simpl in Hv.
    rewrite tidy_value_cons in Htidy.
    apply andb_true_iff in Htidy. destruct Htidy as [Htidy Hitems].
    apply andb_true_iff in Htidy. destruct Htidy as [Htidy Htv].
    apply andb_true_iff in Htidy. destruct Htidy as [Hnodup Hprivate].
    apply negb_true_iff in Hnodup.
    assert (HkP : has_key k P = false) by (apply (Hfresh (k, v)); left; reflexivity).
    assert (Hnext : forall v' kv, In kv items -> has_key (fst kv) (P ++ [(k, v')]) = false).
    { intros v' kv Hin. rewrite has_key_app, has_key_cons.
      rewrite (Hfresh kv (or_intror Hin)), (absent_key_differs k items kv Hnodup Hin).
      reflexivity. }
    cbn [remove_from_dict_loop]. rewrite strip_dict_cons.
    destruct (String.prefix startswith k) eqn:Hprefix.
    + rewrite (py_delitem_present k v P items HkP Hnodup). cbn [obind].
      destruct v as [l | d]; [| discriminate Hprivate].
      cbn [obind]. apply IH; [exact Hrest | exact Hitems |].
      intros kv Hin. apply Hfresh. right. exact Hin.
    + cbn [obind]. destruct v as [l | d].
      * cbn [obind].
        replace (P ++ (k, VLeaf l) :: items) with ((P ++ [(k, VLeaf l)]) ++ items)
          by (rewrite <- app_assoc; reflexivity).
        rewrite (IH Hrest Hitems (P ++ [(k, VLeaf l)]) (Hnext (VLeaf l))).
        rewrite <- app_assoc. reflexivity.
      * rewrite (py_getitem_present k (VDict d) P items HkP). cbn [obind].
        rewrite (Hv Htv). cbn [obind].
        rewrite (py_replace_present k (VDict d) (strip_value startswith (VDict d))
                   P items HkP).
        replace (P ++ (k, strip_value startswith (VDict d)) :: items)
          with ((P ++ [(k, strip_value startswith (VDict d))]) ++ items)
          by (rewrite <- app_assoc; reflexivity).
        rewrite (IH Hrest Hitems _ (Hnext (strip_value startswith (VDict d)))).
        rewrite <- app_assoc. reflexivity.
Qed.

Lemma remove_from_value_tidy (startswith : string) (v : pyval L) :
  tidy_value startswith v = true ->
  remove_from_value startswith v = Ret (strip_value startswith v).
Proof.
  induction v as [l | d IH] using pyval_nested_ind; intros Htidy.
  - reflexivity.
  - cbn [remove_from_value].
    pose proof (@remove_from_dict_loop_tidy startswith d IH Htidy []
                  (fun kv _ => eq_refl)) as Hloop.
    cbn [app] in Hloop. rewrite Hloop. reflexivity.
Qed.

(** On a dictionary in which no key occurs twice and no key beginning with
    the prefix holds a dictionary (at every nesting level), the call returns
    the dictionary without the keys beginning with the prefix, at every
    nesting level, the other items kept in order. *)
Lemma remove_from_dict_tidy (D : dict L) (startswith : string) :
  tidy_dict startswith D = true ->
  remove_from_dict D startswith = Ret (strip_dict startswith D).
Proof.
  intros Htidy. unfold remove_from_dict.
  apply (@remove_from_dict_loop_tidy startswith D) with (P := []).
  - apply Forall_forall. intros kv _ Hkv. apply remove_from_value_tidy. exact Hkv.
  - exact Htidy.
  - intros kv _. reflexivity.
Qed.

(** C7. A counterexample to the claim on the code: on the dictionary
    [{"_a": {}}] the call does not return the dictionary without its
    "_"-keys, it raises [KeyError] (the item is deleted, then looked up). *)
Theorem remove_from_dict_private_dict_raises :
  remove_from_dict [("_a", @VDict L [])] "_" = Raise (KeyError "_a")
  /\ strip_dict "_" [("_a", @VDict L [])] = [].
Proof.
  split.
  - unfold remove_from_dict. cbn [remove_from_dict_loop].
    change (String.prefix "_" "_a") with true. cbv iota.
    unfold py_delitem. change (has_key "_a" [("_a", @VDict L [])]) with true.
    cbv iota. cbn [obind]. rewrite py_getitem_deleted. reflexivity.
  - reflexivity.
Qed.

(** ** The outcome of [remove_from_dict] on any dictionary *)

(** No key occurs twice in one dictionary, at every nesting level (what a
    Python [dict] guarantees). *)
Fixpoint unique_keys (v : pyval L) : bool :=
  match v with
  | VLeaf _ => true
  | VDict d =>
      (fix unique (d : list (string * pyval L)) : bool :=
         match d with
         | [] => true
         | (k, v) :: d' => negb (has_key k d') && unique_keys v && unique d'
         end) d
  end.

(** Some key beginning with the prefix holds a dictionary, at some nesting
    level. *)
Fixpoint private_dict (startswith : string) (v : pyval L) : bool :=
  match v with
  | VLeaf _ => false
  | VDict d =>
      (fix any (d : list (string * pyval L)) : bool :=
         match d with
         | [] => false
         | (k, v) :: d' =>
             (match v with
              | VDict _ => String.prefix startswith k
              | VLeaf _ => false
              end)
             || private_dict startswith v
             || any d'
         end) d
  end.

(** Some key begins with the prefix, at some nesting level. *)
Fixpoint mentions (startswith : string) (v : pyval L) : bool :=
  match v with
  | VLeaf _ => false
  | VDict d =>
      (fix any (d : list (string * pyval L)) : bool :=
         match d with
         | [] => false
         | (k, v) :: d' => String.prefix startswith k || mentions startswith v || any d'
         end) d
  end.

Lemma unique_keys_cons (k : string) (v : pyval L) (d : dict L) :
  unique_keys (VDict ((k, v) :: d))
  = negb (has_key k d) && unique_keys v && unique_keys (VDict d).
Proof. reflexivity. Qed.

Lemma private_dict_cons (startswith k : string) (v : pyval L) (d : dict L) :
  private_dict startswith (VDict ((k, v) :: d))
  = (match v with
     | VDict _ => String.prefix startswith k
     | VLeaf _ => false
     end)
    || private_dict startswith v
    || private_dict startswith (VDict d).
Proof. reflexivity. Qed.

Lemma mentions_cons (startswith k : string) (v : pyval L) (d : dict L) :
  mentions startswith (VDict ((k, v) :: d))
  = String.prefix startswith k || mentions startswith v || mentions startswith (VDict d).
Proof. reflexivity. Qed.

(** [tidy_value] is the conjunction of the two conditions. *)
Lemma tidy_value_split (startswith : string) (v : pyval L) :
  tidy_value startswith v = unique_keys v && negb (private_dict startswith v).
Proof.
  induction v as [l | d IH] using pyval_nested_ind; [reflexivity |].
  induction d as [| [k v] d IHd]; [reflexivity |].
  inversion IH as [| ? ? Hv Hd]; subst. simpl in Hv.
  rewrite tidy_value_cons, unique_keys_cons, private_dict_cons, Hv, (IHd Hd).
  destruct (has_key k d), (unique_keys v), (unique_keys (VDict d)),
    (private_dict startswith v), (private_dict startswith (VDict d)), v as [l | d0],
    (String.prefix startswith k); reflexivity.
Qed.

Lemma py_getitem_absent (k : string) (D : dict L) :
  has_key k D = false -> py_getitem D k = Raise (KeyError k).
Proof.
  induction D as [| [k' v] D IH]; intros H; [reflexivity |].
  rewrite has_key_cons in H. apply orb_false_iff in H. destruct H as [Hk HD].
  simpl. rewrite Hk. apply IH. exact HD.
Qed.

(** The loop on a dictionary with unique keys in which a key beginning with
    the prefix holds a dictionary: it raises [KeyError] for such a key. *)
Lemma remove_from_dict_loop_private (startswith : string) (items : dict L) :
  Forall (fun kv => unique_keys (snd kv) = true ->
                    private_dict startswith (snd kv) = true ->
                    exists k, remove_from_value startswith (snd kv) = Raise (KeyError k)
                              /\ String.prefix startswith k = true) items ->
  unique_keys (VDict items) = true ->
  private_dict startswith (VDict items) = true ->
  forall P : dict L,
    (forall kv, In kv items -> has_key (fst kv) P = false) ->
    exists k,
      remove_from_dict_loop startswith (remove_from_value startswith) items (P ++ items)
      = Raise (KeyError k)
      /\ String.prefix startswith k = true.
Proof.
  induction items as [| [k v] items IH]; intros Hclean Huniq Hpriv P Hfresh.
  - discriminate Hpriv.
  - inversion Hclean as [| ? ? Hv Hrest]; subst. simpl in Hv.
    rewrite unique_keys_cons in Huniq.
    apply andb_true_iff in Huniq. destruct Huniq as [Huniq Hitems].
    apply andb_true_iff in Huniq. destruct Huniq as [Hnodup Huv].
    apply negb_true_iff in Hnodup.
    rewrite private_dict_cons in Hpriv.
    assert (HkP : has_key k P = false) by (apply (Hfresh (k, v)); left; reflexivity).
    assert (Hnext : forall v' kv, In kv items -> has_key (fst kv) (P ++ [(k, v')]) = false).
    { intros v' kv Hin. rewrite has_key_app, has_key_cons.
      rewrite (Hfresh kv (or_intror Hin)), (absent_key_differs k items kv Hnodup Hin).
      reflexivity. }
    cbn [remove_from_dict_loop].
    destruct (String.prefix startswith k) eqn:Hprefix.
    + rewrite (py_delitem_present k v P items HkP Hnodup). cbn [obind].
      destruct v as [l | d].
      * cbn [obind]. simpl in Hpriv. apply IH; [exact Hrest | exact Hitems | exact Hpriv |].
        intros kv Hin. apply Hfresh. right. exact Hin.
      * rewrite py_getitem_absent
          by (rewrite has_key_app, HkP, Hnodup; reflexivity).
        exists k. split; [reflexivity | exact Hprefix].
    + cbn [obind]. destruct v as [l | d].
      * cbn [obind]. simpl in Hpriv.
        replace (P ++ (k, VLeaf l) :: items) with ((P ++ [(k, VLeaf l)]) ++ items)
          by (rewrite <- app_assoc; reflexivity).
        apply IH; [exact Hrest | exact Hitems | exact Hpriv | exact (Hnext (VLeaf l))].
      * rewrite (py_getitem_present k (VDict d) P items HkP). cbn [obind].
        destruct (private_dict startswith (VDict d)) eqn:Hpd.
        -- destruct (Hv Huv eq_refl) as (k' & Hraise & Hk'). rewrite Hraise.
           exists k'. split; [reflexivity | exact Hk'].
        -- rewrite (remove_from_value_tidy startswith (VDict d))
             by (rewrite tidy_value_split, Huv, Hpd; reflexivity).
           cbn [obind].
           rewrite (py_replace_present k (VDict d) (strip_value startswith (VDict d))
                      P items HkP).
           replace (P ++ (k, strip_value startswith (VDict d)) :: items)
             with ((P ++ [(k, strip_value startswith (VDict d))]) ++ items)
             by (rewrite <- app_assoc; reflexivity).
           simpl in Hpriv.
           apply IH; [exact Hrest | exact Hitems | exact Hpriv |
                      exact (Hnext (strip_value startswith (VDict d)))].
Qed.

Lemma remove_from_value_private (startswith : string) (v : pyval L) :
  unique_keys v = true ->
  private_dict startswith v = true ->
  exists k, remove_from_value startswith v = Raise (KeyError k)
            /\ String.prefix startswith k = true.
Proof.
  induction v as [l | d IH] using pyval_nested_ind; intros Huniq Hpriv.
  - discriminate Hpriv.
  - cbn [remove_from_value].
    destruct (@remove_from_dict_loop_private startswith d IH Huniq Hpriv []
                (fun kv _ => eq_refl)) as (k & Hloop & Hk).
    cbn [app] in Hloop. rewrite Hloop. exists k. split; [reflexivity | exact Hk].
Qed.

Lemma strip_dict_absent (startswith k : string) (d : dict L) :
  has_key k d = false -> has_key k (strip_dict startswith d) = false.
Proof.
  induction d as [| [k' v] d IH]; intros H; [reflexivity |].
  rewrite has_key_cons in H. apply orb_false_iff in H. destruct H as [Hk Hd].
  rewrite strip_dict_cons. destruct (String.prefix startswith k').
  - apply IH. exact Hd.
  - rewrite has_key_cons, Hk. apply IH. exact Hd.
Qed.

(** The cleaned dictionary: no key begins with the prefix, its keys are
    unique, and cleaning it again changes nothing. *)
Lemma strip_value_clean (startswith : string) (v : pyval L) :
  unique_keys v = true ->
  mentions startswith (strip_value startswith v) = false
  /\ unique_keys (strip_value startswith v) = true
  /\ strip_value startswith (strip_value startswith v) = strip_value startswith v.
Proof.
  induction v as [l | d IH] using pyval_nested_ind; intros Huniq.
  - repeat split; reflexivity.
  - induction d as [| [k v] d IHd].
    + repeat split; reflexivity.
    + inversion IH as [| ? ? Hv Hd]; subst. simpl in Hv.
      rewrite unique_keys_cons in Huniq.
      apply andb_true_iff in Huniq. destruct Huniq as [Huniq Hud].
      apply andb_true_iff in Huniq. destruct Huniq as [Hnodup Huv].
      apply negb_true_iff in Hnodup.
      destruct (IHd Hd Hud) as (Hm & Hu & Hs).
      destruct (Hv Huv) as (Hmv & Huv' & Hsv).
      rewrite strip_value_dict in Hm, Hu, Hs. rewrite strip_value_dict in Hs.
      injection Hs as Hs.
      rewrite strip_value_dict, strip_dict_cons.
      destruct (String.prefix startswith k) eqn:Hprefix.
      * rewrite strip_value_dict, Hs. repeat split; assumption.
      * rewrite mentions_cons, unique_keys_cons, Hprefix, Hmv, Huv', Hm, Hu.
        rewrite (strip_dict_absent startswith k d Hnodup).
        repeat split; try reflexivity.
        rewrite strip_value_dict, strip_dict_cons, Hprefix, Hsv, Hs. reflexivity.
Qed.

Lemma mentions_private (startswith : string) (v : pyval L) :
  mentions startswith v = false -> private_dict startswith v = false.
Proof.
  induction v as [l | d IH] using pyval_nested_ind; intros Hm; [reflexivity |].
  induction d as [| [k v] d IHd]; [reflexivity |].
  inversion IH as [| ? ? Hv Hd]; subst. simpl in Hv.
  rewrite mentions_cons in Hm.
  apply orb_false_iff in Hm. destruct Hm as [Hm Hmd].
  apply orb_false_iff in Hm. destruct Hm as [Hp Hmv].
  rewrite private_dict_cons, Hp, (Hv Hmv), (IHd Hd Hmd).
  destruct v; reflexivity.
Qed.

Lemma strip_value_unmentioned (startswith : string) (v : pyval L) :
  mentions startswith v = false -> strip_value startswith v = v.
Proof.
  induction v as [l | d IH] using pyval_nested_ind; intros Hm; [reflexivity |].
  induction d as [| [k v] d IHd]; [reflexivity |].
  inversion IH as [| ? ? Hv Hd]; subst. simpl in Hv.
  rewrite mentions_cons in Hm.
  apply orb_false_iff in Hm. destruct Hm as [Hm Hmd].
  apply orb_false_iff in Hm. destruct Hm as [Hp Hmv].
  rewrite strip_value_dict, strip_dict_cons, Hp, (Hv Hmv).
  specialize (IHd Hd Hmd). rewrite strip_value_dict in IHd.
  injection IHd as IHd. rewrite IHd. reflexivity.
Qed.

(** On a dictionary whose keys are unique at every nesting level, the call
    returns exactly when no key beginning with the prefix holds a
    dictionary, at any nesting level. It then returns the dictionary without
    the keys beginning with the prefix, at every nesting level, the other
    items in their order; otherwise it raises [KeyError] for a key that
    begins with the prefix. *)
Theorem remove_from_dict_outcome (D : dict L) (startswith : string) :
  unique_keys (VDict D) = true ->
  (private_dict startswith (VDict D) = false ->
   remove_from_dict D startswith = Ret (strip_dict startswith D))
  /\ (private_dict startswith (VDict D) = true ->
      exists k, remove_from_dict D startswith = Raise (KeyError k)
                /\ String.prefix startswith k = true).
Proof.
  intros Huniq. split; intros Hpriv.
  - apply remove_from_dict_tidy. unfold tidy_dict.
    rewrite tidy_value_split, Huniq, Hpriv. reflexivity.
  - unfold remove_from_dict.
    apply (@remove_from_dict_loop_private startswith D) with (P := []).
    + apply Forall_forall. intros kv _. apply remove_from_value_private.
    + exact Huniq.
    + exact Hpriv.
    + intros kv _. reflexivity.
Qed.

(** Whenever the call returns on a dictionary with unique keys, no key of
    the result begins with the prefix, at any nesting level, and a second
    call on the result returns it unchanged. *)
Theorem remove_from_dict_result (D D' : dict L) (startswith : string) :
  unique_keys (VDict D) = true ->
  remove_from_dict D startswith = Ret D' ->
  mentions startswith (VDict D') = false
  /\ remove_from_dict D' startswith = Ret D'.
Proof.
  intros Huniq Hret.
  destruct (private_dict startswith (VDict D)) eqn:Hpriv.
  - destruct (remove_from_value_private startswith (VDict D) Huniq Hpriv)
      as (k & Hraise & _).
    cbn [remove_from_value] in Hraise. unfold remove_from_dict in Hret.
    rewrite Hret in Hraise. discriminate Hraise.
  - rewrite remove_from_dict_tidy in Hret
      by (unfold tidy_dict; rewrite tidy_value_split, Huniq, Hpriv; reflexivity).
    inversion Hret; subst D'.
    destruct (strip_value_clean startswith (VDict D) Huniq) as (Hm & Hu & Hs).
    rewrite strip_value_dict in Hm, Hu, Hs.
    split; [exact Hm |].
    rewrite remove_from_dict_tidy.
    + rewrite strip_value_dict in Hs. injection Hs as Hs. rewrite Hs. reflexivity.
    + unfold tidy_dict. rewrite tidy_value_split, Hu, (mentions_private _ _ Hm).
      reflexivity.
Qed.

End DictFacts.

(** * Concrete scalars

    Two instances of the scalar interface on which the properties are
    exercised: IEEE binary64 numbers (comparisons, NaN; what a float64 array
    holds), and exact complex numbers extended with NaN (arithmetic without
    rounding). *)

Module Float64.

Definition of_Z (z : Z) : float :=
  if Z.ltb z 0 then PrimFloat.opp (PrimFloat.of_uint63 (Uint63.of_Z (- z)))
  else PrimFloat.of_uint63 (Uint63.of_Z z).

(** the binary64 number nearest to the quotient of two exactly
    representable integers *)
Definition of_Q (q : Q) : float :=
  PrimFloat.div (of_Z (Qnum q)) (of_Z (Zpos (Qden q))).

(** [x ** n] by repeated multiplication *)
Definition pow (x : float) (n : Z) : float :=
  let p := Nat.iter (Z.to_nat (Z.abs n)) (fun y => PrimFloat.mul y x) PrimFloat.one in
  if Z.ltb n 0 then PrimFloat.div PrimFloat.one p else p.

#[global] Instance arith : NpArith float := {
  flt := of_Q;
  npi := 0x1.921fb54442d18p+1%float;
  nadd := PrimFloat.add;
  nsub := PrimFloat.sub;
  nmul := PrimFloat.mul;
  ndiv := PrimFloat.div;
  nneg := PrimFloat.opp;
  npow := pow;
  nsqrt := PrimFloat.sqrt;
  nabs := PrimFloat.abs
}.

#[global] Instance compare : NpCompare float := {
  nge := fun x y => PrimFloat.leb y x;
  nlt := PrimFloat.ltb;
  nle := PrimFloat.leb;
  nne := fun x y => negb (PrimFloat.eqb x y)
}.

#[global] Instance nonfinite : NpNonFinite float := {
  nan := PrimFloat.nan;
  nisfinite := fun x =>
    match PrimFloat.classify x with
    | NaN | PInf | NInf => false
    | _ => true
    end
}.

End Float64.

(** Facts of IEEE binary64 arithmetic the properties rest on. *)
Module Float64Facts.

(** 0 lies in [-0.5, 0.5). *)
Lemma zero_in_range : nge (flt 0) (flt (-1 # 2)) && nlt (flt 0) (flt (1 # 2)) = true.
Proof. vm_compute. reflexivity. Qed.

(** A number in [-0.5, 0.5) is neither NaN nor infinite. *)
Lemma in_range_finite (x : float) :
  nge x (flt (-1 # 2)) && nlt x (flt (1 # 2)) = true -> nisfinite x = true.
Proof.
  cbn [nge nlt Float64.compare nisfinite Float64.nonfinite].
  rewrite FloatAxioms.leb_spec, FloatAxioms.ltb_spec, FloatAxioms.classify_spec.
  replace (FloatOps.Prim2SF (flt (-1 # 2)))
    with (SpecFloat.S754_finite true 4503599627370496 (-53))
    by (vm_compute; reflexivity).
  replace (FloatOps.Prim2SF (flt (1 # 2)))
    with (SpecFloat.S754_finite false 4503599627370496 (-53))
    by (vm_compute; reflexivity).
  destruct (FloatOps.Prim2SF x) as [sg | sg | | sg m e].
  - intros _. destruct sg; reflexivity.
  - destruct sg; vm_compute; intros H; discriminate H.
  - vm_compute. intros H; discriminate H.
  - intros _. unfold FloatAxioms.SF64classify, SpecFloat.SFclassify.
    destruct sg; destruct (_ =? _)%Z; reflexivity.
Qed.

(** NaN differs from every number, itself included. *)
Lemma nan_differs (y : float) : nne PrimFloat.nan y = true.
Proof.
  cbn [nne Float64.compare]. rewrite FloatAxioms.eqb_spec.
  replace (FloatOps.Prim2SF PrimFloat.nan) with SpecFloat.S754_nan
    by (vm_compute; reflexivity).
  reflexivity.
Qed.

End Float64Facts.

(** ** The qmap cache on a concrete detector *)

Module CacheExample.
Import Float64.

(** A rotation is given by its angle about the beam axis in degrees; two
    rotations are similar when the angles differ by less than 2 degrees. *)
Definition is_similar (r : Z) (cached : option Z) : outcome bool :=
  match cached with
  | Some r' => Ret (Z.ltb (Z.abs (r - r')) 2)
  | None => Raise (AttributeError "'NoneType' object has no attribute 'get_as_rotation_matrix'")
  end.

(** a detector of one pixel whose scattering vector turns with the rotation *)
Definition generate_qmap (wavelength cx cy : float) (rotation : option Z)
    (order : option string) : Qmap unit :=
  fun _ =>
    match rotation with
    | None => (of_Z 1, of_Z 0, of_Z 0)
    | Some r => (of_Z 0, of_Z r, of_Z 0)
    end.

Definition geometry_get_qmap (rotation : option Z) (order : string)
  : M unit unit Z (Qmap unit) :=
  get_qmap is_similar generate_qmap 4 4 (of_Q (3 # 2)) (of_Q (3 # 2))
    (of_Q (1 # 10000)) (of_Q (1 # 10)) (of_Q (1 # 10000000000)) rotation order.

(** the entry a call with a rotation by 90 degrees leaves in the cache *)
Definition entry_90 : QmapCacheEntry unit Z :=
  new_cache_entry generate_qmap 4 4 (of_Q (3 # 2)) (of_Q (3 # 2))
    (of_Q (1 # 10000)) (of_Q (1 # 10)) (of_Q (1 # 10000000000)) (Some 90%Z) "xyz".

Definition cached_90 : state unit unit Z :=
  {| world := tt; _qmap_cache := Some entry_90; logged := [] |}.

End CacheExample.

(** C1, counterexample. The cache holds the field of a rotation by 90
    degrees. A call with the same eight parameters and no rotation finds all
    compared parameters equal, returns the cached field and leaves the cache
    and the log as they were, although the rotation differs (none against 90
    degrees) and the field of a direct recomputation is another one. *)
Lemma get_qmap_ignores_cached_rotation :
  params_differ CacheExample.entry_90 4 4 (Float64.of_Q (3 # 2)) (Float64.of_Q (3 # 2))
    (Float64.of_Q (1 # 10000)) (Float64.of_Q (1 # 10)) (Float64.of_Q (1 # 10000000000))
    "xyz" = false
  /\ c_extrinsic_rotation CacheExample.entry_90 = Some 90%Z
  /\ CacheExample.geometry_get_qmap None "xyz" CacheExample.cached_90
     = (Ret (c_qmap CacheExample.entry_90), CacheExample.cached_90)
  /\ PrimFloat.eqb
       (c0 (c_qmap CacheExample.entry_90 tt))
       (c0 (CacheExample.generate_qmap (Float64.of_Q (1 # 10000000000))
              (Float64.of_Q (3 # 2)) (Float64.of_Q (3 # 2)) None (Some "xyz") tt))
     = false.
Proof.
  split; [vm_compute; reflexivity |].
  split; [reflexivity |].
  split; [| vm_compute; reflexivity].
  apply get_qmap_hit; [reflexivity |].
  vm_compute. reflexivity.
Qed.

(** C1, witness: the same cache, asked again for the rotation by 90 degrees
    and then for a rotation by 180 degrees. *)
Lemma get_qmap_cache_amended_witness :
  CacheExample.geometry_get_qmap (Some 90%Z) "xyz" CacheExample.cached_90
  = (Ret (c_qmap CacheExample.entry_90), CacheExample.cached_90)
  /\ CacheExample.geometry_get_qmap (Some 180%Z) "xyz" CacheExample.cached_90
     = (Ret (CacheExample.generate_qmap (Float64.of_Q (1 # 10000000000))
               (Float64.of_Q (3 # 2)) (Float64.of_Q (3 # 2)) (Some 180%Z) (Some "xyz")),
        recomputed CacheExample.generate_qmap CacheExample.cached_90 4 4
          (Float64.of_Q (3 # 2)) (Float64.of_Q (3 # 2)) (Float64.of_Q (1 # 10000))
          (Float64.of_Q (1 # 10)) (Float64.of_Q (1 # 10000000000)) (Some 180%Z) "xyz").
Proof.
  split.
  - apply (proj1 (get_qmap_cache_amended CacheExample.is_similar
                    CacheExample.generate_qmap
                    CacheExample.cached_90 4 4 (Float64.of_Q (3 # 2))
                    (Float64.of_Q (3 # 2)) (Float64.of_Q (1 # 10000))
                    (Float64.of_Q (1 # 10)) (Float64.of_Q (1 # 10000000000))
                    (Some 90%Z) "xyz" (eq_refl _))).
    + repeat split; vm_compute; reflexivity.
    + right. exists 90%Z. split; reflexivity.
  - apply (proj1 (proj2 (get_qmap_cache_amended CacheExample.is_similar
                           CacheExample.generate_qmap
                           CacheExample.cached_90 4 4 (Float64.of_Q (3 # 2))
                           (Float64.of_Q (3 # 2)) (Float64.of_Q (1 # 10000))
                           (Float64.of_Q (1 # 10)) (Float64.of_Q (1 # 10000000000))
                           (Some 180%Z) "xyz" (eq_refl _)))).
    right. exists 180%Z. split; reflexivity.
Defined.

(** ** The input check of the map kernel on a concrete sample *)

Module MapExample.

(** one rescaled sample, (0.7, 0.1, 0.2): its first component is out of
    range, the other two are in range *)
Definition qmap_shaped : Qmap unit :=
  fun _ => (Float64.of_Q (7 # 10), Float64.of_Q (1 # 10), Float64.of_Q (1 # 5)).

Definition fresh : state (num:=float) unit unit unit :=
  {| world := tt; _qmap_cache := None; logged := [] |}.

End MapExample.

(** C4, counterexample. The sample (0.7, 0.1, 0.2) has a component outside
    [-0.5, 0.5); the sample handed to the transform is (0, 0.1, 0.2), not the
    zero vector: only the offending component is set to zero. *)
Lemma check_inputs_zeroes_components_only :
  row_any (invalid_mask MapExample.qmap_shaped tt) = true
  /\ check_inputs [tt] MapExample.qmap_shaped MapExample.fresh
     = (Ret (zero_invalid MapExample.qmap_shaped (invalid_mask MapExample.qmap_shaped)),
        {| world := tt; _qmap_cache := None;
           logged := [(WARNING, "1 invalid pixel positions.")] |})
  /\ zero_invalid MapExample.qmap_shaped (invalid_mask MapExample.qmap_shaped) tt
     = (Float64.of_Q 0, Float64.of_Q (1 # 10), Float64.of_Q (1 # 5))
  /\ PrimFloat.eqb
       (c1 (zero_invalid MapExample.qmap_shaped (invalid_mask MapExample.qmap_shaped) tt))
       (Float64.of_Q 0)
     = false.
Proof.
  split; [vm_compute; reflexivity |].
  split; [| split; vm_compute; reflexivity].
  unfold check_inputs. cbv zeta.
  replace (any_invalid [tt] (invalid_mask MapExample.qmap_shaped)) with true
    by (vm_compute; reflexivity).
  replace (count_invalid [tt] (invalid_mask MapExample.qmap_shaped)) with 1%nat
    by (vm_compute; reflexivity).
  reflexivity.
Qed.

(** ** Exact complex scalars *)

Module Exact.

Local Open Scope R_scope.

(** a complex number is a pair (real part, imaginary part); [None] is NaN *)
Definition complex : Type := (R * R)%type.
Definition cnum : Type := option complex.

Definition of_R (x : R) : cnum := Some (x, 0).

Definition lift1 (f : complex -> complex) (a : cnum) : cnum :=
  match a with
  | Some x => Some (f x)
  | None => None
  end.

Definition lift2 (f : complex -> complex -> complex) (a b : cnum) : cnum :=
  match a, b with
  | Some x, Some y => Some (f x y)
  | _, _ => None
  end.

Definition Cadd (x y : complex) : complex := (fst x + fst y, snd x + snd y).
Definition Csub (x y : complex) : complex := (fst x - fst y, snd x - snd y).
Definition Cmul (x y : complex) : complex :=
  (fst x * fst y - snd x * snd y, fst x * snd y + snd x * fst y).
Definition Copp (x : complex) : complex := (- fst x, - snd x).
Definition norm2 (x : complex) : R := fst x * fst x + snd x * snd x.
Definition Cabs (x : complex) : complex := (sqrt (norm2 x), 0).

(** the principal square root *)
Definition Csqrt (x : complex) : complex :=
  let m := sqrt (norm2 x) in
  (sqrt ((m + fst x) / 2),
   (if Rle_dec 0 (snd x) then 1 else -1) * sqrt ((m - fst x) / 2)).

Definition Cexp (x : complex) : complex :=
  (exp (fst x) * cos (snd x), exp (fst x) * sin (snd x)).

(** a division by zero yields NaN *)
Definition div (a b : cnum) : cnum :=
  match a, b with
  | Some x, Some y =>
      if Req_dec_T (norm2 y) 0 then None
      else Some ((fst x * fst y + snd x * snd y) / norm2 y,
                 (snd x * fst y - fst x * snd y) / norm2 y)
  | _, _ => None
  end.

Fixpoint Cpow_nat (x : complex) (n : nat) : complex :=
  match n with
  | O => (1, 0)
  | S n' => Cmul x (Cpow_nat x n')
  end.

Definition pow (a : cnum) (n : Z) : cnum :=
  if Z.leb 0 n then lift1 (fun x => Cpow_nat x (Z.to_nat n)) a
  else div (of_R 1) (lift1 (fun x => Cpow_nat x (Z.to_nat (- n))) a).

(** the angle of the point (x, y) in (-pi, pi] *)
Definition atan2 (y x : R) : R :=
  if Rlt_dec 0 x then atan (y / x)
  else if Rlt_dec x 0 then
         if Rle_dec 0 y then atan (y / x) + PI else atan (y / x) - PI
  else if Rlt_dec 0 y then PI / 2
  else if Rlt_dec y 0 then - PI / 2
  else 0.

Definition Rleb (x y : R) : bool := if Rle_dec x y then true else false.
Definition Rltb (x y : R) : bool := if Rlt_dec x y then true else false.

(** The comparisons look at the real parts (the engine compares real
    numbers only); every comparison with NaN but [!=] is false. *)
Definition compare_real (c : R -> R -> bool) (a b : cnum) : bool :=
  match a, b with
  | Some x, Some y => c (fst x) (fst y)
  | _, _ => false
  end.

Definition ne (a b : cnum) : bool :=
  match a, b with
  | Some x, Some y =>
      if Req_dec_T (fst x) (fst y)
      then if Req_dec_T (snd x) (snd y) then false else true
      else true
  | _, _ => true
  end.

#[global] Instance arith : NpArith cnum := {
  flt := fun q => of_R (Q2R q);
  npi := of_R PI;
  nadd := lift2 Cadd;
  nsub := lift2 Csub;
  nmul := lift2 Cmul;
  ndiv := div;
  nneg := lift1 Copp;
  npow := pow;
  nsqrt := lift1 Csqrt;
  nabs := lift1 Cabs
}.

#[global] Instance compare : NpCompare cnum := {
  nge := compare_real (fun x y => Rleb y x);
  nlt := compare_real Rltb;
  nle := compare_real Rleb;
  nne := ne
}.

#[global] Instance nonfinite : NpNonFinite cnum := {
  nan := None;
  nisfinite := fun a => match a with Some _ => true | None => false end
}.

#[global] Instance cexp : NpExp cnum := {
  cj := Some (0, 1);
  nexp := lift1 Cexp
}.

#[global] Instance angles : NpAngles cnum := {
  nangle := lift1 (fun x => (atan2 (snd x) (fst x), 0));
  narcsin := lift1 (fun x => (asin (fst x), 0));
  narctan2 := lift2 (fun y x => (atan2 (fst y) (fst x), 0))
}.

Lemma nadd_comm (a b : cnum) : nadd a b = nadd b a.
Proof.
  destruct a as [[a1 a2] |], b as [[b1 b2] |]; simpl; try reflexivity.
  unfold Cadd; simpl. f_equal. f_equal; ring.
Qed.

Lemma nadd_assoc (a b c : cnum) : nadd a (nadd b c) = nadd (nadd a b) c.
Proof.
  destruct a as [[a1 a2] |], b as [[b1 b2] |], c as [[c1 c2] |]; simpl;
    try reflexivity.
  unfold Cadd; simpl. f_equal. f_equal; ring.
Qed.

(** a real number within the absolute tolerance is close to zero *)
Lemma isclose_zero_real (x : R) :
  0 <= x -> x <= Q2R (1 # 1000000000000) -> isclose_zero (of_R x) = true.
Proof.
  intros H0 Hx. unfold isclose_zero. simpl.
  unfold Rleb, norm2. simpl.
  replace ((x - Q2R 0) * (x - Q2R 0) + (0 - 0) * (0 - 0)) with (x * x)
    by (unfold Q2R; simpl; field).
  rewrite (sqrt_square x H0).
  replace (Q2R 0 * Q2R 0 + 0 * 0) with 0 by (unfold Q2R; simpl; field).
  rewrite sqrt_0.
  destruct (Rle_dec x _) as [Hle | Hnle]; [reflexivity |].
  exfalso. apply Hnle. lra.
Qed.

End Exact.

(** ** The phase shift on a concrete particle *)

Module PhaseExample.
Import Exact.

(** a particle 1e-13 m off the beam axis, an amplitude of 1 and a pixel of
    scattering vector (1, 0, 0) *)
Definition v : V3 (num:=cnum) := (flt (1 # 10000000000000), flt 0, flt 0).
Definition F : Arr (num:=cnum) unit := fun _ => flt 1.
Definition qmap0 : Qmap (num:=cnum) unit := fun _ => (flt 1, flt 0, flt 0).

Lemma offset_small : allclose_zero v = true.
Proof.
  unfold allclose_zero, v, c0, c1, c2. cbn [fst snd flt arith].
  rewrite !isclose_zero_real; try reflexivity; unfold Q2R; simpl; lra.
Qed.

End PhaseExample.

(** C5, counterexample. The offset (1e-13, 0, 0) is not zero, yet it is within
    the tolerance of [numpy.allclose]: the amplitude is added unchanged, and
    it differs from the amplitude multiplied by the phase factor
    exp(-i 1e-13). *)
Lemma phase_shift_skips_small_offsets :
  c0 PhaseExample.v <> flt 0
  /\ allclose_zero PhaseExample.v = true
  /\ phase_shift PhaseExample.v PhaseExample.F PhaseExample.qmap0 tt = PhaseExample.F tt
  /\ amul PhaseExample.F (phase_factor PhaseExample.v PhaseExample.qmap0) tt
     <> PhaseExample.F tt.
Proof.
  split; [| split; [| split]].
  - unfold PhaseExample.v, c0. simpl. unfold Exact.of_R. intros H.
    injection H as H. unfold Q2R in H. simpl in H. lra.
  - exact PhaseExample.offset_small.
  - unfold phase_shift. rewrite PhaseExample.offset_small. reflexivity.
  - unfold amul, phase_factor, PhaseExample.F, PhaseExample.v, PhaseExample.qmap0,
      c0, c1, c2.
    simpl. unfold Exact.of_R, Exact.Cmul, Exact.Cadd, Exact.Copp, Exact.Cexp. simpl.
    intros H. injection H as _ Him.
    match type of Him with context [sin ?t] => set (angle := t) in Him end.
    match type of Him with context [(exp ?t * sin angle)%R] => set (growth := t) in Him end.
    assert (Hangle : angle = (- (1 / 10000000000000))%R)
      by (unfold angle, Q2R; simpl; lra).
    assert (Hone : Q2R 1 = 1%R) by (unfold Q2R; simpl; lra).
    rewrite Hone, Rmult_0_l, Rplus_0_r, Rmult_1_l, Hangle, sin_neg in Him.
    pose proof (exp_pos growth) as Hexp.
    assert (Hsin : (0 < sin (1 / 10000000000000))%R).
    { apply sin_gt_0; [lra |]. pose proof PI2_1. lra. }
    destruct (Rmult_integral _ _ Him) as [Hz | Hz]; lra.
Qed.

(** ** A small experiment

    A detector of one pixel, a sphere model and a spheroid model, and a
    sampler that misses twice before each model yields one particle. The
    collaborators are the simplest functions of their types. *)

Module Bench.
Import Exact.

Definition elements : list unit := [tt].

Definition D_source : DSource (num:=cnum) unit pclass unit unit unit :=
  {| wavelength := flt (1 # 10000000000);
     pulse_energy := flt (1 # 1000);
     source_extra := [] |}.

Definition D_detector : DDetector (num:=cnum) unit pclass unit unit unit :=
  {| nx := 4; ny := 4; cx := flt (3 # 2); cy := flt (3 # 2);
     pixel_size := flt (1 # 10000); distance := flt (1 # 10);
     detector_extra := [] |}.

(** a particle of diameter 100 nm on the beam axis *)
Definition D_particle (p : pclass) : DParticle (num:=cnum) unit pclass unit unit unit :=
  {| _class_instance := p;
     position := (flt 0, flt 0, flt 0);
     extrinsic_quaternion := tt;
     diameter := Some (flt (1 # 10000000));
     flattening := Some (flt (3 # 4));
     particle_extra := [];
     intensity := None; F0 := None; map3d_dn := None; dx := None |}.

Definition qmap0 : Qmap (num:=cnum) unit := fun _ => (flt 1, flt 0, flt 0).

Definition Rotation_quaternion (q : unit) : unit := tt.
Definition is_similar (r : unit) (cached : option unit) : outcome bool := Ret true.
Definition rotate_vector (r : unit) (v : V3 (num:=cnum)) : V3 (num:=cnum) := v.

Definition source_get_next (w : nat) := (D_source, w).
Definition source_get_intensity (pos : V3 (num:=cnum)) (unit : string)
    (pulse_energy : cnum) : cnum := flt 1.
Definition source_polarization : string := "vertical".

Definition detector_get_next (w : nat) := (D_detector, w).
Definition detector_generate_qmap (wavelength cx cy : cnum) (rotation : option unit)
    (order : option string) : Qmap (num:=cnum) unit := qmap0.
Definition detector_generate_qmap_3d (wavelength : cnum) (qn : option Z)
    (qmax : option cnum) (rotation : option unit) (order : string)
  : Qmap (num:=cnum) unit := qmap0.
Definition detector_get_q_max (wavelength : cnum) (pos : string) : list cnum :=
  [flt 1; flt 1; flt 0].
Definition detector_solid_angle_correction : bool := false.
Definition detector_get_all_pixel_solid_angles (cx cy : cnum) : Arr (num:=cnum) unit :=
  fun _ => flt 1.
Definition detector_get_resolution_element_r (wavelength : cnum) (cx cy : option cnum)
    (center_variation : bool) : cnum := flt 1.
Definition detector_calculate_polarization_factors (cx cy : cnum) (polarization : string)
  : Arr (num:=cnum) unit := fun _ => flt 1.
Definition detector_detect_photons (I : Arr (num:=cnum) unit) (w : nat)
  : (unit * unit) * nat := ((tt, tt), w).
Definition detector_binning : option Z := None.
Definition detector_bin_photons (I M : unit) : unit * unit := (tt, tt).
Definition detector_get_max_resolution (wavelength : cnum) : cnum := flt 1.
Definition downsample (F : Arr (num:=cnum) unit) (binning : Z) (M : unit)
  : unit * option unit := (tt, None).

Definition particles : list (string * pclass) :=
  [("particle_sphere", ParticleSphere); ("particle_spheroid", ParticleSpheroid)].
Definition class_of (p : pclass) : pclass := p.
(** the world counts the draws: the first four draws give no particle *)
Definition get_next_number_of_particles (p : pclass) (w : nat) : Z * nat :=
  ((if Nat.ltb w 4 then 0 else 1)%Z, S w).
Definition particle_get_next (p : pclass) (w : nat) := (D_particle p, w).
Definition get_dn (p : pclass) (wavelength : cnum) : cnum := flt (1 # 1000000).
Definition get_new_dn_map (p : pclass)
    (D : DParticle (num:=cnum) unit pclass unit unit unit)
    (dx_required dx_suggested wavelength : cnum) : unit * cnum := (tt, dx_required).

Definition F_sphere_diffraction (K : cnum) (q : Arr (num:=cnum) unit) (R : cnum)
  : Arr (num:=cnum) unit := fun i => nmul (nsqrt (nabs K)) (q i).
Definition to_spheroid_semi_diameter_a (d f : cnum) : cnum := d.
Definition to_spheroid_semi_diameter_c (d f : cnum) : cnum := nmul d f.
Definition F_spheroid_diffraction (K : cnum) (qx qy : Arr (num:=cnum) unit)
    (a c theta phi : cnum) : Arr (num:=cnum) unit := fun i => nmul (nsqrt (nabs K)) (qx i).
Definition nfft (m : unit) (q : Qmap (num:=cnum) unit) : Arr (num:=cnum) unit :=
  fun i => c0 (q i).
Definition map3d_values (m : unit) : list cnum := [flt 1].

Definition spsim_importable : bool := true.
Definition spsim_version : option string := Some "0.2.0".
Definition StrictVersion_lt (a b : string) : bool := false.
Definition spsim_simulate_shot (Ds : DSource (num:=cnum) unit pclass unit unit unit)
    (Dp : DParticle (num:=cnum) unit pclass unit unit unit)
    (Dd : DDetector (num:=cnum) unit pclass unit unit unit)
    (ndim : Z) (qn : option Z) (qmax : option cnum) : spsim_pattern (num:=cnum) unit :=
  {| phot_image := fun _ => flt 0; F_image := fun _ => flt 0; hkl_image := qmap0 |}.

(** a fresh experiment *)
Definition start : state (num:=cnum) unit nat unit :=
  {| world := O; _qmap_cache := None; logged := [] |}.

(** the engine on these collaborators *)
Definition propagate_3d (fuel : nat) : M unit nat unit (dict (leaf unit pclass unit unit unit)) :=
  _propagate elements Rotation_quaternion is_similar rotate_vector source_get_next
    source_get_intensity source_polarization detector_get_next detector_generate_qmap
    detector_generate_qmap_3d detector_get_q_max detector_solid_angle_correction
    detector_get_all_pixel_solid_angles detector_get_resolution_element_r
    detector_calculate_polarization_factors detector_detect_photons detector_binning
    detector_bin_photons detector_get_max_resolution downsample particles class_of
    get_next_number_of_particles particle_get_next get_dn get_new_dn_map
    F_sphere_diffraction to_spheroid_semi_diameter_a to_spheroid_semi_diameter_c
    F_spheroid_diffraction nfft map3d_values spsim_importable spsim_version
    StrictVersion_lt spsim_simulate_shot false false 3 None None fuel.

Definition sample (fuel : nat)
  : M unit nat unit (DParticles (num:=cnum) unit pclass unit unit unit) :=
  _get_next_particles (Rotation:=unit) particles get_next_number_of_particles
    particle_get_next fuel.

End Bench.

(** the arguments of the particle kernels on the bench *)
Abbreviation on_bench f :=
  (f unit Bench.elements nat pclass unit unit unit unit Bench.Rotation_quaternion Bench.is_similar Bench.rotate_vector
     Bench.source_get_intensity Bench.detector_generate_qmap
     Bench.detector_generate_qmap_3d Bench.detector_solid_angle_correction
     Bench.detector_get_all_pixel_solid_angles Bench.detector_get_resolution_element_r
     Bench.class_of Bench.get_dn Bench.get_new_dn_map Bench.F_sphere_diffraction
     Bench.to_spheroid_semi_diameter_a Bench.to_spheroid_semi_diameter_c
     Bench.F_spheroid_diffraction Bench.nfft Bench.map3d_values Bench.spsim_importable
     Bench.spsim_version Bench.StrictVersion_lt Bench.spsim_simulate_shot)
  (only parsing).

(** The sampler of the bench misses twice, then yields a sphere and a
    spheroid; three rounds of fuel are enough. *)
Example bench_sampling :
  Bench.sample 3 Bench.start
  = (Ret [("particle_00", Bench.D_particle ParticleSphere);
          ("particle_01", Bench.D_particle ParticleSpheroid)],
     {| world := 6%nat; _qmap_cache := None;
        logged := [(INFO, miss_message); (INFO, miss_message); (DEBUG, "2 particles")] |}).
Proof. reflexivity. Qed.

(** the amplitude of the bench's sphere in 3-D mode, by evaluation *)
Definition bench_sphere_field : Arr (num:=Exact.cnum) unit :=
  amul (Bench.F_sphere_diffraction
          (npow (nmul (nmul (primary_wave_amplitude (flt 1) (wavelength Bench.D_source))
                            (sphere_volume (ndiv (flt (1 # 10000000)) (flt 2))))
                      (flt (1 # 1000000))) 2)
          (qnorm Bench.qmap0)
          (ndiv (flt (1 # 10000000)) (flt 2)))
       (asqrt (solid_angles Bench.detector_solid_angle_correction
                 Bench.detector_get_all_pixel_solid_angles Bench.D_detector)).

Lemma bench_sphere_amplitude :
  on_bench particle_amplitude false 3 None None Bench.D_source Bench.D_detector
    Bench.qmap0 (Bench.D_particle ParticleSphere) Bench.start
  = (Ret (bench_sphere_field, Bench.qmap0,
          annotated Bench.source_get_intensity Bench.D_source
            (Bench.D_particle ParticleSphere)),
     Bench.start).
Proof. reflexivity. Qed.

(** C9, witness: on the bench some round yields particles (the third), so
    the loop ends with the particles of that round. *)
Lemma _get_next_particles_witness :
  exists k D s',
    D <> []
    /\ D = round_particles Bench.particles Bench.get_next_number_of_particles
             Bench.particle_get_next
             (after_misses Bench.particles Bench.get_next_number_of_particles
                Bench.particle_get_next k Bench.start)
    /\ (forall fuel, (k < fuel)%nat -> Bench.sample fuel Bench.start = (Ret D, s'))
    /\ logged s'
       = logged Bench.start ++ repeat (INFO, miss_message) k
           ++ [(DEBUG, (fmt_i (List.length D) ++ " particles")%string)]
    /\ _qmap_cache s' = _qmap_cache Bench.start.
Proof.
  apply (proj2 (_get_next_particles_returns_nonempty Bench.particles
                  Bench.get_next_number_of_particles Bench.particle_get_next
                  Bench.start)).
  exists 2%nat. vm_compute. discriminate.
Defined.

(** C2, witness: the bench samples a spheroid and its source is polarized;
    a 3-D propagation ends in a configuration error. *)
Lemma propagate_3d_witness :
  aborts (Bench.propagate_3d 3 Bench.start)
  /\ configuration_error Bench.source_polarization (Bench.propagate_3d 3 Bench.start).
Proof.
  assert (Hsample :
            _get_next_particles Bench.particles Bench.get_next_number_of_particles
              Bench.particle_get_next 3 (started Bench.source_get_next Bench.start)
            = (Ret [("particle_00", Bench.D_particle ParticleSphere);
                    ("particle_01", Bench.D_particle ParticleSpheroid)],
               {| world := 6%nat; _qmap_cache := None;
                  logged := [(DEBUG, "Start propagation"); (INFO, miss_message);
                             (INFO, miss_message); (DEBUG, "2 particles")] |}))
    by reflexivity.
  assert (Hconfig :
            Bench.detector_solid_angle_correction = true
            \/ Exists (is_spheroid Bench.class_of)
                 [("particle_00", Bench.D_particle ParticleSphere);
                  ("particle_01", Bench.D_particle ParticleSpheroid)]
            \/ Bench.source_polarization <> "ignore").
  { right. left. apply Exists_cons_tl. apply Exists_cons_hd. reflexivity. }
  destruct (propagate_3d_unsupported_configurations Bench.elements
              Bench.Rotation_quaternion Bench.is_similar Bench.rotate_vector
              Bench.source_get_next Bench.source_get_intensity Bench.detector_get_next
              Bench.detector_generate_qmap Bench.detector_generate_qmap_3d
              Bench.detector_get_q_max Bench.detector_get_all_pixel_solid_angles
              Bench.detector_get_resolution_element_r
              Bench.detector_calculate_polarization_factors
              Bench.detector_detect_photons Bench.detector_binning
              Bench.detector_bin_photons Bench.detector_get_max_resolution
              Bench.downsample Bench.particles Bench.get_next_number_of_particles
              Bench.particle_get_next Bench.get_dn Bench.get_new_dn_map
              Bench.F_sphere_diffraction Bench.to_spheroid_semi_diameter_a
              Bench.to_spheroid_semi_diameter_c Bench.F_spheroid_diffraction Bench.nfft
              Bench.map3d_values Bench.spsim_importable Bench.spsim_version
              Bench.StrictVersion_lt Bench.spsim_simulate_shot false false None None 3
              Bench.start Hsample Hconfig) as (Habort & _ & Hconf).
  split; [exact Habort |].
  apply Hconf; [reflexivity |].
  repeat constructor; intros _; discriminate.
Defined.

(** C3, witness: the sphere of the bench in 3-D mode. *)
Lemma sphere_amplitude_witness :
  on_bench particle_amplitude false 3 None None Bench.D_source Bench.D_detector
    Bench.qmap0 (Bench.D_particle ParticleSphere) Bench.start
  = (Ret (sphere_amplitude_spec Bench.F_sphere_diffraction
            (Bench.source_get_intensity (position (Bench.D_particle ParticleSphere))
               "ph/m2" (pulse_energy Bench.D_source))
            (wavelength Bench.D_source)
            (Bench.get_dn ParticleSphere (wavelength Bench.D_source))
            (flt (1 # 10000000)) Bench.qmap0
            (fun _ => ndiv (npow (flt (1 # 10000)) 2) (npow (flt (1 # 10)) 2)),
          Bench.qmap0,
          annotated Bench.source_get_intensity Bench.D_source
            (Bench.D_particle ParticleSphere)),
     Bench.start).
Proof.
  apply (on_bench sphere_amplitude_is_form_factor); reflexivity.
Defined.

(** C5, witness: the sphere of the bench sits on the axis, its amplitude is
    added to the total as the kernel returned it. *)
Lemma phase_shift_witness :
  exists F : Arr (num:=Exact.cnum) unit,
    on_bench superimpose false 3 None None Bench.D_source Bench.D_detector Bench.qmap0
      [("particle_00", Bench.D_particle ParticleSphere)] (bc (flt 0)) Bench.start
    = (Ret (aadd (bc (flt 0)) F,
            [("particle_00",
              annotated Bench.source_get_intensity Bench.D_source
                (Bench.D_particle ParticleSphere))]),
       Bench.start)
    /\ phase_shift (position (Bench.D_particle ParticleSphere)) F Bench.qmap0 = F.
Proof.
  eexists.
  destruct (on_bench phase_shift_amended false 3 None None Bench.D_source
              Bench.D_detector Bench.qmap0 "particle_00"
              (Bench.D_particle ParticleSphere) [] (bc (flt 0)) Bench.start
              bench_sphere_amplitude) as (Hloop & _ & Hnear).
  cbv zeta in Hloop, Hnear.
  assert (Hclose : allclose_zero (position (Bench.D_particle ParticleSphere)) = true).
  { unfold allclose_zero.
    cbn [position Bench.D_particle c0 c1 c2 fst snd flt Exact.arith].
    rewrite !Exact.isclose_zero_real; try reflexivity; unfold Q2R; simpl; lra. }
  split.
  - rewrite Hloop, (Hnear Hclose). reflexivity.
  - exact (Hnear Hclose).
Defined.

(** ** Two spheres in one shot *)

Module SuperpositionExample.

(** a second sphere on the beam axis, of diameter 200 nm *)
Definition D_large : DParticle (num:=Exact.cnum) unit pclass unit unit unit :=
  {| _class_instance := ParticleSphere;
     position := (flt 0, flt 0, flt 0);
     extrinsic_quaternion := tt;
     diameter := Some (flt (2 # 10000000));
     flattening := None;
     particle_extra := [];
     intensity := None; F0 := None; map3d_dn := None; dx := None |}.

(** the amplitude of a sphere of the bench of diameter [d] in 3-D mode *)
Definition sphere_field (d : Exact.cnum) : Arr (num:=Exact.cnum) unit :=
  fun i =>
    nmul (Bench.F_sphere_diffraction
            (npow (nmul (nmul (primary_wave_amplitude (flt 1) (wavelength Bench.D_source))
                              (sphere_volume (ndiv d (flt 2))))
                        (flt (1 # 1000000))) 2)
            (qnorm Bench.qmap0) (ndiv d (flt 2)) i)
         (nsqrt (ndiv (npow (flt (1 # 10000)) 2) (npow (flt (1 # 10)) 2))).

Definition small_then_large
  : DParticles (num:=Exact.cnum) unit pclass unit unit unit :=
  [("particle_00", Bench.D_particle ParticleSphere); ("particle_01", D_large)].

Definition large_then_small
  : DParticles (num:=Exact.cnum) unit pclass unit unit unit :=
  [("particle_00", D_large); ("particle_01", Bench.D_particle ParticleSphere)].

Lemma on_axis : allclose_zero (flt (num:=Exact.cnum) 0, flt 0, flt 0) = true.
Proof.
  unfold allclose_zero. cbn [c0 c1 c2 fst snd flt Exact.arith].
  rewrite !Exact.isclose_zero_real; try reflexivity; unfold Q2R; simpl; lra.
Qed.

(** the field a sphere on the axis adds to the total *)
Lemma sphere_particle_field (D : DParticle (num:=Exact.cnum) unit pclass unit unit unit)
    (d : Exact.cnum) :
  _class_instance D = ParticleSphere ->
  position D = (flt 0, flt 0, flt 0) ->
  diameter D = Some d ->
  on_bench particle_field false 3 None None Bench.D_source Bench.D_detector Bench.qmap0
    D Bench.start
  = (Ret (sphere_field d, annotated Bench.source_get_intensity Bench.D_source D),
     Bench.start).
Proof.
  intros Hclass Hpos Hd. destruct D as [c pos q dia fl ex int f0 m3 dx0].
  cbn [_class_instance position diameter] in Hclass, Hpos, Hd. subst c pos dia.
  set (D := {| _class_instance := ParticleSphere; position := _ |}).
  assert (Hamp : on_bench particle_amplitude false 3 None None Bench.D_source
                   Bench.D_detector Bench.qmap0 D Bench.start
                 = (Ret (sphere_field d, Bench.qmap0,
                         annotated Bench.source_get_intensity Bench.D_source D),
                    Bench.start)) by reflexivity.
  unfold particle_field, mbind. rewrite Hamp. cbv iota beta. unfold mret.
  change (position (annotated Bench.source_get_intensity Bench.D_source D))
    with (flt (num:=Exact.cnum) 0, flt (num:=Exact.cnum) 0, flt (num:=Exact.cnum) 0).
  unfold phase_shift. rewrite on_axis. reflexivity.
Qed.

Lemma fields_small_then_large :
  on_bench particle_fields false 3 None None Bench.D_source Bench.D_detector Bench.qmap0
    small_then_large Bench.start
  = (Ret ([sphere_field (flt (1 # 10000000)); sphere_field (flt (2 # 10000000))],
          [("particle_00",
            annotated Bench.source_get_intensity Bench.D_source
              (Bench.D_particle ParticleSphere));
           ("particle_01", annotated Bench.source_get_intensity Bench.D_source D_large)]),
     Bench.start).
Proof.
  unfold small_then_large. cbn [particle_fields]. unfold mbind.
  rewrite (sphere_particle_field (Bench.D_particle ParticleSphere) eq_refl eq_refl eq_refl).
  rewrite (sphere_particle_field D_large eq_refl eq_refl eq_refl).
  reflexivity.
Qed.

Lemma fields_large_then_small :
  on_bench particle_fields false 3 None None Bench.D_source Bench.D_detector Bench.qmap0
    large_then_small Bench.start
  = (Ret ([sphere_field (flt (2 # 10000000)); sphere_field (flt (1 # 10000000))],
          [("particle_00", annotated Bench.source_get_intensity Bench.D_source D_large);
           ("particle_01",
            annotated Bench.source_get_intensity Bench.D_source
              (Bench.D_particle ParticleSphere))]),
     Bench.start).
Proof.
  unfold large_then_small. cbn [particle_fields]. unfold mbind.
  rewrite (sphere_particle_field D_large eq_refl eq_refl eq_refl).
  rewrite (sphere_particle_field (Bench.D_particle ParticleSphere) eq_refl eq_refl eq_refl).
  reflexivity.
Qed.

End SuperpositionExample.

(** C6, witness: a sphere of 100 nm and a sphere of 200 nm in one shot. The
    loop over the small sphere and then the large one returns, at the
    pixel, 0 plus the amplitude of the small sphere plus that of the large
    one; the loop over the large sphere and then the small one returns the
    same total (exact complex addition is commutative and associative). *)
Lemma coherent_superposition_witness :
  exists (total total' : Arr (num:=Exact.cnum) unit)
         (done done' : DParticles (num:=Exact.cnum) unit pclass unit unit unit),
    on_bench superimpose false 3 None None Bench.D_source Bench.D_detector Bench.qmap0
      SuperpositionExample.small_then_large (bc (flt 0)) Bench.start
    = (Ret (total, done), Bench.start)
    /\ on_bench superimpose false 3 None None Bench.D_source Bench.D_detector Bench.qmap0
         SuperpositionExample.large_then_small (bc (flt 0)) Bench.start
       = (Ret (total', done'), Bench.start)
    /\ total tt
       = nadd (nadd (flt 0) (SuperpositionExample.sphere_field (flt (1 # 10000000)) tt))
              (SuperpositionExample.sphere_field (flt (2 # 10000000)) tt)
    /\ total' tt = total tt.
Proof.
  destruct (coherent_superposition Bench.elements Bench.Rotation_quaternion
              Bench.is_similar Bench.rotate_vector Bench.source_get_intensity
              Bench.detector_generate_qmap Bench.detector_generate_qmap_3d
              Bench.detector_solid_angle_correction
              Bench.detector_get_all_pixel_solid_angles
              Bench.detector_get_resolution_element_r Bench.class_of Bench.get_dn
              Bench.get_new_dn_map Bench.F_sphere_diffraction
              Bench.to_spheroid_semi_diameter_a Bench.to_spheroid_semi_diameter_c
              Bench.F_spheroid_diffraction Bench.nfft Bench.map3d_values
              Bench.spsim_importable Bench.spsim_version Bench.StrictVersion_lt
              Bench.spsim_simulate_shot false 3 None None Bench.D_source
              Bench.D_detector Bench.qmap0 SuperpositionExample.small_then_large
              (bc (flt 0)) Bench.start
              SuperpositionExample.fields_small_then_large)
    as (total & Hloop & Hsum & Horders).
  destruct (Horders Exact.nadd_comm Exact.nadd_assoc) as (_ & Horder).
  destruct (coherent_superposition Bench.elements Bench.Rotation_quaternion
              Bench.is_similar Bench.rotate_vector Bench.source_get_intensity
              Bench.detector_generate_qmap Bench.detector_generate_qmap_3d
              Bench.detector_solid_angle_correction
              Bench.detector_get_all_pixel_solid_angles
              Bench.detector_get_resolution_element_r Bench.class_of Bench.get_dn
              Bench.get_new_dn_map Bench.F_sphere_diffraction
              Bench.to_spheroid_semi_diameter_a Bench.to_spheroid_semi_diameter_c
              Bench.F_spheroid_diffraction Bench.nfft Bench.map3d_values
              Bench.spsim_importable Bench.spsim_version Bench.StrictVersion_lt
              Bench.spsim_simulate_shot false 3 None None Bench.D_source
              Bench.D_detector Bench.qmap0 SuperpositionExample.large_then_small
              (bc (flt 0)) Bench.start
              SuperpositionExample.fields_large_then_small)
    as (total' & Hloop' & _).
  exists total, total'. eexists. eexists.
  split; [exact Hloop |]. split; [exact Hloop' |]. split; [exact (Hsum tt) |].
  apply (Horder _ _ _ _ _ _ SuperpositionExample.fields_large_then_small
           (perm_swap _ _ _) Hloop').
Defined.

(** ** The atoms model on a molecule of two atoms *)

Module AtomsExample.

(** the first entries of the table of element names, and unit masses *)
Definition atomic_names : list string := ["H"; "He"; "Li"].
Definition get_atomic_mass (name : string) : float := Float64.of_Z 1.

(** a hydrogen atom at the origin and a helium atom one unit along x *)
Definition molecule : ParticleAtomsObj (num:=float) :=
  {| _atomic_numbers := Some [1%Z; 2%Z];
     _atomic_positions :=
       Some [(Float64.of_Z 0, Float64.of_Z 0, Float64.of_Z 0);
             (Float64.of_Z 1, Float64.of_Z 0, Float64.of_Z 0)];
     _diameter_mean := None |}.

End AtomsExample.

(** C10, witness: reading [diameter_mean] of the molecule stores a number in
    [_diameter_mean] and evaluates to [None]. *)
Lemma diameter_mean_witness :
  exists d : float,
    diameter_mean AtomsExample.atomic_names AtomsExample.get_atomic_mass
      AtomsExample.molecule
    = (Ret None,
       {| _atomic_numbers := _atomic_numbers AtomsExample.molecule;
          _atomic_positions := _atomic_positions AtomsExample.molecule;
          _diameter_mean := Some d |}).
Proof.
  eexists.
  apply (proj1 (proj2 (diameter_mean_is_None AtomsExample.atomic_names
                         AtomsExample.get_atomic_mass AtomsExample.molecule))).
  vm_compute. reflexivity.
Defined.

(** * The further properties on concrete inputs *)

(** ** [remove_from_dict] *)

Module DictExample.

(** a result with a private item at the top level and one in a nested
    dictionary, all private items being leaves *)
Definition result : dict nat :=
  [("source", VLeaf 1%nat);
   ("_tmp", VLeaf 2%nat);
   ("particles", VDict [("_class_instance", VLeaf 3%nat); ("diameter", VLeaf 4%nat)])].

Definition cleaned : dict nat :=
  [("source", VLeaf 1%nat); ("particles", VDict [("diameter", VLeaf 4%nat)])].

(** a private item that holds a dictionary, inside a nested dictionary *)
Definition nested_private : dict nat :=
  [("entry_1", VDict [("data", VLeaf 1%nat); ("_cache", VDict [])])].

End DictExample.

(** [remove_from_dict_outcome] on the two dictionaries: the first is
    cleaned at both levels, the second raises. *)
Lemma remove_from_dict_outcome_witness :
  remove_from_dict DictExample.result "_" = Ret DictExample.cleaned
  /\ exists k, remove_from_dict DictExample.nested_private "_" = Raise (KeyError k)
               /\ String.prefix "_" k = true.
Proof.
  split.
  - exact (proj1 (remove_from_dict_outcome DictExample.result "_" eq_refl) eq_refl).
  - exact (proj2 (remove_from_dict_outcome DictExample.nested_private "_" eq_refl)
             eq_refl).
Defined.

(** [remove_from_dict_result]: the cleaned dictionary mentions no private
    key and is left as it is by a second call. *)
Lemma remove_from_dict_result_witness :
  mentions "_" (VDict DictExample.cleaned) = false
  /\ remove_from_dict DictExample.cleaned "_" = Ret DictExample.cleaned.
Proof.
  apply (remove_from_dict_result DictExample.result "_"); reflexivity.
Defined.

(** ** The qmap cache *)

Module CacheExample2.
Import Float64.

(** a new experiment: nothing cached, nothing logged *)
Definition fresh : state (num:=float) unit unit Z :=
  {| world := tt; _qmap_cache := None; logged := [] |}.

(** the state the first request, for a rotation by 90 degrees, leaves *)
Definition filled : state (num:=float) unit unit Z :=
  recomputed CacheExample.generate_qmap fresh 4 4 (of_Q (3 # 2)) (of_Q (3 # 2))
    (of_Q (1 # 10000)) (of_Q (1 # 10)) (of_Q (1 # 10000000000)) (Some 90%Z) "xyz".

Lemma first_request :
  CacheExample.geometry_get_qmap (Some 90%Z) "xyz" fresh
  = (Ret (CacheExample.generate_qmap (of_Q (1 # 10000000000)) (of_Q (3 # 2))
            (of_Q (3 # 2)) (Some 90%Z) (Some "xyz")),
     filled).
Proof. apply get_qmap_empty_cache. reflexivity. Qed.

End CacheExample2.

(** [get_qmap_then_get_qmap_from_cache]: after the first request the cache
    hands out the field of that request. *)
Lemma get_qmap_then_get_qmap_from_cache_witness :
  get_qmap_from_cache CacheExample2.filled
  = (Ret (CacheExample.generate_qmap (Float64.of_Q (1 # 10000000000))
            (Float64.of_Q (3 # 2)) (Float64.of_Q (3 # 2)) (Some 90%Z) (Some "xyz")),
     CacheExample2.filled).
Proof.
  exact (get_qmap_then_get_qmap_from_cache CacheExample.is_similar
           CacheExample.generate_qmap CacheExample2.fresh 4 4 (Float64.of_Q (3 # 2))
           (Float64.of_Q (3 # 2)) (Float64.of_Q (1 # 10000)) (Float64.of_Q (1 # 10))
           (Float64.of_Q (1 # 10000000000)) (Some 90%Z) "xyz"
           CacheExample2.first_request).
Defined.

(** [get_qmap_repeated_call]: the same request again is served from the
    cache. *)
Lemma get_qmap_repeated_call_witness :
  CacheExample.geometry_get_qmap (Some 90%Z) "xyz" CacheExample2.filled
  = (Ret (CacheExample.generate_qmap (Float64.of_Q (1 # 10000000000))
            (Float64.of_Q (3 # 2)) (Float64.of_Q (3 # 2)) (Some 90%Z) (Some "xyz")),
     CacheExample2.filled).
Proof.
  apply (get_qmap_repeated_call CacheExample.is_similar CacheExample.generate_qmap
           CacheExample2.fresh 4 4 (Float64.of_Q (3 # 2)) (Float64.of_Q (3 # 2))
           (Float64.of_Q (1 # 10000)) (Float64.of_Q (1 # 10))
           (Float64.of_Q (1 # 10000000000)) "xyz").
  - vm_compute. reflexivity.
  - vm_compute. reflexivity.
  - vm_compute. reflexivity.
  - vm_compute. reflexivity.
  - vm_compute. reflexivity.
  - intros r Hr. inversion Hr; subst. reflexivity.
  - exact CacheExample2.first_request.
Defined.

(** [get_qmap_nan_always_recomputes]: the same request with a NaN
    wavelength is generated anew although the cache is filled. *)
Lemma get_qmap_nan_always_recomputes_witness :
  get_qmap CacheExample.is_similar CacheExample.generate_qmap 4 4 (Float64.of_Q (3 # 2))
    (Float64.of_Q (3 # 2)) (Float64.of_Q (1 # 10000)) (Float64.of_Q (1 # 10))
    PrimFloat.nan (Some 90%Z) "xyz" CacheExample2.filled
  = (Ret (CacheExample.generate_qmap PrimFloat.nan (Float64.of_Q (3 # 2))
            (Float64.of_Q (3 # 2)) (Some 90%Z) (Some "xyz")),
     recomputed CacheExample.generate_qmap CacheExample2.filled 4 4
       (Float64.of_Q (3 # 2)) (Float64.of_Q (3 # 2)) (Float64.of_Q (1 # 10000))
       (Float64.of_Q (1 # 10)) PrimFloat.nan (Some 90%Z) "xyz").
Proof.
  apply get_qmap_nan_always_recomputes.
  right. right. right. right. exact Float64Facts.nan_differs.
Defined.

(** ** Sampling on the bench *)

(** [_get_next_particles_keys]: the round that ends the loop on the bench
    draws a sphere and a spheroid; they are the values of the dictionary
    returned, under particle_00 and particle_01. *)
Lemma _get_next_particles_keys_witness :
  exists k : nat,
    let drawn :=
      fst (drawn_round Bench.get_next_number_of_particles Bench.particle_get_next
             Bench.particles
             (Nat.iter k
                (fun w => snd (drawn_round Bench.get_next_number_of_particles
                                 Bench.particle_get_next Bench.particles w))
                O)) in
    drawn = [Bench.D_particle ParticleSphere; Bench.D_particle ParticleSpheroid]
    /\ [("particle_00", Bench.D_particle ParticleSphere);
        ("particle_01", Bench.D_particle ParticleSpheroid)]
       = combine (map particle_key (seq 0 (List.length drawn))) drawn.
Proof.
  destruct (_get_next_particles_keys Bench.particles Bench.get_next_number_of_particles
              Bench.particle_get_next 3 Bench.start bench_sampling)
    as (k & Hitems & Hvalues & _).
  exists k. split; [symmetry; exact Hvalues | exact Hitems].
Defined.

(** ** A 3-D propagation on a detector that bins *)

Module BinningBench.

(** one sphere per shot, an unpolarized source, a detector that bins 2x2 *)
Definition particles : list (string * pclass) := [("particle_sphere", ParticleSphere)].
Definition get_next_number_of_particles (p : pclass) (w : nat) : Z * nat := (1%Z, w).
Definition source_polarization : string := "ignore".
Definition detector_binning : option Z := Some 2%Z.

Definition propagate_3d (fuel : nat)
  : M unit nat unit (dict (leaf unit pclass unit unit unit)) :=
  _propagate Bench.elements Bench.Rotation_quaternion Bench.is_similar
    Bench.rotate_vector Bench.source_get_next Bench.source_get_intensity
    source_polarization Bench.detector_get_next Bench.detector_generate_qmap
    Bench.detector_generate_qmap_3d Bench.detector_get_q_max
    Bench.detector_solid_angle_correction Bench.detector_get_all_pixel_solid_angles
    Bench.detector_get_resolution_element_r
    Bench.detector_calculate_polarization_factors Bench.detector_detect_photons
    detector_binning Bench.detector_bin_photons Bench.detector_get_max_resolution
    Bench.downsample particles Bench.class_of get_next_number_of_particles
    Bench.particle_get_next Bench.get_dn Bench.get_new_dn_map
    Bench.F_sphere_diffraction Bench.to_spheroid_semi_diameter_a
    Bench.to_spheroid_semi_diameter_c Bench.F_spheroid_diffraction Bench.nfft
    Bench.map3d_values Bench.spsim_importable Bench.spsim_version
    Bench.StrictVersion_lt Bench.spsim_simulate_shot false false 3 None None fuel.

End BinningBench.

(** [propagate_3d_binning_never_returns]: the propagation of the sphere
    gets through every step and ends in the [UnboundLocalError]. *)
Lemma propagate_3d_binning_never_returns_witness :
  no_result (BinningBench.propagate_3d 1 Bench.start)
  /\ fst (BinningBench.propagate_3d 1 Bench.start) = Raise (UnboundLocalError "FXxX_tot").
Proof.
  split; [| reflexivity].
  unfold BinningBench.propagate_3d. apply propagate_3d_binning_never_returns.
  discriminate.
Defined.

(** ** What a shot records for a map particle *)

(** the map particle of the bench after the shot has recorded the fluence
    and the primary wave amplitude *)
Definition bench_map_recorded : DParticle (num:=Exact.cnum) unit pclass unit unit unit :=
  annotated Bench.source_get_intensity Bench.D_source (Bench.D_particle ParticleMap).

Lemma bench_map_amplitude :
  exists F qmap s',
    on_bench particle_amplitude true 3 None None Bench.D_source Bench.D_detector
      Bench.qmap0 (Bench.D_particle ParticleMap) Bench.start
    = (Ret (F, qmap, set_map3d bench_map_recorded tt (flt 1)), s').
Proof.
  unfold particle_amplitude. cbv zeta.
  change (Bench.class_of (_class_instance _)) with ParticleMap. cbv iota.
  unfold map_kernel. change (Z.eqb 3 2) with false. cbv zeta iota.
  unfold mbind at 1. unfold mret at 1. cbv iota beta.
  change (Bench.get_new_dn_map _ _ _ _ _) with (tt, flt (num:=Exact.cnum) 1).
  cbv iota beta.
  unfold mbind at 1. unfold log_debug at 1. rewrite log_ret. cbv iota beta.
  match goal with |- context [mbind (map_fourier_pattern ?e ?n ?mv ?a ?b ?c) ?k ?s0] =>
    destruct (map_fourier_pattern_ret e n mv a b c s0) as (lg & Hfp);
    cbv zeta in Hfp; rewrite (mbind_ret _ _ _ Hfp)
  end.
  eexists. eexists. eexists. reflexivity.
Qed.

(** [particle_amplitude_records]: propagated with [save_map3d], the map
    particle of the bench has gained the map and its sampling besides the
    fluence and the primary wave amplitude. *)
Lemma particle_amplitude_records_witness :
  set_map3d bench_map_recorded tt (flt 1)
  = (let '(map3d_dn, dx) :=
       Bench.get_new_dn_map ParticleMap bench_map_recorded
         (Bench.detector_get_resolution_element_r (wavelength Bench.D_source)
            (Some (cx Bench.D_detector)) (Some (cy Bench.D_detector)) false)
         (Bench.detector_get_resolution_element_r (wavelength Bench.D_source)
            None None true)
         (wavelength Bench.D_source) in
     set_map3d bench_map_recorded map3d_dn dx).
Proof.
  destruct bench_map_amplitude as (F & qmap & s' & Hamp).
  exact (on_bench particle_amplitude_records true 3 None None Bench.D_source
           Bench.D_detector Bench.qmap0 (Bench.D_particle ParticleMap) Bench.start Hamp).
Defined.

(** ** The atoms kernel on the bench *)

Module AtomsBench.
Import Exact.

Definition pattern : spsim_pattern (num:=cnum) unit :=
  Bench.spsim_simulate_shot Bench.D_source (Bench.D_particle ParticleAtoms)
    Bench.D_detector 2 None None.

(** the amplitude and the field the kernel makes of the pattern of spsim *)
Definition F : Arr (num:=cnum) unit :=
  fun i => nmul (nsqrt (nabs (phot_image pattern i)))
                (nexp (nmul cj (nangle (F_image pattern i)))).

Definition qmap : Qmap (num:=cnum) unit :=
  fun i => v3map (fun x => nmul (nmul (flt 2) npi) x) (hkl_image pattern i).

(** the state the kernel leaves: the field of spsim is cached *)
Definition after : state (num:=cnum) unit nat unit :=
  {| world := O;
     _qmap_cache :=
       Some {| c_qmap := qmap; c_nx := 4; c_ny := 4;
               c_cx := flt (3 # 2); c_cy := flt (3 # 2);
               c_pixel_size := flt (1 # 10000); c_detector_distance := flt (1 # 10);
               c_wavelength := flt (1 # 10000000000);
               c_extrinsic_rotation := Some tt; c_order := "zyx" |};
     logged := [] |}.

Lemma kernel_returns :
  atoms_kernel Bench.spsim_importable Bench.spsim_version Bench.StrictVersion_lt
    Bench.spsim_simulate_shot 2 None None Bench.D_source (Bench.D_particle ParticleAtoms)
    Bench.D_detector tt Bench.start
  = (Ret (F, qmap), after).
Proof. reflexivity. Qed.

End AtomsBench.

(** [atoms_kernel_fills_cache]: after the atoms kernel the cache hands out
    the field of spsim, and a sphere's request has the field generated. *)
Lemma atoms_kernel_fills_cache_witness :
  get_qmap_from_cache AtomsBench.after = (Ret AtomsBench.qmap, AtomsBench.after)
  /\ cached_qmap Bench.is_similar Bench.detector_generate_qmap Bench.D_detector
       (wavelength Bench.D_source) None "xyz" AtomsBench.after
     = (Ret Bench.qmap0,
        recomputed Bench.detector_generate_qmap AtomsBench.after 4 4 (flt (3 # 2))
          (flt (3 # 2)) (flt (1 # 10000)) (flt (1 # 10)) (flt (1 # 10000000000))
          None "xyz").
Proof.
  destruct (atoms_kernel_fills_cache Bench.is_similar Bench.detector_generate_qmap
              Bench.spsim_importable Bench.spsim_version Bench.StrictVersion_lt
              Bench.spsim_simulate_shot 2 None None Bench.D_source
              (Bench.D_particle ParticleAtoms) Bench.D_detector tt Bench.start
              AtomsBench.kernel_returns) as [Hcache Hsphere].
  split; [exact Hcache |].
  exact (Hsphere Bench.D_detector (wavelength Bench.D_source)).
Defined.

(** ** The input check of the map kernel on binary64 numbers *)

Module MapExample2.

(** a transform that reads the first coordinate, and a map of one value *)
Definition nfft (m : unit) (q : Qmap (num:=float) unit) : Arr (num:=float) unit :=
  fun i => c0 (q i).
Definition map3d_values (m : unit) : list float := [Float64.of_Z 1].

(** a field whose only sample holds an infinity and a NaN *)
Definition qmap : Qmap (num:=float) unit :=
  fun _ => (PrimFloat.infinity, PrimFloat.nan, Float64.of_Q (1 # 5)).

Lemma zero_valid : invalid (flt (num:=float) 0) = false.
Proof. vm_compute. reflexivity. Qed.

Lemma valid_finite (x : float) : invalid x = false -> nisfinite x = true.
Proof.
  unfold invalid. intros H. apply negb_false_iff in H.
  apply Float64Facts.in_range_finite. exact H.
Qed.

End MapExample2.

(** [map_kernel_samples_in_range]: the sample (0.7, 0.1, 0.2) after the
    check. *)
Lemma map_kernel_samples_in_range_witness :
  let samples :=
    if any_invalid [tt] (invalid_mask MapExample.qmap_shaped)
    then zero_invalid MapExample.qmap_shaped (invalid_mask MapExample.qmap_shaped)
    else MapExample.qmap_shaped in
  invalid (c0 (samples tt)) = false
  /\ invalid (c1 (samples tt)) = false
  /\ invalid (c2 (samples tt)) = false.
Proof.
  cbv zeta.
  apply (map_kernel_samples_in_range [tt] MapExample.qmap_shaped MapExample.fresh
           MapExample2.zero_valid (check_inputs_eq [tt] MapExample.qmap_shaped
                                     MapExample.fresh)).
  left. reflexivity.
Defined.

(** [scattering_vectors_warning_never_logged]: a field holding an infinity
    and a NaN does not bring the warning about. *)
Lemma scattering_vectors_warning_never_logged_witness :
  exists (fourier_pattern : Arr (num:=float) unit) (lg : list log_record),
    map_fourier_pattern [tt] MapExample2.nfft MapExample2.map3d_values tt
      (Float64.of_Z 1) MapExample2.qmap MapExample.fresh
    = (Ret fourier_pattern, {| world := tt; _qmap_cache := None; logged := [] ++ lg |})
    /\ ~ In (WARNING, scattering_vectors_warning) lg.
Proof.
  exact (scattering_vectors_warning_never_logged [tt] MapExample2.nfft
           MapExample2.map3d_values tt (Float64.of_Z 1) MapExample2.qmap
           MapExample.fresh MapExample2.zero_valid MapExample2.valid_finite).
Defined.

(** ** Constructing the experiment of the bench *)

(** [new_experiment_cache_empty]: the models of the bench are accepted,
    and the new experiment has nothing cached. *)
Lemma new_experiment_cache_empty_witness :
  get_qmap_from_cache Bench.start
  = (Raise (RuntimeError "Cache empty!"), failed Bench.start "Cache empty!")
  /\ get_qmap Bench.is_similar Bench.detector_generate_qmap 4 4 (flt (3 # 2))
       (flt (3 # 2)) (flt (1 # 10000)) (flt (1 # 10)) (flt (1 # 10000000000)) None "xyz"
       Bench.start
     = (Ret Bench.qmap0,
        recomputed Bench.detector_generate_qmap Bench.start 4 4 (flt (3 # 2))
          (flt (3 # 2)) (flt (1 # 10000)) (flt (1 # 10)) (flt (1 # 10000000000))
          None "xyz").
Proof.
  apply (new_experiment_cache_empty Bench.is_similar Bench.detector_generate_qmap
           Bench.class_of Bench.particles Bench.start (s' := Bench.start)).
  reflexivity.
Defined.

(** ** An experiment from a configuration *)

Module ConfigExample.

(** a source, a sphere model, an atoms model and a detector; the sections
    hold no arguments, and a model is represented by its class *)
Definition configdict : list (string * unit) :=
  [("source", tt); ("particle_sphere", tt); ("particle_atoms_1", tt); ("detector", tt)].

Definition condor_Source (conf : unit) : outcome unit := Ret tt.
Definition condor_Detector (conf : unit) : outcome unit := Ret tt.
Definition condor_Particle (c : pclass) (conf : unit) : outcome pclass := Ret c.

Definition models : list (string * pclass) :=
  [("particle_sphere", ParticleSphere); ("particle_atoms_1", ParticleAtoms)].

End ConfigExample.

(** [experiment_from_configdict_returns] on this configuration. *)
Lemma experiment_from_configdict_returns_witness :
  experiment_from_configdict Bench.class_of ConfigExample.condor_Source
    ConfigExample.condor_Detector ConfigExample.condor_Particle ConfigExample.configdict
    Bench.start
  = (Ret (tt, ConfigExample.models, tt), Bench.start)
  /\ Forall (well_named Bench.class_of) ConfigExample.models.
Proof.
  apply experiment_from_configdict_returns
    with (source_conf := tt) (detector_conf := tt) (s' := Bench.start).
  - intros c conf p H. inversion H. reflexivity.
  - reflexivity.
  - reflexivity.
  - discriminate.
  - reflexivity.
  - reflexivity.
  - reflexivity.
Defined.

(** ** The weights of atoms with unusual atomic numbers *)

Module WeightsExample.

Definition get_atomic_mass (name : string) : float :=
  if String.eqb name "Li" then Float64.of_Z 7
  else if String.eqb name "He" then Float64.of_Z 4
  else Float64.of_Z 1.

(** atoms with the atomic numbers 1, 0 and -2 *)
Definition odd_molecule : ParticleAtomsObj (num:=float) :=
  {| _atomic_numbers := Some [1%Z; 0%Z; (-2)%Z];
     _atomic_positions := Some [];
     _diameter_mean := None |}.

End WeightsExample.

(** [get_atomic_standard_weights_bounds]: with a table of three names the
    atomic number 0 is given the weight of the last element and -2 that of
    the first. *)
Lemma get_atomic_standard_weights_bounds_witness :
  get_atomic_standard_weights AtomsExample.atomic_names WeightsExample.get_atomic_mass
    WeightsExample.odd_molecule
  = Ret [Float64.of_Z 1; Float64.of_Z 7; Float64.of_Z 1].
Proof.
  destruct (get_atomic_standard_weights_bounds AtomsExample.atomic_names
              WeightsExample.get_atomic_mass WeightsExample.odd_molecule
              (numbers := [1%Z; 0%Z; (-2)%Z]) eq_refl) as [[_ Hret] | [Hnot _]].
  - exact Hret.
  - exfalso. apply Hnot. repeat constructor; unfold listed; simpl; lia.
Defined.

(** ** Constructing a [ParticleAtoms] from arrays *)

Module ConstructionExample.

Definition args : AtomsArgs (num:=float) :=
  {| pdb_filename := None; pdb_id := None;
     atomic_numbers := Some [1%Z; 2%Z];
     atomic_positions :=
       Some [(Float64.of_Z 0, Float64.of_Z 0, Float64.of_Z 0);
             (Float64.of_Z 1, Float64.of_Z 0, Float64.of_Z 0)];
     atomic_formfactors := None |}.

(** spsim can be imported, the base class accepts its arguments; no file
    is looked at *)
Definition new : outcome (ParticleAtomsSelf (num:=float)) * list log_record :=
  ParticleAtoms_new true (fun _ => Raise (ImportError "spsim"))
    (fun _ => Raise (ImportError "spsim")) (fun _ => false) (Ret tt) args [].

Definition self : ParticleAtomsSelf (num:=float) :=
  {| atoms := AtomsExample.molecule; _atomic_formfactors := None; _pdb_filename := None |}.

End ConstructionExample.

(** [ParticleAtoms_constructed]: the molecule of two atoms. *)
Lemma ParticleAtoms_constructed_witness :
  ConstructionExample.new
  = (Ret ConstructionExample.self, [(DEBUG, "Attempt reading atoms from lists/attays.")])
  /\ get_atomic_numbers (atoms ConstructionExample.self) = Ret [1%Z; 2%Z]
  /\ _diameter_mean (atoms ConstructionExample.self) = None.
Proof.
  assert (Hnew : ConstructionExample.new
                 = (Ret ConstructionExample.self,
                    [(DEBUG, "Attempt reading atoms from lists/attays.")]))
    by reflexivity.
  split; [exact Hnew |].
  destruct (ParticleAtoms_constructed _ _ _ _ _ _ _ Hnew)
    as ((numbers & positions & Hnumbers & _ & Hargs) & _ & Hmean & _).
  destruct (Hargs eq_refl eq_refl) as (Hgiven & _).
  inversion Hgiven; subst numbers.
  split; [exact Hnumbers | exact Hmean].
Defined.

(** ** A dimension that is neither 2 nor 3 *)

Module DimensionBench.

(** the engine of the bench, asked for a pattern of the given dimension *)
Definition propagate_nd (ndim : Z) (fuel : nat)
  : M unit nat unit (dict (leaf unit pclass unit unit unit)) :=
  _propagate Bench.elements Bench.Rotation_quaternion Bench.is_similar
    Bench.rotate_vector Bench.source_get_next Bench.source_get_intensity
    Bench.source_polarization Bench.detector_get_next Bench.detector_generate_qmap
    Bench.detector_generate_qmap_3d Bench.detector_get_q_max
    Bench.detector_solid_angle_correction Bench.detector_get_all_pixel_solid_angles
    Bench.detector_get_resolution_element_r
    Bench.detector_calculate_polarization_factors Bench.detector_detect_photons
    Bench.detector_binning Bench.detector_bin_photons Bench.detector_get_max_resolution
    Bench.downsample Bench.particles Bench.class_of Bench.get_next_number_of_particles
    Bench.particle_get_next Bench.get_dn Bench.get_new_dn_map
    Bench.F_sphere_diffraction Bench.to_spheroid_semi_diameter_a
    Bench.to_spheroid_semi_diameter_c Bench.F_spheroid_diffraction Bench.nfft
    Bench.map3d_values Bench.spsim_importable Bench.spsim_version
    Bench.StrictVersion_lt Bench.spsim_simulate_shot false false ndim None None fuel.

End DimensionBench.

(** [_propagate_invalid_ndim]: the bench asked for a pattern of dimension 4. *)
Lemma _propagate_invalid_ndim_witness :
  DimensionBench.propagate_nd 4 1 Bench.start
  = (Raise (RuntimeError "ndim = 4 is an invalid input. Has to be either 2 or 3."),
     failed Bench.start "ndim = 4 is an invalid input. Has to be either 2 or 3.").
Proof.
  unfold DimensionBench.propagate_nd.
  apply _propagate_invalid_ndim; discriminate.
Defined.

(** ** The configuration of an experiment and the experiment built from it *)

Module RoundTripExample.

(** the experiment of [ConfigExample]: its source and its detector report
    an empty section each, and so does every model *)
Definition source_get_conf : list (string * unit) := [("source", tt)].
Definition detector_get_conf : list (string * unit) := [("detector", tt)].
Definition particle_get_conf (p : pclass) : outcome unit := Ret tt.
Definition conf_of (p : pclass) : unit := tt.
Definition rebuilt (p : pclass) : pclass := p.

End RoundTripExample.

(** [get_conf_round_trip]: the configuration of the experiment with a
    sphere model and an atoms model is the dictionary of [ConfigExample],
    and the experiment built from it has the same two models. *)
Lemma get_conf_round_trip_witness :
  get_conf ConfigExample.models RoundTripExample.source_get_conf
    RoundTripExample.detector_get_conf RoundTripExample.particle_get_conf
  = Ret ConfigExample.configdict
  /\ experiment_from_configdict Bench.class_of ConfigExample.condor_Source
       ConfigExample.condor_Detector ConfigExample.condor_Particle
       ConfigExample.configdict Bench.start
     = (Ret (tt, ConfigExample.models, tt), Bench.start).
Proof.
  assert (Hnamed : Forall (well_named Bench.class_of) ConfigExample.models)
    by (repeat constructor).
  assert (Hunique : NoDup (map fst ConfigExample.models))
    by (repeat constructor; simpl; intuition discriminate).
  assert (Htyped : forall (c : pclass) (conf : unit) (p : pclass),
             ConfigExample.condor_Particle c conf = Ret p -> Bench.class_of p = c)
    by (intros c conf p H; inversion H; reflexivity).
  assert (Hnonempty : ConfigExample.models <> []) by discriminate.
  destruct (@get_conf_round_trip Exact.cnum unit nat pclass unit
              ConfigExample.models Bench.class_of unit unit unit
              ConfigExample.condor_Source ConfigExample.condor_Detector
              ConfigExample.condor_Particle
              RoundTripExample.source_get_conf RoundTripExample.detector_get_conf
              RoundTripExample.particle_get_conf RoundTripExample.conf_of
              RoundTripExample.rebuilt tt tt tt tt
              eq_refl eq_refl Hnamed Hunique
              (fun n p _ => eq_refl) (fun n p _ => eq_refl) eq_refl eq_refl
              Htyped Bench.start Hnonempty) as (Hconf & Hbuild & _).
  split; [exact Hconf | exact Hbuild].
Defined.

(** ** Writing the shots of the legacy interface *)

Module WriteExample.

(** two shots of two pixels each, with a NaN and an infinity among the
    amplitudes; the detector, the back propagation and the noise leave the
    values as they are *)
Definition amplitudes : list (Image (num:=float)) :=
  [[Float64.of_Z 1; PrimFloat.nan]; [PrimFloat.infinity; Float64.of_Z 2]].

Definition detect_photons (I : Image (num:=float)) : Image (num:=float) := I.
Definition back_propagate (A : Image (num:=float)) : Image (num:=float) := A.
Definition noise (I : Image (num:=float)) : Image (num:=float) := I.
Definition angle_index_error (size i : nat) : exn := IndexError "list index out of range".

Definition with_angles : OutputAttrs (num:=float) :=
  {| Output_N := 2;
     sample_euler_angle_0 := Some [Float64.of_Z 0; Float64.of_Z 1];
     sample_euler_angle_1 := Some [Float64.of_Z 0; Float64.of_Z 2];
     sample_euler_angle_2 := Some [Float64.of_Z 0; Float64.of_Z 3] |}.

Definition without_angles : OutputAttrs (num:=float) :=
  {| Output_N := 2;
     sample_euler_angle_0 := None;
     sample_euler_angle_1 := None;
     sample_euler_angle_2 := None |}.

Definition start : OutputState (num:=float) (Image (num:=float)) :=
  {| Output_amplitudes := amplitudes; writer_calls := []; Output_logged := [] |}.

(** [write("out.cxi", output_fourier_space=True, output_real_space=True)] *)
Definition written : answer unit * OutputState (num:=float) (Image (num:=float)) :=
  write detect_photons back_propagate angle_index_error noise with_angles "out.cxi"
    true true true true start.

End WriteExample.

(** [write_shots_written]: both shots are written and the stored
    amplitudes have lost the NaN and the infinity; the intensities of the
    first shot still hold the NaN, its Fourier space output holds 0. *)
Lemma write_shots_written_witness :
  fst WriteExample.written = Returns tt
  /\ Output_amplitudes (snd WriteExample.written)
     = [[Float64.of_Z 1; Float64.of_Z 0]; [Float64.of_Z 0; Float64.of_Z 2]]
  /\ List.length (writer_calls (snd WriteExample.written)) = 4%nat
  /\ nth_error (writer_calls (snd WriteExample.written)) 1
     = Some (W_write
               [("/entry_1/data_1/intensities", Intensities [Float64.of_Z 1; PrimFloat.nan]);
                ("/entry_1/data_1/sample_euler_angle_0", Angle (Float64.of_Z 0));
                ("/entry_1/data_1/sample_euler_angle_1", Angle (Float64.of_Z 0));
                ("/entry_1/data_1/sample_euler_angle_2", Angle (Float64.of_Z 0));
                ("/entry_1/data_1/real_space",
                 RealSpace [Float64.of_Z 1; Float64.of_Z 0]);
                ("/entry_1/data_1/fourier_space",
                 FourierSpace [Float64.of_Z 1; Float64.of_Z 0])]
               0).
Proof.
  unfold WriteExample.written.
  rewrite (write_shots_written WriteExample.detect_photons WriteExample.back_propagate
             WriteExample.angle_index_error WriteExample.noise WriteExample.with_angles
             "out.cxi" true (output_euler_angles := true) true true WriteExample.start
             eq_refl eq_refl).
  - cbn [fst snd Output_amplitudes writer_calls]. repeat split; vm_compute; reflexivity.
  - intros _. repeat split; eexists; (split; [reflexivity | simpl; lia]).
Defined.

(** [write_without_angles]: the same shots without angles. *)
Lemma write_without_angles_witness :
  write WriteExample.detect_photons WriteExample.back_propagate
    WriteExample.angle_index_error WriteExample.noise WriteExample.without_angles
    "out.cxi" true true false false WriteExample.start
  = (Raises (TypeError "'NoneType' object has no attribute '__getitem__'"),
     {| Output_amplitudes := WriteExample.amplitudes;
        writer_calls := [CXIWriter "out.cxi" 2];
        Output_logged := [] |}).
Proof.
  apply (write_without_angles WriteExample.detect_photons WriteExample.back_propagate
           WriteExample.angle_index_error WriteExample.noise WriteExample.without_angles
           "out.cxi" true false false WriteExample.start);
    [reflexivity | reflexivity | discriminate | discriminate].
Defined.
